(** * Stream server: media pipeline, peer sessions, peer registry, signaling

    A shallow embedding of the C++ sources
      - config.hpp            (configuration records),
      - config.cpp            (the YAML file and the environment overrides),
      - peer_connection.cpp   (one WebRTC peer: SSRC, RTP timestamp, stats),
      - webrtc_server.cpp     (the bounded peer registry),
      - rtsp_pipeline.cpp     (the supervised media pipeline),
      - signaling_server.cpp  (the WebSocket signaling endpoint),
      - http_server.cpp       (the static file server),
      - main.cpp              (the wiring of the components),
    followed by the properties proved about them.

    Conventions.  C++ [int] values are integers of [Z] kept in the range of
    [int_range]; [uint32_t]/[guint] and [uint64_t] arithmetic is written with
    its wrap-around ([to_uint32], [to_uint64]).  [std::atomic] flags are plain
    booleans: every function below is one critical section or one thread's
    step, and what other threads or the libraries (GStreamer, libdatachannel,
    nlohmann::json, yaml-cpp, std::filesystem) and the process environment
    decide is passed in as an explicit argument. *)

From Stdlib Require Import ZArith Lia Bool List NArith Ascii String.
From stdpp Require Import gmap strings list fin_maps.

Local Open Scope Z_scope.

(* ===================================================================== *)
(** ** Machine integers *)
(* ===================================================================== *)

Module MachineInt.

Definition two32 : Z := 4294967296.
Definition two64 : Z := 18446744073709551616.
Definition INT_MAX : Z := 2147483647.
Definition INT_MIN : Z := -2147483648.

(** [static_cast<uint32_t>(z)], also [(guint) z]. *)
Definition to_uint32 (z : Z) : Z := z mod two32.

(** Arithmetic on [uint64_t] is modulo 2^64. *)
Definition to_uint64 (z : Z) : Z := z mod two64.

(** [static_cast<int>(z)]: the two's complement value of the low 32 bits
    (the conversion is modular since C++20, and on every supported
    compiler before). *)
Definition to_int (z : Z) : Z := (z + 2147483648) mod two32 - 2147483648.

Definition int_range (z : Z) : Prop := INT_MIN <= z <= INT_MAX.
Definition uint32_range (z : Z) : Prop := 0 <= z < two32.
Definition uint64_range (z : Z) : Prop := 0 <= z < two64.

End MachineInt.
Import MachineInt.

(* ===================================================================== *)
(** ** config.hpp *)
(* ===================================================================== *)

Record RtspConfig := {
  url : string;
  transport : string;
  latency_ms : Z;
  reconnect_interval_ms : Z;
  reconnect_max_attempts : Z   (* documented in config.hpp as: 0 = unlimited *)
}.

Record VideoConfig := {
  clock_rate : Z;
  payload_type : Z;
  bitrate_kbps : Z;
  max_bitrate_kbps : Z;
  min_bitrate_kbps : Z;
  fps : Z
}.

Record WebRtcConfig := {
  stun_server : string;
  turn_server : string;
  turn_username : string;
  turn_credential : string;
  max_peers : Z;
  video : VideoConfig
}.

Record EncodingConfig := {
  hw_encode : bool;
  passthrough : bool;
  idr_interval : Z;
  insert_sps_pps : bool
}.

Record AppConfig := {
  rtsp : RtspConfig;
  webrtc : WebRtcConfig;
  encoding : EncodingConfig
}.

(** The defaults written in config.hpp. *)
Definition default_video : VideoConfig :=
  {| clock_rate := 90000; payload_type := 96; bitrate_kbps := 4000;
     max_bitrate_kbps := 8000; min_bitrate_kbps := 500; fps := 30 |}.

Definition default_config : AppConfig :=
  {| rtsp := {| url := EmptyString; transport := "tcp"; latency_ms := 0;
                reconnect_interval_ms := 3000; reconnect_max_attempts := 0 |};
     webrtc := {| stun_server := "stun:stun.cloudflare.com:3478";
                  turn_server := EmptyString; turn_username := EmptyString; turn_credential := EmptyString;
                  max_peers := 4; video := default_video |};
     encoding := {| hw_encode := false; passthrough := true;
                    idr_interval := 30; insert_sps_pps := true |} |}.

(* ===================================================================== *)
(** ** config.cpp *)
(* ===================================================================== *)

Module Config.

(** The sections of [AppConfig] that the media plane does not read. *)
Record ServerConfig := {
  signaling_port : Z;      (* uint16_t *)
  http_port : Z;           (* uint16_t *)
  web_root : string
}.

Record LoggingConfig := {
  level : string;
  file : string;
  max_file_size_mb : Z;
  max_files : Z
}.

(** All of [AppConfig]: the sections above, the sections of [AppConfig]
    modelled earlier, and the two string members of [VideoConfig] and
    [EncodingConfig] left out there. *)
Record Loaded := {
  server : ServerConfig;
  app : AppConfig;
  video_codec : string;
  encoding_preset : string;
  logging : LoggingConfig
}.

(** The defaults written in config.hpp. *)
Definition defaults : Loaded :=
  {| server := {| signaling_port := 8080; http_port := 8081; web_root := "./web" |};
     app := default_config;
     video_codec := "H264";
     encoding_preset := "UltraFastPreset";
     logging := {| level := "info"; file := EmptyString;
                   max_file_size_mb := 10; max_files := 3 |} |}.

(** The part of yaml-cpp that [load_config] uses on a loaded document. *)
Class Yaml (node : Type) := {
  y_get : node -> string -> option node;     (* [node[key]]; [None]: a scalar, it throws *)
  y_defined : node -> bool;                  (* [if (auto n = ...)] *)
  y_string : node -> string -> string;       (* [as<std::string>(fallback)] *)
  y_int : node -> Z -> Z;                    (* [as<int>(fallback)] *)
  y_uint16 : node -> Z -> Z;                 (* [as<uint16_t>(fallback)] *)
  y_bool : node -> bool -> bool              (* [as<bool>(fallback)] *)
}.

(** What leaves [load_config] as an exception. *)
Inductive load_error :=
| FailedToLoadConfig      (* the [std::runtime_error] for a [YAML::Exception] of [LoadFile] *)
| BadSubscript            (* [operator[]] on a scalar node, not caught *)
| StoiThrows (name : string).  (* [std::stoi] on the value of an environment variable *)

Section Load.

Context {node : Type} `{Yaml node}.

(** The process environment and [std::stoi] ([None]: it throws). *)
Variable getenv : string -> option string.
Variable stoi : string -> option Z.

Definition env_or (name fallback : string) : string :=
  match getenv name with
  | Some val => val
  | None => fallback
  end.

Definition env_int_or (name : string) (fallback : Z) : load_error + Z :=
  match getenv name with
  | Some val =>
      match stoi val with
      | Some n => inr n
      | None => inl (StoiThrows name)
      end
  | None => inr fallback
  end.

(** Exceptions as the left summand. *)
Definition bind {A B : Type} (m : load_error + A) (k : A -> load_error + B)
  : load_error + B :=
  match m with
  | inl err => inl err
  | inr a => k a
  end.

Local Notation "x <- m ;; k" := (bind m (fun x => k))
  (at level 100, m at next level, right associativity).

Definition sub (n : node) (key : string) : load_error + node :=
  match y_get n key with
  | Some child => inr child
  | None => inl BadSubscript
  end.

(** The five sections, each read over the value the member has so far. *)
Definition read_server (root : node) (c : ServerConfig) : load_error + ServerConfig :=
  s <- sub root "server" ;;
  if y_defined s then
    port <- sub s "signaling_port" ;;
    dir <- sub s "web_root" ;;
    inr {| signaling_port := y_uint16 port (signaling_port c);
           http_port := http_port c;
           web_root := y_string dir (web_root c) |}
  else inr c.

Definition read_rtsp (root : node) (c : RtspConfig) : load_error + RtspConfig :=
  r <- sub root "rtsp" ;;
  if y_defined r then
    n_url <- sub r "url" ;;
    n_transport <- sub r "transport" ;;
    n_latency <- sub r "latency_ms" ;;
    n_interval <- sub r "reconnect_interval_ms" ;;
    n_attempts <- sub r "reconnect_max_attempts" ;;
    inr {| url := y_string n_url EmptyString;
           transport := y_string n_transport (transport c);
           latency_ms := y_int n_latency (latency_ms c);
           reconnect_interval_ms := y_int n_interval (reconnect_interval_ms c);
           reconnect_max_attempts := y_int n_attempts (reconnect_max_attempts c) |}
  else inr c.

Definition read_video (w : node) (c : VideoConfig * string)
  : load_error + (VideoConfig * string) :=
  v <- sub w "video" ;;
  if y_defined v then
    n_codec <- sub v "codec" ;;
    n_clock <- sub v "clock_rate" ;;
    n_payload <- sub v "payload_type" ;;
    n_bitrate <- sub v "bitrate_kbps" ;;
    n_max <- sub v "max_bitrate_kbps" ;;
    n_min <- sub v "min_bitrate_kbps" ;;
    n_fps <- sub v "fps" ;;
    inr ({| clock_rate := y_int n_clock (clock_rate (fst c));
            payload_type := y_int n_payload (payload_type (fst c));
            bitrate_kbps := y_int n_bitrate (bitrate_kbps (fst c));
            max_bitrate_kbps := y_int n_max (max_bitrate_kbps (fst c));
            min_bitrate_kbps := y_int n_min (min_bitrate_kbps (fst c));
            fps := y_int n_fps (fps (fst c)) |},
         y_string n_codec (snd c))
  else inr c.

Definition read_webrtc (root : node) (c : WebRtcConfig * string)
  : load_error + (WebRtcConfig * string) :=
  w <- sub root "webrtc" ;;
  if y_defined w then
    n_stun <- sub w "stun_server" ;;
    n_turn <- sub w "turn_server" ;;
    n_user <- sub w "turn_username" ;;
    n_credential <- sub w "turn_credential" ;;
    n_peers <- sub w "max_peers" ;;
    vc <- read_video w (video (fst c), snd c) ;;
    inr ({| stun_server := y_string n_stun (stun_server (fst c));
            turn_server := y_string n_turn EmptyString;
            turn_username := y_string n_user EmptyString;
            turn_credential := y_string n_credential EmptyString;
            max_peers := y_int n_peers (max_peers (fst c));
            video := fst vc |},
         snd vc)
  else inr c.

Definition read_encoding (root : node) (c : EncodingConfig * string)
  : load_error + (EncodingConfig * string) :=
  e <- sub root "encoding" ;;
  if y_defined e then
    n_hw <- sub e "hw_encode" ;;
    n_passthrough <- sub e "passthrough" ;;
    n_preset <- sub e "preset" ;;
    n_idr <- sub e "idr_interval" ;;
    n_sps <- sub e "insert_sps_pps" ;;
    inr ({| hw_encode := y_bool n_hw (hw_encode (fst c));
            passthrough := y_bool n_passthrough (passthrough (fst c));
            idr_interval := y_int n_idr (idr_interval (fst c));
            insert_sps_pps := y_bool n_sps (insert_sps_pps (fst c)) |},
         y_string n_preset (snd c))
  else inr c.

Definition read_logging (root : node) (c : LoggingConfig) : load_error + LoggingConfig :=
  l <- sub root "logging" ;;
  if y_defined l then
    n_level <- sub l "level" ;;
    n_file <- sub l "file" ;;
    n_size <- sub l "max_file_size_mb" ;;
    n_files <- sub l "max_files" ;;
    inr {| level := y_string n_level (level c);
           file := y_string n_file EmptyString;
           max_file_size_mb := y_int n_size (max_file_size_mb c);
           max_files := y_int n_files (max_files c) |}
  else inr c.

(** [load_config] up to the environment overrides. *)
Definition read_yaml (root : node) : load_error + Loaded :=
  s <- read_server root (server defaults) ;;
  r <- read_rtsp root (rtsp (app defaults)) ;;
  w <- read_webrtc root (webrtc (app defaults), video_codec defaults) ;;
  e <- read_encoding root (encoding (app defaults), encoding_preset defaults) ;;
  l <- read_logging root (logging defaults) ;;
  inr {| server := s;
         app := {| rtsp := r; webrtc := fst w; encoding := fst e |};
         video_codec := snd w;
         encoding_preset := snd e;
         logging := l |}.

(** [static_cast<uint16_t>(n)]. *)
Definition to_uint16 (n : Z) : Z := n mod 65536.

(** The environment overrides, in the order of the source. *)
Definition apply_env (cfg : Loaded) : load_error + Loaded :=
  match env_int_or "SIGNALING_PORT" (signaling_port (server cfg)) with
  | inl err => inl err
  | inr port =>
      match env_int_or "VIDEO_BITRATE_KBPS" (bitrate_kbps (video (webrtc (app cfg)))) with
      | inl err => inl err
      | inr bitrate =>
          match env_int_or "VIDEO_MAX_BITRATE_KBPS"
                  (max_bitrate_kbps (video (webrtc (app cfg)))) with
          | inl err => inl err
          | inr max_bitrate =>
              let r := rtsp (app cfg) in
              let w := webrtc (app cfg) in
              let v := video w in
              inr {| server := {| signaling_port := to_uint16 port;
                                  http_port := http_port (server cfg);
                                  web_root := web_root (server cfg) |};
                     app := {| rtsp := {| url := env_or "RTSP_URL" (url r);
                                          transport := transport r;
                                          latency_ms := latency_ms r;
                                          reconnect_interval_ms := reconnect_interval_ms r;
                                          reconnect_max_attempts := reconnect_max_attempts r |};
                               webrtc :=
                                 {| stun_server := env_or "STUN_SERVER" (stun_server w);
                                    turn_server := env_or "TURN_SERVER" (turn_server w);
                                    turn_username := env_or "TURN_USERNAME" (turn_username w);
                                    turn_credential :=
                                      env_or "TURN_CREDENTIAL" (turn_credential w);
                                    max_peers := max_peers w;
                                    video := {| clock_rate := clock_rate v;
                                                payload_type := payload_type v;
                                                bitrate_kbps := bitrate;
                                                max_bitrate_kbps := max_bitrate;
                                                min_bitrate_kbps := min_bitrate_kbps v;
                                                fps := fps v |} |};
                               encoding := encoding (app cfg) |};
                     video_codec := video_codec cfg;
                     encoding_preset := encoding_preset cfg;
                     logging := {| level := env_or "LOG_LEVEL" (level (logging cfg));
                                   file := file (logging cfg);
                                   max_file_size_mb := max_file_size_mb (logging cfg);
                                   max_files := max_files (logging cfg) |} |}
          end
      end
  end.

(** [load_config(path)]; [root] is the document [YAML::LoadFile] returns,
    [None] when it throws. *)
Definition load_config (root : option node) : load_error + Loaded :=
  match root with
  | None => inl FailedToLoadConfig
  | Some doc => cfg <- read_yaml doc ;; apply_env cfg
  end.

End Load.

End Config.

(* ===================================================================== *)
(** ** peer_connection.cpp *)
(* ===================================================================== *)

Module PeerConnection.

(** [rtc::PeerConnection::State]. *)
Inductive State := New | Connecting | Connected | Disconnected | Failed | Closed.

Definition state_str (s : State) : string :=
  match s with
  | New => "new" | Connecting => "connecting" | Connected => "connected"
  | Disconnected => "disconnected" | Failed => "failed" | Closed => "closed"
  end.

Definition State_eqb (a b : State) : bool :=
  match a, b with
  | New, New | Connecting, Connecting | Connected, Connected
  | Disconnected, Disconnected | Failed, Failed | Closed, Closed => true
  | _, _ => false
  end.

Record Stats := {
  rtp_packets_sent : Z;     (* uint64_t *)
  bytes_sent : Z;           (* uint64_t *)
  state : string
}.

(** [rtc::Track], as far as this file looks at it. *)
Record Track := { isOpen : bool }.

Record t := {
  peer_id_ : string;
  ssrc_ : Z;                       (* uint32_t *)
  video_track_ : option Track;     (* shared_ptr, [None] = null *)
  rtp_timestamp : Z;               (* rtp_config_->timestamp, uint32_t *)
  needs_keyframe_ : bool;
  connected_ : bool;
  closed_ : bool;
  stats_ : Stats
}.

(** [std::atomic<uint32_t> PeerConnection::next_ssrc_{42}]. *)
Definition next_ssrc_init : Z := 42.

(** [next_ssrc_.fetch_add(1)]: the value read, and the value stored. *)
Definition fetch_add_1 (next_ssrc : Z) : Z * Z :=
  (next_ssrc, to_uint32 (next_ssrc + 1)).

(** What libdatachannel decides during [setup_connection()]: it throws, or
    it yields a track and the start value of the packetizer's timestamp. *)
Inductive SetupOutcome :=
| SetupThrows (what : string)
| SetupOk (start_timestamp : Z).

(** The constructor.  [ssrc_] is initialised in the member initialiser list,
    so the counter advances before [setup_connection()] runs, also when the
    latter throws.  Result: the object (or the exception text) and the new
    value of the process-wide counter. *)
Definition new (peer_id : string) (env : SetupOutcome) (next_ssrc : Z)
  : (string + t) * Z :=
  let '(ssrc, next') := fetch_add_1 next_ssrc in
  match env with
  | SetupThrows what => (inl what, next')
  | SetupOk ts0 =>
      (inr {| peer_id_ := peer_id; ssrc_ := ssrc;
              video_track_ := Some {| isOpen := false |};
              rtp_timestamp := to_uint32 ts0;
              needs_keyframe_ := true; connected_ := false; closed_ := false;
              stats_ := {| rtp_packets_sent := 0; bytes_sent := 0;
                           state := "new" |} |}, next')
  end.

Definition set_stats (p : t) (s : Stats) : t :=
  {| peer_id_ := peer_id_ p; ssrc_ := ssrc_ p; video_track_ := video_track_ p;
     rtp_timestamp := rtp_timestamp p; needs_keyframe_ := needs_keyframe_ p;
     connected_ := connected_ p; closed_ := closed_ p; stats_ := s |}.

Definition set_rtp_timestamp (p : t) (ts : Z) : t :=
  {| peer_id_ := peer_id_ p; ssrc_ := ssrc_ p; video_track_ := video_track_ p;
     rtp_timestamp := ts; needs_keyframe_ := needs_keyframe_ p;
     connected_ := connected_ p; closed_ := closed_ p; stats_ := stats_ p |}.

Definition set_needs_keyframe (p : t) (b : bool) : t :=
  {| peer_id_ := peer_id_ p; ssrc_ := ssrc_ p; video_track_ := video_track_ p;
     rtp_timestamp := rtp_timestamp p; needs_keyframe_ := b;
     connected_ := connected_ p; closed_ := closed_ p; stats_ := stats_ p |}.

(** The [onStateChange] callback installed by [setup_connection()]. *)
Definition on_state_change (s : State) (p : t) : t :=
  {| peer_id_ := peer_id_ p; ssrc_ := ssrc_ p; video_track_ := video_track_ p;
     rtp_timestamp := rtp_timestamp p; needs_keyframe_ := needs_keyframe_ p;
     connected_ := State_eqb s Connected;
     closed_ := if State_eqb s Closed || State_eqb s Failed then true
                else closed_ p;
     stats_ := {| rtp_packets_sent := rtp_packets_sent (stats_ p);
                  bytes_sent := bytes_sent (stats_ p);
                  state := state_str s |} |}.

(** The track opens or closes (decided by the library); the [onOpen]
    callback re-arms [needs_keyframe_]. *)
Definition on_track_open (p : t) : t :=
  {| peer_id_ := peer_id_ p; ssrc_ := ssrc_ p;
     video_track_ := Some {| isOpen := true |};
     rtp_timestamp := rtp_timestamp p; needs_keyframe_ := true;
     connected_ := connected_ p; closed_ := closed_ p; stats_ := stats_ p |}.

Definition on_track_closed (p : t) : t :=
  {| peer_id_ := peer_id_ p; ssrc_ := ssrc_ p;
     video_track_ := Some {| isOpen := false |};
     rtp_timestamp := rtp_timestamp p; needs_keyframe_ := needs_keyframe_ p;
     connected_ := connected_ p; closed_ := closed_ p; stats_ := stats_ p |}.

Definition handle_answer (p : t) : t := set_needs_keyframe p true.

Definition keyframe_sent (p : t) : t := set_needs_keyframe p false.

Definition is_connected (p : t) : bool := connected_ p.
Definition is_closed (p : t) : bool := closed_ p.
Definition get_stats (p : t) : Stats := stats_ p.

(** Modelled from the spec: [rtc::H264RtpPacketizer::defaultClockRate], a
    [uint32_t] constant of libdatachannel that is not part of the sources;
    the spec gives the H.264 RTP clock as 90 kHz. *)
Definition defaultClockRate : Z := 90000.

(** [static_cast<uint32_t>((timestamp_us * defaultClockRate) / 1'000'000)]
    with [timestamp_us : uint64_t]: the product is taken modulo 2^64, the
    division truncates, the cast keeps the low 32 bits. *)
Definition rtp_timestamp_of (timestamp_us : Z) : Z :=
  to_uint32 (to_uint64 (timestamp_us * defaultClockRate) / 1000000).

Definition track_open (p : t) : bool :=
  match video_track_ p with
  | Some tr => isOpen tr
  | None => false
  end.

(** [send_h264_nal(data, size, timestamp_us)].  [send_throws] says whether
    [video_track_->send] throws a [std::exception]; the handler only logs. *)
Definition send_h264_nal (size timestamp_us : Z) (send_throws : bool) (p : t) : t :=
  if negb (connected_ p) || negb (track_open p) then p
  else
    let p1 := set_rtp_timestamp p (rtp_timestamp_of timestamp_us) in
    if send_throws then p1
    else set_stats p1
           {| rtp_packets_sent := to_uint64 (rtp_packets_sent (stats_ p1) + 1);
              bytes_sent := to_uint64 (bytes_sent (stats_ p1) + size);
              state := state (stats_ p1) |}.

End PeerConnection.

(* ===================================================================== *)
(** ** webrtc_server.cpp *)
(* ===================================================================== *)

Module WebRtcServer.

Definition hex_digit (d : Z) : ascii :=
  match d with
  | 0 => "0" | 1 => "1" | 2 => "2" | 3 => "3" | 4 => "4" | 5 => "5"
  | 6 => "6" | 7 => "7" | 8 => "8" | 9 => "9" | 10 => "a" | 11 => "b"
  | 12 => "c" | 13 => "d" | 14 => "e" | _ => "f"
  end%char.

(** [std::hex << std::setfill('0') << std::setw(8)] applied to a 32-bit value. *)
Definition hex8 (r : Z) : string :=
  string_of_list_ascii
    (map (fun k => hex_digit ((r / 16 ^ k) mod 16)) [7; 6; 5; 4; 3; 2; 1; 0]).

(** [generate_peer_id()]; [r] is the draw [dist(gen)] of the random engine. *)
Definition generate_peer_id (r : Z) : string :=
  String.append "peer-" (hex8 (to_uint32 r)).

Record t := {
  config_ : AppConfig;
  peers_ : gmap string PeerConnection.t;
  running_ : bool
}.

Definition WebRtcServer (config : AppConfig) : t :=
  {| config_ := config; peers_ := ∅; running_ := false |}.

Definition set_peers (s : t) (m : gmap string PeerConnection.t) : t :=
  {| config_ := config_ s; peers_ := m; running_ := running_ s |}.

(** [create_peer(signaling_cb)].  Arguments: the random draw used by
    [generate_peer_id], what the constructor of the peer meets, the server,
    and the process-wide SSRC counter.  Result: the returned string, the
    server and the counter afterwards. *)
Definition create_peer (rnd : Z) (env : PeerConnection.SetupOutcome)
    (s : t) (next_ssrc : Z) : string * t * Z :=
  if to_int (Z.of_nat (size (peers_ s))) >=? max_peers (webrtc (config_ s)) then
    (EmptyString, s, next_ssrc)
  else
    let peer_id := generate_peer_id rnd in
    match PeerConnection.new peer_id env next_ssrc with
    | (inr peer, next') => (peer_id, set_peers s (<[peer_id := peer]> (peers_ s)), next')
    | (inl _, next') => (EmptyString, s, next')
    end.

(** [start_offer], [handle_answer], [handle_candidate]: forwarded to the named
    peer, unknown ids are logged and ignored.  Only [handle_answer] changes a
    field this file keeps ([needs_keyframe_]). *)
Definition handle_answer (peer_id : string) (s : t) : t :=
  match peers_ s !! peer_id with
  | Some p => set_peers s (<[peer_id := PeerConnection.handle_answer p]> (peers_ s))
  | None => s
  end.

Definition remove_peer (peer_id : string) (s : t) : t :=
  match peers_ s !! peer_id with
  | Some _ => set_peers s (delete peer_id (peers_ s))
  | None => s
  end.

(** One round of the loop of [broadcast_nal]: the ids on which
    [send_h264_nal] has been called so far, and the peers. *)
Definition broadcast_step (size timestamp_us : Z) (throws : string -> bool)
    (acc : list string * gmap string PeerConnection.t)
    (kv : string * PeerConnection.t) : list string * gmap string PeerConnection.t :=
  if PeerConnection.is_connected (snd kv) then
    (fst acc ++ [fst kv],
     <[fst kv := PeerConnection.send_h264_nal size timestamp_us (throws (fst kv)) (snd kv)]>
       (snd acc))
  else acc.

(** [broadcast_nal(data, size, timestamp_us)], under the registry lock.
    [throws id] says whether the track of peer [id] throws on this send.
    Result: the ids on which [send_h264_nal] was called, in the order of the
    iteration, and the server afterwards. *)
Definition broadcast_nal (size timestamp_us : Z) (throws : string -> bool) (s : t)
  : list string * t :=
  let r := foldl (broadcast_step size timestamp_us throws) ([], peers_ s)
                 (map_to_list (peers_ s)) in
  (fst r, set_peers s (snd r)).

Definition start (s : t) : t :=
  {| config_ := config_ s; peers_ := peers_ s; running_ := true |}.

Definition stop (s : t) : t :=
  {| config_ := config_ s; peers_ := ∅; running_ := false |}.

Definition peer_count (s : t) : nat := size (peers_ s).

(** The critical section of one round of [cleanup_loop]. *)
Definition cleanup_pass (s : t) : t :=
  set_peers s (filter (fun kv => PeerConnection.is_closed (snd kv) = false) (peers_ s)).

(** A callback of libdatachannel on one peer of the map. *)
Inductive peer_event :=
| StateChange (st : PeerConnection.State)
| TrackOpen
| TrackClosed.

Definition apply_event (e : peer_event) (p : PeerConnection.t) : PeerConnection.t :=
  match e with
  | StateChange st => PeerConnection.on_state_change st p
  | TrackOpen => PeerConnection.on_track_open p
  | TrackClosed => PeerConnection.on_track_closed p
  end.

Definition deliver_event (peer_id : string) (e : peer_event) (s : t) : t :=
  set_peers s (alter (apply_event e) peer_id (peers_ s)).

(** [ServerStats]. *)
Record ServerStats := {
  total_peers : Z;            (* size_t *)
  connected_peers : Z;        (* size_t *)
  total_bytes_sent : Z        (* uint64_t *)
}.

(** One round of the loop of [get_stats()]. *)
Definition get_stats_step (acc : ServerStats) (kv : string * PeerConnection.t) : ServerStats :=
  {| total_peers := total_peers acc;
     connected_peers :=
       if PeerConnection.is_connected (snd kv) then connected_peers acc + 1
       else connected_peers acc;
     total_bytes_sent :=
       to_uint64 (total_bytes_sent acc
                  + PeerConnection.bytes_sent (PeerConnection.get_stats (snd kv))) |}.

(** [get_stats()], under the registry lock. *)
Definition get_stats (s : t) : ServerStats :=
  foldl get_stats_step
    {| total_peers := Z.of_nat (size (peers_ s)); connected_peers := 0;
       total_bytes_sent := 0 |}
    (map_to_list (peers_ s)).

(** The process as the registry sees it: the server and the static counter
    [PeerConnection::next_ssrc_]. *)
Record world := { srv : t; next_ssrc_ : Z }.

Definition init (config : AppConfig) : world :=
  {| srv := WebRtcServer config; next_ssrc_ := PeerConnection.next_ssrc_init |}.

(** Everything that can happen to the registry, one critical section each. *)
Inductive op :=
| CreatePeer (rnd : Z) (env : PeerConnection.SetupOutcome)
| HandleAnswer (peer_id : string)
| RemovePeer (peer_id : string)
| BroadcastNal (size timestamp_us : Z) (throws : string -> bool)
| CleanupPass
| Start
| Stop
| PeerEvent (peer_id : string) (e : peer_event).

Definition with_srv (w : world) (s : t) : world :=
  {| srv := s; next_ssrc_ := next_ssrc_ w |}.

Definition run_op (w : world) (o : op) : world :=
  match o with
  | CreatePeer rnd env =>
      let '(_, s', n') := create_peer rnd env (srv w) (next_ssrc_ w) in
      {| srv := s'; next_ssrc_ := n' |}
  | HandleAnswer id => with_srv w (handle_answer id (srv w))
  | RemovePeer id => with_srv w (remove_peer id (srv w))
  | BroadcastNal size ts throws => with_srv w (snd (broadcast_nal size ts throws (srv w)))
  | CleanupPass => with_srv w (cleanup_pass (srv w))
  | Start => with_srv w (start (srv w))
  | Stop => with_srv w (stop (srv w))
  | PeerEvent id e => with_srv w (deliver_event id e (srv w))
  end.

Definition run (ops : list op) (w : world) : world := foldl run_op w ops.

(** Number of [PeerConnection] constructions in a run. *)
Definition constructs (w : world) (o : op) : bool :=
  match o with
  | CreatePeer _ _ =>
      negb (to_int (Z.of_nat (size (peers_ (srv w)))) >=? max_peers (webrtc (config_ (srv w))))
  | _ => false
  end.

Fixpoint constructions (ops : list op) (w : world) : nat :=
  match ops with
  | [] => 0%nat
  | o :: ops' =>
      ((if constructs w o then 1 else 0) + constructions ops' (run_op w o))%nat
  end.

(** Create a peer and remove it again: a viewer that connects and leaves. *)
Definition churn (rnd : Z) (w : world) : world :=
  run_op (run_op w (CreatePeer rnd (PeerConnection.SetupOk 0)))
         (RemovePeer (generate_peer_id rnd)).

End WebRtcServer.

(* ===================================================================== *)
(** ** rtsp_pipeline.cpp *)
(* ===================================================================== *)

Module RtspPipeline.

(** The two preprocessor switches of the build. *)
Record BuildFlags := { ENABLE_TEST_MODE : bool; JETSON_PLATFORM : bool }.

(** An element of the GStreamer graph: its factory, its [name=] if it has
    one, and the integer properties the launch line gives it. *)
Record GstElement := {
  factory : string;
  elem_name : option string;
  props : list (string * Z)
}.

Definition element (f : string) : GstElement :=
  {| factory := f; elem_name := None; props := [] |}.

Fixpoint get_prop (key : string) (ps : list (string * Z)) : option Z :=
  match ps with
  | [] => None
  | (k, v) :: ps' => if String.eqb k key then Some v else get_prop key ps'
  end.

(** [g_object_set(obj, key, v, nullptr)] on an integer property. *)
Fixpoint set_prop (key : string) (v : Z) (ps : list (string * Z)) : list (string * Z) :=
  match ps with
  | [] => [(key, v)]
  | (k, v0) :: ps' =>
      if String.eqb k key then (k, v) :: ps' else (k, v0) :: set_prop key v ps'
  end.

Definition g_object_set (key : string) (v : Z) (e : GstElement) : GstElement :=
  {| factory := factory e; elem_name := elem_name e; props := set_prop key v (props e) |}.

(** [gst_bin_get_by_name]: the position of the element in the graph stands
    for the pointer to it. *)
Fixpoint gst_bin_get_by_name (g : list GstElement) (nm : string) : option nat :=
  match g with
  | [] => None
  | e :: g' =>
      match elem_name e with
      | Some n => if String.eqb n nm then Some 0%nat
                  else option_map S (gst_bin_get_by_name g' nm)
      | None => option_map S (gst_bin_get_by_name g' nm)
      end
  end.

Inductive Mode := TestSource | Passthrough | ReencodeSW | ReencodeHW.

Definition string_empty (s : string) : bool :=
  match s with EmptyString => true | _ => false end.

(** [std::to_string(k * 1000)] on [int]: the product in [int] arithmetic
    (an overflow is undefined in C++; it is written here as wrap-around, and
    no theorem below depends on an overflowing product). *)
Definition times_1000 (k : Z) : Z := to_int (k * 1000).

Record Stats := {
  frames_received : Z;
  bytes_received : Z;
  reconnect_count : Z;
  connected : bool
}.

(** Where the worker thread stands in [pipeline_thread]. *)
Inductive pc :=
| LoopHead                 (* the test of the outer [while] *)
| Building                 (* inside [build_pipeline()] *)
| SettingPlaying           (* inside [gst_element_set_state(.., PLAYING)] *)
| BusLoop                  (* the test of the inner [while] *)
| TearDown                 (* after the inner loop *)
| Reconnect                (* entering [attempt_reconnect()] *)
| Backoff (elapsed : Z)    (* the test of the sleep loop *)
| Done.                    (* the thread function has returned *)

Record t := {
  config_ : AppConfig;
  pipeline_ : option (list GstElement);
  appsink_ : option nat;
  encoder_ : option nat;
  is_hw_encode_ : bool;
  thread_ : option pc;          (* [Some]: joinable, with the worker's position *)
  running_ : bool;
  stop_requested_ : bool;
  stats_ : Stats
}.

Definition RtspPipeline (config : AppConfig) : t :=
  {| config_ := config; pipeline_ := None; appsink_ := None; encoder_ := None;
     is_hw_encode_ := false; thread_ := None; running_ := false;
     stop_requested_ := false;
     stats_ := {| frames_received := 0; bytes_received := 0;
                  reconnect_count := 0; connected := false |} |}.

(** What GStreamer and the source decide, asked by the worker at each step. *)
Inductive ParseOutcome :=
| ParseOk
| ParseError (partial_graph : bool).   (* [error] set; the graph may be non-null *)

Inductive GstMessageType := MsgError | MsgWarning | MsgEos | MsgStateChanged | MsgOther.

Record input := {
  parse : ParseOutcome;             (* [gst_parse_launch] *)
  play_fails : bool;                (* [GST_STATE_CHANGE_FAILURE] *)
  bus : option GstMessageType       (* [gst_bus_timed_pop], [None] on timeout *)
}.

Section Build.

Variable build : BuildFlags.

Definition use_test_source (c : AppConfig) : bool :=
  ENABLE_TEST_MODE build && string_empty (url (rtsp c)).

Definition mode (c : AppConfig) : Mode :=
  if use_test_source c then TestSource
  else if passthrough (encoding c) then Passthrough
  else if JETSON_PLATFORM build && hw_encode (encoding c) then ReencodeHW
  else ReencodeSW.

Definition nvv4l2h264enc_test (c : AppConfig) : GstElement :=
  {| factory := "nvv4l2h264enc"; elem_name := None;
     props := [("bitrate", times_1000 (bitrate_kbps (video (webrtc c))));
               ("idrinterval", idr_interval (encoding c))] |}.

Definition x264enc_test (c : AppConfig) : GstElement :=
  {| factory := "x264enc"; elem_name := None;
     props := [("bitrate", bitrate_kbps (video (webrtc c)));
               ("key-int-max", idr_interval (encoding c)); ("bframes", 0)] |}.

Definition nvv4l2h264enc (c : AppConfig) : GstElement :=
  {| factory := "nvv4l2h264enc"; elem_name := Some "enc";
     props := [("bitrate", times_1000 (bitrate_kbps (video (webrtc c))));
               ("peak-bitrate", times_1000 (max_bitrate_kbps (video (webrtc c))));
               ("idrinterval", idr_interval (encoding c))] |}.

Definition x264enc (c : AppConfig) : GstElement :=
  {| factory := "x264enc"; elem_name := Some "enc";
     props := [("bitrate", bitrate_kbps (video (webrtc c)));
               ("vbv-buf-capacity", max_bitrate_kbps (video (webrtc c)));
               ("key-int-max", idr_interval (encoding c)); ("bframes", 0)] |}.

Definition appsink : GstElement :=
  {| factory := "appsink"; elem_name := Some "sink"; props := [("max-buffers", 5)] |}.

Definition rtsp_front (c : AppConfig) : list GstElement :=
  [ {| factory := "rtspsrc"; elem_name := None;
       props := [("latency", latency_ms (rtsp c))] |};
    element "rtph264depay"; element "h264parse" ].

(** The launch line assembled by [build_pipeline()], element by element. *)
Definition pipeline_desc (c : AppConfig) : list GstElement :=
  if use_test_source c then
    element "videotestsrc" ::
    (if JETSON_PLATFORM build && hw_encode (encoding c)
     then [element "nvvidconv"; nvv4l2h264enc_test c]
     else [x264enc_test c])
    ++ [element "h264parse"; appsink]
  else if passthrough (encoding c) then
    rtsp_front c ++ [appsink]
  else
    rtsp_front c ++
    (if JETSON_PLATFORM build then
       if hw_encode (encoding c)
       then [element "nvv4l2decoder"; nvv4l2h264enc c]
       else [element "nvv4l2decoder"; element "nvvidconv"; x264enc c]
     else [element "avdec_h264"; element "videoconvert"; x264enc c])
    ++ [element "h264parse"; appsink].

(** The value [build_pipeline()] leaves in [is_hw_encode_]: assigned only on
    the re-encode branch, while the launch line is assembled. *)
Definition is_hw_encode_after_desc (s : t) : bool :=
  let c := config_ s in
  if use_test_source c then is_hw_encode_ s
  else if passthrough (encoding c) then is_hw_encode_ s
  else JETSON_PLATFORM build && hw_encode (encoding c).

(** [build_pipeline()]: [inl] when it throws, with the members as they are
    at the throw. *)
Definition build_pipeline (o : ParseOutcome) (s : t) : t + t :=
  let desc := pipeline_desc (config_ s) in
  let hw := is_hw_encode_after_desc s in
  match o with
  | ParseError partial_graph =>
      inl {| config_ := config_ s;
             pipeline_ := if partial_graph then Some desc else None;
             appsink_ := appsink_ s; encoder_ := encoder_ s;
             is_hw_encode_ := hw; thread_ := thread_ s; running_ := running_ s;
             stop_requested_ := stop_requested_ s; stats_ := stats_ s |}
  | ParseOk =>
      match gst_bin_get_by_name desc "sink" with
      | None =>
          inl {| config_ := config_ s; pipeline_ := Some desc;
                 appsink_ := None; encoder_ := encoder_ s;
                 is_hw_encode_ := hw; thread_ := thread_ s; running_ := running_ s;
                 stop_requested_ := stop_requested_ s; stats_ := stats_ s |}
      | Some sink =>
          inr {| config_ := config_ s; pipeline_ := Some desc;
                 appsink_ := Some sink;
                 encoder_ := gst_bin_get_by_name desc "enc";
                 is_hw_encode_ := hw; thread_ := thread_ s; running_ := running_ s;
                 stop_requested_ := stop_requested_ s; stats_ := stats_ s |}
      end
  end.

End Build.

Definition set_thread (s : t) (th : option pc) : t :=
  {| config_ := config_ s; pipeline_ := pipeline_ s; appsink_ := appsink_ s;
     encoder_ := encoder_ s; is_hw_encode_ := is_hw_encode_ s; thread_ := th;
     running_ := running_ s; stop_requested_ := stop_requested_ s;
     stats_ := stats_ s |}.

Definition set_running (s : t) (b : bool) : t :=
  {| config_ := config_ s; pipeline_ := pipeline_ s; appsink_ := appsink_ s;
     encoder_ := encoder_ s; is_hw_encode_ := is_hw_encode_ s; thread_ := thread_ s;
     running_ := b; stop_requested_ := stop_requested_ s; stats_ := stats_ s |}.

Definition set_stop_requested (s : t) (b : bool) : t :=
  {| config_ := config_ s; pipeline_ := pipeline_ s; appsink_ := appsink_ s;
     encoder_ := encoder_ s; is_hw_encode_ := is_hw_encode_ s; thread_ := thread_ s;
     running_ := running_ s; stop_requested_ := b; stats_ := stats_ s |}.

Definition set_stats (s : t) (st : Stats) : t :=
  {| config_ := config_ s; pipeline_ := pipeline_ s; appsink_ := appsink_ s;
     encoder_ := encoder_ s; is_hw_encode_ := is_hw_encode_ s; thread_ := thread_ s;
     running_ := running_ s; stop_requested_ := stop_requested_ s; stats_ := st |}.

Definition set_pipeline (s : t) (g : option (list GstElement)) : t :=
  {| config_ := config_ s; pipeline_ := g; appsink_ := appsink_ s;
     encoder_ := encoder_ s; is_hw_encode_ := is_hw_encode_ s; thread_ := thread_ s;
     running_ := running_ s; stop_requested_ := stop_requested_ s;
     stats_ := stats_ s |}.

(** [gst_object_unref(pipeline_); pipeline_ = nullptr; appsink_ = nullptr;]
    as the worker does it: [encoder_] keeps its value. *)
Definition drop_pipeline (s : t) : t :=
  {| config_ := config_ s; pipeline_ := None; appsink_ := None;
     encoder_ := encoder_ s; is_hw_encode_ := is_hw_encode_ s; thread_ := thread_ s;
     running_ := running_ s; stop_requested_ := stop_requested_ s;
     stats_ := stats_ s |}.

Definition set_connected (s : t) (b : bool) : t :=
  set_stats s {| frames_received := frames_received (stats_ s);
                 bytes_received := bytes_received (stats_ s);
                 reconnect_count := reconnect_count (stats_ s);
                 connected := b |}.

Definition bump_reconnect_count (s : t) : t :=
  set_stats s {| frames_received := frames_received (stats_ s);
                 bytes_received := bytes_received (stats_ s);
                 reconnect_count := to_uint64 (reconnect_count (stats_ s) + 1);
                 connected := connected (stats_ s) |}.

(** The stats block of [on_new_sample] for one mapped buffer of [size] bytes. *)
Definition on_new_sample (size : Z) (s : t) : t :=
  set_stats s {| frames_received := to_uint64 (frames_received (stats_ s) + 1);
                 bytes_received := to_uint64 (bytes_received (stats_ s) + size);
                 reconnect_count := reconnect_count (stats_ s);
                 connected := true |}.

Definition is_fault (m : GstMessageType) : bool :=
  match m with MsgError | MsgEos => true | _ => false end.

(** One step of the worker thread: from the position stored in [thread_] to
    the next one.  [pipeline_thread()] and [attempt_reconnect()] are cut at
    their loop tests and at their blocking calls. *)
Definition worker_step (build : BuildFlags) (i : input) (s : t) : t :=
  match thread_ s with
  | None | Some Done => s
  | Some LoopHead =>
      if stop_requested_ s then set_thread s (Some Done)
      else set_thread s (Some Building)
  | Some Building =>
      match build_pipeline build (parse i) s with
      | inl s' => set_thread s' (Some Reconnect)          (* catch; attempt_reconnect *)
      | inr s' => set_thread s' (Some SettingPlaying)
      end
  | Some SettingPlaying =>
      if play_fails i then set_thread (drop_pipeline s) (Some Reconnect)
      else set_thread (set_running s true) (Some BusLoop)
  | Some BusLoop =>
      if stop_requested_ s then set_thread s (Some TearDown)
      else match bus i with
           | Some m => if is_fault m then set_thread s (Some TearDown)
                       else set_thread s (Some BusLoop)
           | None => set_thread s (Some BusLoop)
           end
  | Some TearDown =>
      let s' := drop_pipeline (set_connected (set_running s false) false) in
      if stop_requested_ s then set_thread s' (Some LoopHead)
      else set_thread s' (Some Reconnect)
  | Some Reconnect =>
      if stop_requested_ s then set_thread s (Some LoopHead)
      else set_thread (bump_reconnect_count s) (Some (Backoff 0))
  | Some (Backoff elapsed) =>
      if (elapsed <? reconnect_interval_ms (rtsp (config_ s)))
         && negb (stop_requested_ s)
      then set_thread s (Some (Backoff (elapsed + 100)))
      else set_thread s (Some LoopHead)
  end.

(** The worker runs through a list of steps. *)
Definition worker_run (build : BuildFlags) (inputs : list input) (s : t) : t :=
  foldl (fun s i => worker_step build i s) s inputs.

(** [start()].  Assigning to a [std::thread] that is still joinable calls
    [std::terminate]: [None]. *)
Definition start (s : t) : option t :=
  if running_ s then Some s
  else match thread_ s with
       | Some _ => None
       | None => Some (set_thread (set_stop_requested s false) (Some LoopHead))
       end.

(** [thread_.join()] when joinable: the worker takes its remaining steps;
    [env k] is what it meets at its [k]-th step from here. *)
Definition join_steps : nat := 5.

Fixpoint worker_finish (build : BuildFlags) (env : nat -> input) (k n : nat) (s : t) : t :=
  match n with
  | O => s
  | S n' => worker_finish build env (S k) n' (worker_step build (env k) s)
  end.

Definition join (build : BuildFlags) (env : nat -> input) (s : t) : t :=
  match thread_ s with
  | Some _ => set_thread (worker_finish build env 0 join_steps s) None
  | None => s
  end.

(** [stop()]. *)
Definition stop (build : BuildFlags) (env : nat -> input) (s : t) : t :=
  let s1 := set_running (set_stop_requested s true) false in
  let s2 := join build env s1 in
  match pipeline_ s2 with
  | Some _ =>
      {| config_ := config_ s2; pipeline_ := None; appsink_ := None;
         encoder_ := None; is_hw_encode_ := is_hw_encode_ s2;
         thread_ := thread_ s2; running_ := running_ s2;
         stop_requested_ := stop_requested_ s2; stats_ := stats_ s2 |}
  | None => s2
  end.

Definition is_running (s : t) : bool := running_ s.

(** [get_stats()]: a copy made under the stats lock. *)
Definition get_stats (s : t) : Stats := stats_ s.

(** The value the encoder of the graph currently has in its [bitrate]
    property, looked up through [encoder_]. *)
Definition encoder_bitrate (s : t) : option Z :=
  match encoder_ s, pipeline_ s with
  | Some e, Some g =>
      match g !! e with
      | Some el => get_prop "bitrate" (props el)
      | None => None
      end
  | _, _ => None
  end.

(** [set_bitrate(bitrate_kbps)]. *)
Definition set_bitrate (bitrate_kbps : Z) (s : t) : t :=
  match encoder_ s with
  | None => s
  | Some e =>
      if negb (running_ s) then s
      else
        let v := video (webrtc (config_ s)) in
        let clamped := Z.max (min_bitrate_kbps v) (Z.min bitrate_kbps (max_bitrate_kbps v)) in
        let value := if is_hw_encode_ s then to_uint32 (times_1000 clamped)
                     else to_uint32 clamped in
        set_pipeline s
          (option_map (alter (g_object_set "bitrate" value) e) (pipeline_ s))
  end.

End RtspPipeline.

(* ===================================================================== *)
(** ** signaling_server.cpp *)
(* ===================================================================== *)

Module SignalingServer.

(** A parsed [nlohmann::json] value. *)
#[local] Unset Elimination Schemes.
Inductive json :=
| JNull
| JBool (b : bool)
| JNum (n : Z)
| JStr (s : string)
| JArr (items : list json)
| JObj (fields : list (string * json)).
#[local] Set Elimination Schemes.

Fixpoint find_key (key : string) (fields : list (string * json)) : option json :=
  match fields with
  | [] => None
  | (k, v) :: fields' => if String.eqb k key then Some v else find_key key fields'
  end.

(** [j.value(key, default)] with a string default: [None] stands for the
    [json::type_error] thrown when [j] is not an object or when the member is
    there and is not a string. *)
Definition value_string (j : json) (key default : string) : option string :=
  match j with
  | JObj fields =>
      match find_key key fields with
      | None => Some default
      | Some (JStr s) => Some s
      | Some _ => None
      end
  | _ => None
  end.

(** [j.value(key, json::object())]. *)
Definition value_json (j : json) (key : string) : option json :=
  match j with
  | JObj fields =>
      match find_key key fields with
      | None => Some (JObj [])
      | Some v => Some v
      end
  | _ => None
  end.

(** What the endpoint does to its collaborators.  [InvokeBitrateCb] is a call
    of the registered [bitrate_cb_]. *)
Inductive action :=
| HandleAnswer (peer_id sdp : string)
| HandleCandidate (peer_id candidate mid : string)
| StartOffer (peer_id : string)
| WsSend (msg : json)
| WsClose
| InvokeBitrateCb (kbps : Z)
| LogDebugUnknownType (type : string)
| LogWarnInvalidJson
| LogWarnRejected.

(** The [try] block of [on_client_message] after a successful parse; [None]
    when a [json::exception] is thrown inside it. *)
Definition dispatch (peer_id : string) (msg : json) : option (list action) :=
  match value_string msg "type" EmptyString with
  | None => None
  | Some type =>
      if String.eqb type "answer" then
        match value_string msg "sdp" EmptyString with
        | None => None
        | Some sdp =>
            if RtspPipeline.string_empty sdp then Some []
            else Some [HandleAnswer peer_id sdp]
        end
      else if String.eqb type "candidate" then
        match value_json msg "data" with
        | None => None
        | Some data =>
            match value_string data "candidate" EmptyString with
            | None => None
            | Some candidate =>
                match value_string data "sdpMid" "0" with
                | None => None
                | Some mid =>
                    if RtspPipeline.string_empty candidate then Some []
                    else Some [HandleCandidate peer_id candidate mid]
                end
            end
        end
      else if String.eqb type "ping" then
        Some [WsSend (JObj [("type", JStr "pong")])]
      else
        Some [LogDebugUnknownType type]
  end.

(** [on_client_message(peer_id, ws, message)]; [parsed] is the result of
    [json::parse(message)], [None] when it throws. *)
Definition on_client_message (peer_id : string) (parsed : option json) : list action :=
  match parsed with
  | None => [LogWarnInvalidJson]
  | Some msg =>
      match dispatch peer_id msg with
      | None => [LogWarnInvalidJson]
      | Some acts => acts
      end
  end.

Definition reject_message : json :=
  JObj [("type", JStr "error"); ("message", JStr "Server full, max peers reached")].

Definition ice_servers (c : WebRtcConfig) : list json :=
  (if RtspPipeline.string_empty (stun_server c) then []
   else [JObj [("urls", JStr (stun_server c))]])
  ++
  (if RtspPipeline.string_empty (turn_server c) then []
   else [JObj [("urls", JStr (turn_server c));
               ("username", JStr (turn_username c));
               ("credential", JStr (turn_credential c))]]).

Definition welcome_message (c : WebRtcConfig) (peer_id : string) : json :=
  JObj [("type", JStr "welcome"); ("peerId", JStr peer_id);
        ("iceServers", JArr (ice_servers c))].

(** [on_client_connected(ws)]: the calls made on the socket and on the
    registry, and the registry and SSRC counter afterwards.  [send_throws]
    tells whether [ws->send] throws on this socket; [WsSend] and [WsClose]
    record that the call is made, whether or not it throws.  On the refusal
    branch [send] and [close] stand in one [try] with [catch (...)]: a
    throwing [send] skips the [close].  On the accept branch the welcome has
    a [try] of its own, whose handler only logs, and the offer is started
    either way. *)
Definition on_client_connected (rnd : Z) (env : PeerConnection.SetupOutcome)
    (send_throws : bool) (w : WebRtcServer.world) : list action * WebRtcServer.world :=
  let '(peer_id, s', n') :=
    WebRtcServer.create_peer rnd env (WebRtcServer.srv w) (WebRtcServer.next_ssrc_ w) in
  let w' := {| WebRtcServer.srv := s'; WebRtcServer.next_ssrc_ := n' |} in
  if RtspPipeline.string_empty peer_id then
    (LogWarnRejected :: WsSend reject_message ::
       (if send_throws then [] else [WsClose]), w')
  else
    ([WsSend (welcome_message (webrtc (WebRtcServer.config_ s')) peer_id);
      StartOffer peer_id], w').

End SignalingServer.

(* ===================================================================== *)
(** ** http_server.cpp *)
(* ===================================================================== *)

Module HttpServer.

(** [std::string::substr(pos, count)]: [None] is the [std::out_of_range]
    thrown when [pos > size()]; [count = None] stands for a count that
    reaches the end ([npos], or [npos - pos]). *)
Definition substr (pos : nat) (count : option nat) (s : string) : option string :=
  if (String.length s <? pos)%nat then None
  else Some (String.substring pos
               (match count with Some n => n | None => String.length s - pos end) s).

(** [std::string(buf)] for a character buffer: the bytes before the first
    NUL. *)
Fixpoint c_str (buf : string) : string :=
  match buf with
  | EmptyString => EmptyString
  | String c buf' => if Ascii.eqb c Ascii.zero then EmptyString else String c (c_str buf')
  end.

Definition crlf : string := String "013" (String "010" EmptyString).

(** The static table [mime_types_]. *)
Definition mime_types_ : list (string * string) :=
  [(".html", "text/html"); (".css", "text/css"); (".js", "application/javascript");
   (".json", "application/json"); (".png", "image/png"); (".jpg", "image/jpeg");
   (".jpeg", "image/jpeg"); (".gif", "image/gif"); (".svg", "image/svg+xml");
   (".ico", "image/x-icon"); (".woff", "font/woff"); (".woff2", "font/woff2");
   (".ttf", "font/ttf")]%string.

Fixpoint find_mime (ext : string) (table : list (string * string)) : option string :=
  match table with
  | [] => None
  | (e, m) :: table' => if String.eqb e ext then Some m else find_mime ext table'
  end.

(** The part of [s] after its last [c], if [c] occurs. *)
Fixpoint after_last (c : ascii) (s : string) : option string :=
  match s with
  | EmptyString => None
  | String a s' =>
      match after_last c s' with
      | Some r => Some r
      | None => if Ascii.eqb a c then Some s' else None
      end
  end.

(** [fs::path::filename()] of a POSIX path. *)
Definition filename (path : string) : string :=
  match after_last "/" path with
  | Some f => f
  | None => path
  end.

(** [fs::path::extension()]: from the rightmost period of the file name on,
    where a period that is the first character of the file name does not
    count, and the names [.] and [..] have none. *)
Definition extension (path : string) : string :=
  let f := filename path in
  if String.eqb f "." || String.eqb f ".." then EmptyString
  else
    match f with
    | String "." rest =>
        match after_last "." rest with
        | Some e => String "." e
        | None => EmptyString
        end
    | _ =>
        match after_last "." f with
        | Some e => String "." e
        | None => EmptyString
        end
    end.

(** [::tolower] in the C locale. *)
Definition tolower (c : ascii) : ascii :=
  let n := nat_of_ascii c in
  if (65 <=? n)%nat && (n <=? 90)%nat then ascii_of_nat (n + 32) else c.

Fixpoint tolower_string (s : string) : string :=
  match s with
  | EmptyString => EmptyString
  | String c s' => String (tolower c) (tolower_string s')
  end.

(** [get_mime_type(path)]. *)
Definition get_mime_type (path : string) : string :=
  match find_mime (tolower_string (extension path)) mime_types_ with
  | Some m => m
  | None => "application/octet-stream"
  end.

(** What is written to the client socket. *)
Inductive reply :=
| Response (status : Z) (status_text content_type body : string)   (* [send_response] *)
| FileResponse (content_type body : string).                       (* the 200 of [send_file] *)

(** How the handling of one connection ends: a reply was sent, nothing was
    sent, or a [std::out_of_range] left [handle_client]. *)
Inductive outcome :=
| Sent (r : reply)
| Silent
| ThrowsOutOfRange.

Section Filesystem.

(** The member [web_root_] and what the file system answers. *)
Variable web_root_ : string.
Variable path_append : string -> string -> string.   (* [fs::path(a) / b] *)
Variable canonical : string -> option string.        (* [fs::canonical], [None]: throws *)
Variable is_regular_file : string -> option bool.    (* [None]: throws *)
Variable read_file : string -> option string.        (* [None]: the stream does not open *)

(** The [try] block of [resolve_path]; any exception gives the empty
    string. *)
Definition resolve_canonical (full : string) : string :=
  match canonical full with
  | None => EmptyString
  | Some c =>
      match canonical web_root_ with
      | None => EmptyString
      | Some root_str =>
          if negb (String.eqb (String.substring 0 (String.length root_str) c) root_str)
          then EmptyString
          else match is_regular_file c with
               | Some true => c
               | _ => EmptyString
               end
      end
  end.

(** [resolve_path(uri)]; [None] when [path.substr(1)] throws. *)
Definition resolve_path (uri : string) : option string :=
  let path := if String.eqb uri "/" then "/index.html"%string else uri in
  match substr 1 None path with
  | None => None
  | Some rel => Some (resolve_canonical (path_append web_root_ rel))
  end.

(** [send_file(fd, path)]. *)
Definition send_file (path : string) : reply :=
  match read_file path with
  | None => Response 500 "Internal Server Error" "text/plain" "Cannot read file"
  | Some body => FileResponse (get_mime_type path) body
  end.

(** [handle_client] from the first line of the request on. *)
Definition handle_request_line (first_line : string) : outcome :=
  match substr 0 (Some 4%nat) first_line with
  | None => ThrowsOutOfRange
  | Some method =>
      if negb (String.eqb method "GET ") then
        Sent (Response 405 "Method Not Allowed" "text/plain" "Only GET supported")
      else
        let path_start :=
          match String.index 0 " " first_line with
          | Some i => S i
          | None => 0%nat                       (* [npos + 1] *)
          end in
        let path_end := String.index path_start " " first_line in
        match substr path_start
                (match path_end with
                 | Some e => Some (e - path_start)%nat
                 | None => None                 (* [npos - path_start] *)
                 end) first_line with
        | None => ThrowsOutOfRange
        | Some uri0 =>
            let uri := match String.index 0 "?" uri0 with
                       | Some q => String.substring 0 q uri0
                       | None => uri0
                       end in
            match resolve_path uri with
            | None => ThrowsOutOfRange
            | Some file_path =>
                match file_path with
                | EmptyString =>
                    Sent (Response 404 "Not Found" "text/html"
                            "<html><body><h1>404 Not Found</h1></body></html>")
                | _ => Sent (send_file file_path)
                end
            end
        end
  end.

(** [handle_client(client_fd)]; [received] holds the bytes [recv] returned
    (none when it returned 0 or an error). *)
Definition handle_client (received : string) : outcome :=
  match received with
  | EmptyString => Silent
  | _ =>
      let request := c_str received in
      match String.index 0 crlf request with
      | None => Silent
      | Some first_line_end =>
          match substr 0 (Some first_line_end) request with
          | None => ThrowsOutOfRange
          | Some first_line => handle_request_line first_line
          end
      end
  end.

End Filesystem.

End HttpServer.

(* ===================================================================== *)
(** ** main.cpp: the wiring *)
(* ===================================================================== *)

Module Main.

(** [signaling_server.set_bitrate_callback([&](int k){ rtsp_pipeline.set_bitrate(k); })]:
    what a call of the registered callback does to the pipeline.  The other
    actions of the endpoint do not reach the pipeline. *)
Definition perform (p : RtspPipeline.t) (a : SignalingServer.action) : RtspPipeline.t :=
  match a with
  | SignalingServer.InvokeBitrateCb kbps => RtspPipeline.set_bitrate kbps p
  | _ => p
  end.

(** A text frame arrives on the socket of [peer_id]. *)
Definition receive_frame (peer_id : string) (parsed : option SignalingServer.json)
    (p : RtspPipeline.t) : RtspPipeline.t :=
  foldl perform p (SignalingServer.on_client_message peer_id parsed).

(** The ABR hint of the viewer as the spec writes it. *)
Definition bitrate_hint (n : Z) : SignalingServer.json :=
  SignalingServer.JObj [("type", SignalingServer.JStr "bitrate");
                        ("kbps", SignalingServer.JNum n)].

End Main.

(* ===================================================================== *)
(** ** The words of the specification *)
(* ===================================================================== *)

Module Spec.

(** The nearest integer to [p / q] for [q > 0], halves upwards. *)
Definition round_div (p q : Z) : Z := (2 * p + q) / (2 * q).

(** [round(pts_us * 90_000 / 1_000_000) mod 2^32]. *)
Definition rtp_timestamp (pts_us : Z) : Z :=
  round_div (pts_us * 90000) 1000000 mod two32.

(** The same with the quotient truncated. *)
Definition rtp_timestamp_floor (pts_us : Z) : Z :=
  (pts_us * 90000 / 1000000) mod two32.

(** [clamp(k, min, max)]. *)
Definition clamp (k lo hi : Z) : Z :=
  if k <? lo then lo else if hi <? k then hi else k.

End Spec.

(* ===================================================================== *)
(** ** Concrete peers, registries and pipelines used in the examples *)
(* ===================================================================== *)

Module Scenario.

(** A peer as the constructor leaves it. *)
Definition fresh_peer : PeerConnection.t :=
  match fst (PeerConnection.new "peer-0000002a" (PeerConnection.SetupOk 0)
               PeerConnection.next_ssrc_init) with
  | inr p => p
  | inl _ =>
      {| PeerConnection.peer_id_ := EmptyString; PeerConnection.ssrc_ := 0;
         PeerConnection.video_track_ := None; PeerConnection.rtp_timestamp := 0;
         PeerConnection.needs_keyframe_ := false; PeerConnection.connected_ := false;
         PeerConnection.closed_ := false;
         PeerConnection.stats_ := {| PeerConnection.rtp_packets_sent := 0;
                                     PeerConnection.bytes_sent := 0;
                                     PeerConnection.state := EmptyString |} |}
  end.

(** The same peer once connected and with its track open. *)
Definition live_peer : PeerConnection.t :=
  PeerConnection.on_track_open
    (PeerConnection.on_state_change PeerConnection.Connected fresh_peer).

(** A construction that succeeds. *)
Definition setup_ok : PeerConnection.SetupOutcome := PeerConnection.SetupOk 0.

(** Five viewers connect, one after the other, to a server of four places. *)
Definition five_viewers : list WebRtcServer.op :=
  [WebRtcServer.CreatePeer 1 setup_ok; WebRtcServer.CreatePeer 2 setup_ok;
   WebRtcServer.CreatePeer 3 setup_ok; WebRtcServer.CreatePeer 4 setup_ok;
   WebRtcServer.CreatePeer 5 setup_ok].

(** Two viewers; the first one is connected and its track is open. *)
Definition two_viewers : WebRtcServer.world :=
  WebRtcServer.run
    [WebRtcServer.CreatePeer 1 setup_ok; WebRtcServer.CreatePeer 2 setup_ok;
     WebRtcServer.PeerEvent "peer-00000001"
       (WebRtcServer.StateChange PeerConnection.Connected);
     WebRtcServer.PeerEvent "peer-00000001" WebRtcServer.TrackOpen]
    (WebRtcServer.init default_config).

(** One viewer stays while 2^32 - 1 others connect and leave; then one more
    connects. *)
Definition wrap_world : WebRtcServer.world :=
  let w1 := WebRtcServer.run_op (WebRtcServer.init default_config)
              (WebRtcServer.CreatePeer 1 setup_ok) in
  let w2 := N.iter 4294967295 (WebRtcServer.churn 2) w1 in
  WebRtcServer.run_op w2 (WebRtcServer.CreatePeer 2 setup_ok).

(** What the worker meets when the source is there and stays. *)
Definition source_up : RtspPipeline.input :=
  {| RtspPipeline.parse := RtspPipeline.ParseOk; RtspPipeline.play_fails := false;
     RtspPipeline.bus := None |}.

(** What it meets when the source ends as soon as the graph plays. *)
Definition source_ends : RtspPipeline.input :=
  {| RtspPipeline.parse := RtspPipeline.ParseOk; RtspPipeline.play_fails := false;
     RtspPipeline.bus := Some RtspPipeline.MsgEos |}.

(** The worker builds the graph and brings it to PLAYING: its two steps
    from [Building] to [BusLoop]. *)
Definition bring_up (build : RtspPipeline.BuildFlags) (s : RtspPipeline.t) : RtspPipeline.t :=
  RtspPipeline.worker_step build source_up
    (RtspPipeline.worker_step build source_up
       (RtspPipeline.set_thread s (Some RtspPipeline.Building))).

(** A build without either switch, and a Jetson build. *)
Definition desktop : RtspPipeline.BuildFlags :=
  {| RtspPipeline.ENABLE_TEST_MODE := false; RtspPipeline.JETSON_PLATFORM := false |}.

Definition jetson : RtspPipeline.BuildFlags :=
  {| RtspPipeline.ENABLE_TEST_MODE := false; RtspPipeline.JETSON_PLATFORM := true |}.

(** A camera that is re-encoded, with the video limits of the defaults
    ([min] 500, [max] 8000, [bitrate] 4000) and a short back-off. *)
Definition camera_config (hw : bool) (max_attempts : Z) : AppConfig :=
  {| rtsp := {| url := "rtsp://camera/stream"; transport := "tcp"; latency_ms := 0;
                reconnect_interval_ms := 200; reconnect_max_attempts := max_attempts |};
     webrtc := webrtc default_config;
     encoding := {| hw_encode := hw; passthrough := false;
                    idr_interval := 30; insert_sps_pps := true |} |}.

(** A pipeline just constructed and started. *)
Definition started (c : AppConfig) : RtspPipeline.t :=
  match RtspPipeline.start (RtspPipeline.RtspPipeline c) with
  | Some s => s
  | None => RtspPipeline.RtspPipeline c
  end.

(** Playing pipelines with the software and with the hardware encoder. *)
Definition sw_pipeline : RtspPipeline.t := bring_up desktop (started (camera_config false 0)).

Definition hw_pipeline : RtspPipeline.t := bring_up jetson (started (camera_config true 0)).

End Scenario.
Import Scenario.

(* ===================================================================== *)
(** ** A web root and a configuration file used in the examples *)
(* ===================================================================== *)

(** A small file system: the web root [/srv/web] with [index.html] in it,
    and a sibling directory [/srv/web-old]. *)
Module WebRoot.

Definition web_root : string := "/srv/web".

(** Whether a path ends with the directory separator. *)
Fixpoint ends_with_separator (a : string) : bool :=
  match a with
  | EmptyString => false
  | String c EmptyString => Ascii.eqb c "/"
  | String _ a' => ends_with_separator a'
  end.

(** [fs::path(a) / b] on POSIX paths: an absolute [b] replaces [a]; otherwise
    [b] is appended, after a separator unless [a] is empty or ends with
    one. *)
Definition path_append (a b : string) : string :=
  match b with
  | String "/" _ => b
  | _ =>
      match a with
      | EmptyString => b
      | _ => if ends_with_separator a then String.append a b
             else String.append a (String "/" b)
      end
  end.

Definition canonical (p : string) : option string :=
  if String.eqb p "/srv/web" then Some "/srv/web"%string
  else if String.eqb p "/srv/web/index.html" then Some "/srv/web/index.html"%string
  else if String.eqb p "/srv/web/../web-old/notes.txt" then Some "/srv/web-old/notes.txt"%string
  else if String.eqb p "/srv/web/../../etc/passwd" then Some "/etc/passwd"%string
  else if String.eqb p "/srv/web-old/notes.txt" then Some "/srv/web-old/notes.txt"%string
  else if String.eqb p "/etc/passwd" then Some "/etc/passwd"%string
  else None.

Definition is_regular_file (p : string) : option bool :=
  Some (String.eqb p "/srv/web/index.html" || String.eqb p "/srv/web-old/notes.txt"
        || String.eqb p "/etc/passwd").

Definition read_file (p : string) : option string :=
  if String.eqb p "/srv/web/index.html" then Some "<html></html>"%string
  else if String.eqb p "/srv/web-old/notes.txt" then Some "notes"%string
  else if String.eqb p "/etc/passwd" then Some "root:x:0:0"%string
  else None.

Definition handle_client : string -> HttpServer.outcome :=
  HttpServer.handle_client web_root path_append canonical is_regular_file read_file.

Definition request (line : string) : string :=
  String.append line (String.append HttpServer.crlf
    (String.append "Host: robot" (String.append HttpServer.crlf HttpServer.crlf))).

End WebRoot.

(** A document type for the examples: typed scalars and maps. *)
Module ExampleYaml.

#[local] Unset Elimination Schemes.

Inductive doc :=
| Undefined
| Str (s : string)
| Int (z : Z)
| Flag (b : bool)
| Map (fields : list (string * doc)).

#[local] Set Elimination Schemes.

Fixpoint lookup_field (key : string) (fields : list (string * doc)) : doc :=
  match fields with
  | [] => Undefined
  | (k, v) :: fields' => if String.eqb k key then v else lookup_field key fields'
  end.

#[global] Instance doc_yaml : Config.Yaml doc := {
  y_get n key :=
    match n with
    | Map fields => Some (lookup_field key fields)
    | Undefined => Some Undefined
    | _ => None
    end;
  y_defined n := match n with Undefined => false | _ => true end;
  y_string n fallback := match n with Str s => s | _ => fallback end;
  y_int n fallback := match n with Int z => z | _ => fallback end;
  y_uint16 n fallback :=
    match n with
    | Int z => if (0 <=? z) && (z <? 65536) then z else fallback
    | _ => fallback
    end;
  y_bool n fallback := match n with Flag b => b | _ => fallback end
}.

(** A file that sets the camera, the HTTP port and the bitrate. *)
Definition robot_yaml : doc :=
  Map [("server", Map [("signaling_port", Int 9000); ("http_port", Int 9001)]);
       ("rtsp", Map [("url", Str "rtsp://192.168.1.10/stream")]);
       ("webrtc", Map [("max_peers", Int 2);
                       ("video", Map [("bitrate_kbps", Int 3000)])])].

(** An environment that overrides the camera and the bitrate. *)
Definition robot_env (name : string) : option string :=
  if String.eqb name "RTSP_URL" then Some "rtsp://10.0.0.5/cam"%string
  else if String.eqb name "VIDEO_BITRATE_KBPS" then Some "2500"%string
  else if String.eqb name "SIGNALING_PORT" then Some "70000"%string
  else None.

(** [std::stoi] on the strings of the examples. *)
Definition example_stoi (s : string) : option Z :=
  if String.eqb s "2500" then Some 2500
  else if String.eqb s "70000" then Some 70000
  else None.

(** What [load_config] returns for that file in that environment. *)
Definition robot_loaded : Config.Loaded :=
  match Config.load_config robot_env example_stoi (Some robot_yaml) with
  | inr cfg => cfg
  | inl _ => Config.defaults
  end.

End ExampleYaml.

(* ===================================================================== *)
(** ** Histories of one peer and of one pipeline *)
(* ===================================================================== *)

(** What can happen to one peer between its construction and its removal. *)
Inductive peer_op :=
| PeerCallback (e : WebRtcServer.peer_event)
| PeerAnswer
| PeerKeyframeSent
| PeerSend (size timestamp_us : Z) (send_throws : bool).

Definition apply_peer_op (p : PeerConnection.t) (o : peer_op) : PeerConnection.t :=
  match o with
  | PeerCallback e => WebRtcServer.apply_event e p
  | PeerAnswer => PeerConnection.handle_answer p
  | PeerKeyframeSent => PeerConnection.keyframe_sent p
  | PeerSend size ts throws => PeerConnection.send_h264_nal size ts throws p
  end.

(** A run of successful sends, each a size and a presentation time. *)
Definition send_all (nals : list (Z * Z)) (p : PeerConnection.t) : PeerConnection.t :=
  foldl (fun q nal => PeerConnection.send_h264_nal (fst nal) (snd nal) false q) p nals.

Definition sum_sizes (nals : list (Z * Z)) : Z := foldr (fun nal acc => fst nal + acc) 0 nals.

(** What happens to a started pipeline while nobody stops it: the worker
    takes a step, a viewer's hint arrives, the appsink delivers a buffer. *)
Inductive pipeline_event :=
| WorkerStep (i : RtspPipeline.input)
| SetBitrate (kbps : Z)
| NewSample (bytes : Z).

Definition run_event (build : RtspPipeline.BuildFlags) (s : RtspPipeline.t)
    (ev : pipeline_event) : RtspPipeline.t :=
  match ev with
  | WorkerStep i => RtspPipeline.worker_step build i s
  | SetBitrate kbps => RtspPipeline.set_bitrate kbps s
  | NewSample bytes => RtspPipeline.on_new_sample bytes s
  end.

Definition run_events (build : RtspPipeline.BuildFlags) (evs : list pipeline_event)
    (s : RtspPipeline.t) : RtspPipeline.t :=
  foldl (run_event build) s evs.

(* ===================================================================== *)
(** ** Invariants and measures used in the proofs *)
(* ===================================================================== *)

(** [keeps m' m]: every entry of [m'] is an entry of [m] under the same id,
    with the same SSRC. *)
Definition keeps (m' m : gmap string PeerConnection.t) : Prop :=
  forall pid p', m' !! pid = Some p' ->
    exists p, m !! pid = Some p /\ PeerConnection.ssrc_ p' = PeerConnection.ssrc_ p.

Definition max_peers_of (w : WebRtcServer.world) : Z :=
  max_peers (webrtc (WebRtcServer.config_ (WebRtcServer.srv w))).

Definition peers_of (w : WebRtcServer.world) : gmap string PeerConnection.t :=
  WebRtcServer.peers_ (WebRtcServer.srv w).

Definition is_create (o : WebRtcServer.op) : bool :=
  match o with WebRtcServer.CreatePeer _ _ => true | _ => false end.

(** Before the counter wraps: every peer of the map has an SSRC between 42
    and the counter, and peers under different ids have different SSRCs. *)
Definition ssrc_inv (w : WebRtcServer.world) : Prop :=
  (forall k p, peers_of w !! k = Some p ->
     PeerConnection.next_ssrc_init <= PeerConnection.ssrc_ p < WebRtcServer.next_ssrc_ w)
  /\ (forall k1 k2 p1 p2,
        peers_of w !! k1 = Some p1 -> peers_of w !! k2 = Some p2 -> k1 <> k2 ->
        PeerConnection.ssrc_ p1 <> PeerConnection.ssrc_ p2).

Definition bump (b : bool) : Z := if b then 1 else 0.

(** With the stop flag up: a bound on the steps the worker still takes. *)
Definition steps_to_exit (p : RtspPipeline.pc) : nat :=
  match p with
  | RtspPipeline.Done => 0
  | RtspPipeline.LoopHead => 1
  | RtspPipeline.Reconnect | RtspPipeline.Backoff _ | RtspPipeline.TearDown => 2
  | RtspPipeline.BusLoop => 3
  | RtspPipeline.SettingPlaying => 4
  | RtspPipeline.Building => 5
  end.

(** [running_] may be true only while the worker is in, or just out of, the
    bus loop. *)
Definition running_settled (s : RtspPipeline.t) : Prop :=
  match RtspPipeline.thread_ s with
  | Some RtspPipeline.BusLoop | Some RtspPipeline.TearDown => True
  | _ => RtspPipeline.running_ s = false
  end.

(** The terminal state of [stop()]. *)
Definition stopped (s : RtspPipeline.t) : Prop :=
  RtspPipeline.thread_ s = None
  /\ RtspPipeline.pipeline_ s = None
  /\ RtspPipeline.running_ s = false
  /\ RtspPipeline.stop_requested_ s = true.

(** What every peer of the registry satisfies from its construction on: it
    carries its key as [id()], it has a video track, and [needs_keyframe()]
    still holds. *)
Definition well_kept (key : string) (p : PeerConnection.t) : Prop :=
  PeerConnection.peer_id_ p = key
  /\ PeerConnection.video_track_ p <> None
  /\ PeerConnection.needs_keyframe_ p = true.

(** The inverse of [hex_digit] on the sixteen digits. *)
Definition unhex_digit (c : ascii) : Z :=
  (if Ascii.eqb c "0" then 0 else if Ascii.eqb c "1" then 1
   else if Ascii.eqb c "2" then 2 else if Ascii.eqb c "3" then 3
   else if Ascii.eqb c "4" then 4 else if Ascii.eqb c "5" then 5
   else if Ascii.eqb c "6" then 6 else if Ascii.eqb c "7" then 7
   else if Ascii.eqb c "8" then 8 else if Ascii.eqb c "9" then 9
   else if Ascii.eqb c "a" then 10 else if Ascii.eqb c "b" then 11
   else if Ascii.eqb c "c" then 12 else if Ascii.eqb c "d" then 13
   else if Ascii.eqb c "e" then 14 else 15)%char.

(** The number a string of hexadecimal digits writes. *)
Definition unhex (s : string) : Z :=
  fold_left (fun acc c => acc * 16 + unhex_digit c) (list_ascii_of_string s) 0.

(** The draw a peer id was made from. *)
Definition draw_of_peer_id (peer_id : string) : Z :=
  unhex (String.substring 5 8 peer_id).

(** The number of 100 ms sleeps of one back-off. *)
Definition backoff_slices (interval_ms : Z) : nat := Z.to_nat ((interval_ms + 99) / 100).

(** The members describe the graph of the current configuration. *)
Definition graph_ok (build : RtspPipeline.BuildFlags) (s : RtspPipeline.t) : Prop :=
  let desc := RtspPipeline.pipeline_desc build (RtspPipeline.config_ s) in
  (exists g, RtspPipeline.pipeline_ s = Some g /\ length g = length desc)
  /\ RtspPipeline.encoder_ s = RtspPipeline.gst_bin_get_by_name desc "enc"
  /\ (RtspPipeline.use_test_source build (RtspPipeline.config_ s) = false ->
      passthrough (encoding (RtspPipeline.config_ s)) = false ->
      RtspPipeline.is_hw_encode_ s
      = RtspPipeline.JETSON_PLATFORM build && hw_encode (encoding (RtspPipeline.config_ s))).

(** The graph is there from the moment it is built until it is torn down,
    and [running_] is true only in between. *)
Definition graph_inv (build : RtspPipeline.BuildFlags) (s : RtspPipeline.t) : Prop :=
  match RtspPipeline.thread_ s with
  | Some RtspPipeline.BusLoop | Some RtspPipeline.TearDown => graph_ok build s
  | Some RtspPipeline.SettingPlaying => graph_ok build s /\ RtspPipeline.running_ s = false
  | _ => RtspPipeline.running_ s = false
  end.

(** The encoder elements of a graph, named or not. *)
Definition is_encoder (el : RtspPipeline.GstElement) : bool :=
  String.eqb (RtspPipeline.factory el) "x264enc"
  || String.eqb (RtspPipeline.factory el) "nvv4l2h264enc".

Definition encoders (g : list RtspPipeline.GstElement) : list RtspPipeline.GstElement :=
  List.filter is_encoder g.

(** What a frame from the viewer of [peer_id] may cause: a reply on its own
    socket, a log line, or a call on its own peer. *)
Definition own_action (peer_id : string) (a : SignalingServer.action) : Prop :=
  match a with
  | SignalingServer.HandleAnswer p _ => p = peer_id
  | SignalingServer.HandleCandidate p _ _ => p = peer_id
  | SignalingServer.WsSend _ => True
  | SignalingServer.LogDebugUnknownType _ => True
  | SignalingServer.LogWarnInvalidJson => True
  | SignalingServer.StartOffer _ => False
  | SignalingServer.WsClose => False
  | SignalingServer.InvokeBitrateCb _ => False
  | SignalingServer.LogWarnRejected => False
  end.

(* ===================================================================== *)
(** * Properties *)
(* ===================================================================== *)

(** ** Machine integers *)

Lemma to_uint32_range z : uint32_range (to_uint32 z).
Proof. unfold uint32_range, to_uint32, two32. apply Z.mod_pos_bound. lia. Qed.

Lemma to_uint32_small z : 0 <= z < two32 -> to_uint32 z = z.
Proof. intros H. unfold to_uint32. apply Z.mod_small. exact H. Qed.

Lemma to_uint64_small z : 0 <= z < two64 -> to_uint64 z = z.
Proof. intros H. unfold to_uint64. apply Z.mod_small. exact H. Qed.

Lemma to_int_small z : int_range z -> to_int z = z.
Proof.
  unfold int_range, INT_MIN, INT_MAX, to_int, two32. intros H.
  rewrite Z.mod_small by lia. lia.
Qed.

(** ** PeerConnection: sending *)

Lemma send_h264_nal_connected p size ts throws :
  PeerConnection.connected_ (PeerConnection.send_h264_nal size ts throws p)
  = PeerConnection.connected_ p.
Proof.
  unfold PeerConnection.send_h264_nal.
  destruct (negb _ || negb _); [reflexivity|]. destruct throws; reflexivity.
Qed.

Lemma send_h264_nal_track p size ts throws :
  PeerConnection.video_track_ (PeerConnection.send_h264_nal size ts throws p)
  = PeerConnection.video_track_ p.
Proof.
  unfold PeerConnection.send_h264_nal.
  destruct (negb _ || negb _); [reflexivity|]. destruct throws; reflexivity.
Qed.

Lemma send_h264_nal_ssrc p size ts throws :
  PeerConnection.ssrc_ (PeerConnection.send_h264_nal size ts throws p)
  = PeerConnection.ssrc_ p.
Proof.
  unfold PeerConnection.send_h264_nal.
  destruct (negb _ || negb _); [reflexivity|]. destruct throws; reflexivity.
Qed.

(** On a peer that is connected with an open track the timestamp written is
    the one computed from the presentation time, whether or not the track
    then accepts the buffer. *)
Lemma send_h264_nal_timestamp p size ts throws :
  PeerConnection.connected_ p = true ->
  PeerConnection.track_open p = true ->
  PeerConnection.rtp_timestamp (PeerConnection.send_h264_nal size ts throws p)
  = PeerConnection.rtp_timestamp_of ts.
Proof.
  intros Hc Ho. unfold PeerConnection.send_h264_nal. rewrite Hc, Ho. simpl.
  destruct throws; reflexivity.
Qed.

(** A successful send counts one packet and [size] bytes. *)
Lemma send_h264_nal_stats p size ts :
  PeerConnection.connected_ p = true ->
  PeerConnection.track_open p = true ->
  let p' := PeerConnection.send_h264_nal size ts false p in
  PeerConnection.rtp_packets_sent (PeerConnection.stats_ p')
  = to_uint64 (PeerConnection.rtp_packets_sent (PeerConnection.stats_ p) + 1)
  /\ PeerConnection.bytes_sent (PeerConnection.stats_ p')
     = to_uint64 (PeerConnection.bytes_sent (PeerConnection.stats_ p) + size).
Proof.
  intros Hc Ho. unfold PeerConnection.send_h264_nal. rewrite Hc, Ho. simpl. split; reflexivity.
Qed.

(** Without wrap-around of the 64-bit product the timestamp is the truncated
    quotient, modulo 2^32. *)
Lemma rtp_timestamp_of_floor ts :
  0 <= ts -> ts * 90000 < two64 ->
  PeerConnection.rtp_timestamp_of ts = Spec.rtp_timestamp_floor ts.
Proof.
  intros H0 H1. unfold PeerConnection.rtp_timestamp_of, Spec.rtp_timestamp_floor,
    PeerConnection.defaultClockRate, to_uint32.
  rewrite to_uint64_small by lia. reflexivity.
Qed.

(** Below 2^32 ticks nothing wraps: the timestamp is the tick count itself. *)
Lemma rtp_timestamp_of_ticks ts :
  0 <= ts -> ts * 90000 / 1000000 < two32 ->
  PeerConnection.rtp_timestamp_of ts = ts * 90000 / 1000000.
Proof.
  intros H0 H1.
  assert (Hlt : ts * 90000 < two64).
  { unfold two32, two64 in *.
    destruct (Z_lt_ge_dec (ts * 90000) 18446744073709551616) as [Hs|Hs]; [exact Hs|].
    exfalso.
    assert (4294967296 <= ts * 90000 / 1000000).
    { apply Z.div_le_lower_bound; lia. }
    lia. }
  rewrite rtp_timestamp_of_floor by assumption.
  unfold Spec.rtp_timestamp_floor. apply Z.mod_small. split; [|exact H1].
  apply Z.div_pos; lia.
Qed.

Lemma rtp_timestamp_of_mono ts1 ts2 :
  0 <= ts1 <= ts2 -> ts2 * 90000 / 1000000 < two32 ->
  PeerConnection.rtp_timestamp_of ts1 <= PeerConnection.rtp_timestamp_of ts2.
Proof.
  intros H H2.
  assert (Hle : ts1 * 90000 / 1000000 <= ts2 * 90000 / 1000000).
  { apply Z.div_le_mono; lia. }
  rewrite !rtp_timestamp_of_ticks by lia. exact Hle.
Qed.

(** C8.  A call of [send_h264_nal] on a peer that is not connected, or whose
    video track is absent or not open, returns (the function is total: there
    is no error outcome, and the track is not asked to send) and leaves the
    peer as it was: the RTP timestamp, [rtp_packets_sent], [bytes_sent] and
    every other field are unchanged. *)
Theorem send_h264_nal_noop_unless_connected_and_open p size ts throws :
  PeerConnection.connected_ p = false \/ PeerConnection.track_open p = false ->
  PeerConnection.send_h264_nal size ts throws p = p.
Proof.
  intros [H|H]; unfold PeerConnection.send_h264_nal; rewrite H.
  - reflexivity.
  - rewrite orb_true_r. reflexivity.
Qed.

Lemma send_h264_nal_noop_witness :
  (PeerConnection.connected_ Scenario.fresh_peer = false
   \/ PeerConnection.track_open Scenario.fresh_peer = false)
  /\ PeerConnection.send_h264_nal 1200 33333 false Scenario.fresh_peer
     = Scenario.fresh_peer.
Proof.
  split.
  - left. reflexivity.
  - apply (send_h264_nal_noop_unless_connected_and_open Scenario.fresh_peer 1200 33333 false).
    left. reflexivity.
Defined.

(** C4, as the code has it.  For every NAL sent by a connected peer with an
    open track, the RTP timestamp written is the truncated quotient
    [floor(((pts_us * 90000) mod 2^64) / 1000000) mod 2^32]; when the 64-bit
    product does not wrap this is [floor(pts_us * 90000 / 1000000) mod 2^32];
    and a later send with a presentation time that is not smaller, and whose
    tick count is still below 2^32, writes a timestamp that is not smaller. *)
Theorem send_h264_nal_rtp_timestamp_floor p size ts throws :
  PeerConnection.connected_ p = true ->
  PeerConnection.track_open p = true ->
  0 <= ts < two64 ->
  let p' := PeerConnection.send_h264_nal size ts throws p in
  PeerConnection.rtp_timestamp p' = ((ts * 90000) mod two64 / 1000000) mod two32
  /\ (ts * 90000 < two64 ->
      PeerConnection.rtp_timestamp p' = Spec.rtp_timestamp_floor ts)
  /\ (forall size2 ts2 throws2,
        ts <= ts2 -> ts2 * 90000 / 1000000 < two32 ->
        PeerConnection.rtp_timestamp p'
        <= PeerConnection.rtp_timestamp
             (PeerConnection.send_h264_nal size2 ts2 throws2 p')).
Proof.
  intros Hc Ho Hts p'. subst p'.
  rewrite send_h264_nal_timestamp by assumption.
  split; [reflexivity|]. split.
  - intros Hlt. apply rtp_timestamp_of_floor; lia.
  - intros size2 ts2 throws2 Hle Hlt.
    rewrite send_h264_nal_timestamp.
    + apply rtp_timestamp_of_mono; lia.
    + rewrite send_h264_nal_connected. exact Hc.
    + unfold PeerConnection.track_open in *. rewrite send_h264_nal_track. exact Ho.
Qed.

Lemma send_h264_nal_rtp_timestamp_floor_witness :
  PeerConnection.rtp_timestamp
    (PeerConnection.send_h264_nal 1200 1000000 false Scenario.live_peer) = 90000.
Proof.
  destruct (send_h264_nal_rtp_timestamp_floor Scenario.live_peer 1200 1000000 false)
    as [H _].
  - reflexivity.
  - reflexivity.
  - unfold two64. lia.
  - rewrite H. reflexivity.
Defined.

(** C4, as the spec words it, fails twice.  At [pts_us = 6] the exact value is
    0.54 tick: rounding gives 1, the code writes 0.  And after 2^32 ticks
    (a little over thirteen hours of stream) the timestamp wraps: two
    successive sends with increasing presentation times write 4294967295 and
    then 0. *)
Lemma send_h264_nal_rtp_timestamp_round_counterexample :
  PeerConnection.rtp_timestamp
    (PeerConnection.send_h264_nal 1200 6 false Scenario.live_peer)
  <> Spec.rtp_timestamp 6
  /\ (let p1 := PeerConnection.send_h264_nal 1200 47721858844 false Scenario.live_peer in
      let p2 := PeerConnection.send_h264_nal 1200 47721858845 false p1 in
      47721858844 <= 47721858845
      /\ ~ PeerConnection.rtp_timestamp p1 <= PeerConnection.rtp_timestamp p2).
Proof.
  split.
  - vm_compute. discriminate.
  - cbv zeta. split; [lia|]. vm_compute. intros H. apply H. reflexivity.
Qed.

Example rtp_timestamp_values :
  PeerConnection.rtp_timestamp_of 6 = 0
  /\ Spec.rtp_timestamp 6 = 1
  /\ PeerConnection.rtp_timestamp_of 33333 = 2999
  /\ Spec.rtp_timestamp 33333 = 3000
  /\ PeerConnection.rtp_timestamp_of 1000000 = 90000
  /\ PeerConnection.rtp_timestamp_of 47721858844 = 4294967295
  /\ PeerConnection.rtp_timestamp_of 47721858845 = 0.
Proof. vm_compute. repeat split; reflexivity. Qed.

(** ** WebRtcServer: maps that only keep or drop entries *)

Lemma keeps_refl m : keeps m m.
Proof. intros k p H. eauto. Qed.

Lemma keeps_size m' m : keeps m' m -> (size m' <= size m)%nat.
Proof.
  intros Hk. rewrite <-(size_dom (D:=gset string) m'), <-(size_dom (D:=gset string) m).
  apply subseteq_size. intros k. rewrite !elem_of_dom. intros [p' H].
  destruct (Hk _ _ H) as [p [Hp _]]. eauto.
Qed.

(** ** WebRtcServer: broadcast *)

(** The loop of [broadcast_nal] over a list of entries with distinct keys. *)
Lemma broadcast_fold size ts throws (l : list (string * PeerConnection.t)) :
  forall calls (m : gmap string PeerConnection.t),
  NoDup (l.*1) ->
  let r := foldl (WebRtcServer.broadcast_step size ts throws) (calls, m) l in
  fst r = calls ++ (filter (fun kv => PeerConnection.is_connected (snd kv) = true) l).*1
  /\ forall pid,
       snd r !! pid =
       match (list_to_map l : gmap string PeerConnection.t) !! pid with
       | Some v => if PeerConnection.is_connected v
                   then Some (PeerConnection.send_h264_nal size ts (throws pid) v)
                   else m !! pid
       | None => m !! pid
       end.
Proof.
  induction l as [|[k v] l IH]; intros calls m Hnd; simpl.
  - split; [by rewrite app_nil_r|]. intros pid. by rewrite lookup_empty.
  - inversion Hnd as [|? ? Hnotin Hnd']; subst.
    specialize (IH (fst (WebRtcServer.broadcast_step size ts throws (calls, m) (k, v)))
                   (snd (WebRtcServer.broadcast_step size ts throws (calls, m) (k, v))) Hnd').
    rewrite <-surjective_pairing in IH. destruct IH as [IH1 IH2].
    assert (Hk : (list_to_map l : gmap string PeerConnection.t) !! k = None).
    { by apply not_elem_of_list_to_map_1. }
    split.
    + rewrite IH1. unfold WebRtcServer.broadcast_step. simpl.
      rewrite filter_cons. simpl.
      destruct (PeerConnection.is_connected v) eqn:Hc; simpl.
      * by rewrite <-app_assoc.
      * done.
    + intros pid. rewrite IH2. unfold WebRtcServer.broadcast_step. simpl.
      destruct (decide (k = pid)) as [->|Hne].
      * rewrite Hk, lookup_insert_eq.
        destruct (PeerConnection.is_connected v); simpl; [by rewrite lookup_insert_eq|reflexivity].
      * rewrite lookup_insert_ne by done.
        destruct (PeerConnection.is_connected v); simpl;
          [by rewrite lookup_insert_ne|reflexivity].
Qed.

Lemma broadcast_nal_lookup size ts throws s pid :
  WebRtcServer.peers_ (snd (WebRtcServer.broadcast_nal size ts throws s)) !! pid
  = (fun p => if PeerConnection.is_connected p
              then PeerConnection.send_h264_nal size ts (throws pid) p else p)
    <$> WebRtcServer.peers_ s !! pid.
Proof.
  unfold WebRtcServer.broadcast_nal. simpl.
  destruct (broadcast_fold size ts throws (map_to_list (WebRtcServer.peers_ s)) []
              (WebRtcServer.peers_ s) (NoDup_fst_map_to_list _)) as [_ H].
  rewrite H, list_to_map_to_list.
  destruct (WebRtcServer.peers_ s !! pid) as [v|] eqn:E; simpl; [|done].
  destruct (PeerConnection.is_connected v); done.
Qed.

Lemma broadcast_nal_calls size ts throws s :
  fst (WebRtcServer.broadcast_nal size ts throws s)
  = (filter (fun kv => PeerConnection.is_connected (snd kv) = true)
            (map_to_list (WebRtcServer.peers_ s))).*1.
Proof.
  unfold WebRtcServer.broadcast_nal. simpl.
  destruct (broadcast_fold size ts throws (map_to_list (WebRtcServer.peers_ s)) []
              (WebRtcServer.peers_ s) (NoDup_fst_map_to_list _)) as [H _].
  exact H.
Qed.

(** C7.  Every call of [broadcast_nal] calls [send_h264_nal] on exactly the
    peers of the registry map for which [is_connected()] holds when the loop,
    under the registry lock, looks at them: each such peer once, and no other
    peer.  The map afterwards holds, for every id, the peer sent to or the
    peer untouched. *)
Theorem broadcast_nal_sends_to_connected_peers size ts throws s :
  let r := WebRtcServer.broadcast_nal size ts throws s in
  NoDup (fst r)
  /\ (forall pid, pid ∈ fst r <->
        exists p, WebRtcServer.peers_ s !! pid = Some p
                  /\ PeerConnection.is_connected p = true)
  /\ (forall pid,
        WebRtcServer.peers_ (snd r) !! pid
        = (fun p => if PeerConnection.is_connected p
                    then PeerConnection.send_h264_nal size ts (throws pid) p else p)
          <$> WebRtcServer.peers_ s !! pid).
Proof.
  intros r. subst r. split; [|split].
  - rewrite broadcast_nal_calls.
    eapply sublist_NoDup; [apply (NoDup_fst_map_to_list (WebRtcServer.peers_ s))|].
    apply fmap_sublist, sublist_filter.
  - intros pid. rewrite broadcast_nal_calls, list_elem_of_fmap. split.
    + intros [[k v] [-> Hin]]. apply list_elem_of_filter in Hin as [Hc Hin].
      apply elem_of_map_to_list in Hin. simpl in *. eauto.
    + intros [p [Hp Hc]]. exists (pid, p). split; [done|].
      apply list_elem_of_filter. split; [done|]. by apply elem_of_map_to_list.
  - intros pid. apply broadcast_nal_lookup.
Qed.

Example broadcast_to_two_viewers :
  let r := WebRtcServer.broadcast_nal 1200 1000000 (fun _ => false)
             (WebRtcServer.srv two_viewers) in
  fst r = ["peer-00000001"%string]
  /\ (PeerConnection.rtp_timestamp <$>
        WebRtcServer.peers_ (snd r) !! "peer-00000001"%string) = Some 90000
  /\ (PeerConnection.bytes_sent <$> (PeerConnection.stats_ <$>
        WebRtcServer.peers_ (snd r) !! "peer-00000001"%string)) = Some 1200
  /\ WebRtcServer.peers_ (snd r) !! "peer-00000002"%string
     = WebRtcServer.peers_ (WebRtcServer.srv two_viewers) !! "peer-00000002"%string.
Proof. vm_compute. repeat split; reflexivity. Qed.

Lemma handle_answer_ssrc p :
  PeerConnection.ssrc_ (PeerConnection.handle_answer p) = PeerConnection.ssrc_ p.
Proof. reflexivity. Qed.

Lemma apply_event_ssrc e p :
  PeerConnection.ssrc_ (WebRtcServer.apply_event e p) = PeerConnection.ssrc_ p.
Proof. destruct e; reflexivity. Qed.

(** Every operation of the registry other than [create_peer] only keeps or
    drops entries, never changes an SSRC, and leaves the counter alone. *)
Lemma run_op_keeps w o :
  is_create o = false ->
  keeps (peers_of (WebRtcServer.run_op w o)) (peers_of w)
  /\ WebRtcServer.next_ssrc_ (WebRtcServer.run_op w o) = WebRtcServer.next_ssrc_ w.
Proof.
  intros Hc. destruct o as [rnd env|pid|pid|size ts throws| | | |pid e];
    try discriminate; (split; [|reflexivity]); unfold peers_of;
    cbn [WebRtcServer.run_op WebRtcServer.with_srv WebRtcServer.srv].
  - unfold WebRtcServer.handle_answer.
    destruct (WebRtcServer.peers_ (WebRtcServer.srv w) !! pid) as [p|] eqn:E;
      [|apply keeps_refl].
    simpl. intros k p' Hk. destruct (decide (pid = k)) as [->|Hne].
    + rewrite lookup_insert_eq in Hk. inversion Hk; subst. eauto.
    + rewrite lookup_insert_ne in Hk by done. eauto.
  - unfold WebRtcServer.remove_peer.
    destruct (WebRtcServer.peers_ (WebRtcServer.srv w) !! pid) as [p|] eqn:E;
      [|apply keeps_refl].
    simpl. intros k p' Hk. apply lookup_delete_Some in Hk as [_ Hk]. eauto.
  - intros k p' Hk. rewrite broadcast_nal_lookup in Hk.
    destruct (WebRtcServer.peers_ (WebRtcServer.srv w) !! k) as [p|]; [|discriminate].
    simpl in Hk. inversion Hk; subst. exists p. split; [reflexivity|].
    destruct (PeerConnection.is_connected p); [apply send_h264_nal_ssrc|reflexivity].
  - simpl. intros k p' Hk. apply map_lookup_filter_Some in Hk as [Hk _]. eauto.
  - apply keeps_refl.
  - simpl. intros k p' Hk. rewrite lookup_empty in Hk. discriminate.
  - simpl. intros k p' Hk. apply lookup_alter_Some in Hk as [[-> [p [Hp ->]]]|[_ Hk]].
    + exists p. split; [exact Hp|apply apply_event_ssrc].
    + eauto.
Qed.

Lemma create_peer_config rnd env s n :
  WebRtcServer.config_ (snd (fst (WebRtcServer.create_peer rnd env s n)))
  = WebRtcServer.config_ s.
Proof.
  unfold WebRtcServer.create_peer.
  destruct (_ >=? _); [reflexivity|]. destruct env; reflexivity.
Qed.

Lemma run_op_config w o :
  WebRtcServer.config_ (WebRtcServer.srv (WebRtcServer.run_op w o))
  = WebRtcServer.config_ (WebRtcServer.srv w).
Proof.
  destruct o as [rnd env|pid|pid|size ts throws| | | |pid e]; simpl; try reflexivity.
  - pose proof (create_peer_config rnd env (WebRtcServer.srv w) (WebRtcServer.next_ssrc_ w)) as H.
    destruct (WebRtcServer.create_peer _ _ _ _) as [[r s'] n']. exact H.
  - unfold WebRtcServer.handle_answer. destruct (_ !! _); reflexivity.
  - unfold WebRtcServer.remove_peer. destruct (_ !! _); reflexivity.
Qed.

Lemma run_config ops : forall w,
  WebRtcServer.config_ (WebRtcServer.srv (WebRtcServer.run ops w))
  = WebRtcServer.config_ (WebRtcServer.srv w).
Proof.
  induction ops as [|o ops IH]; intros w; [reflexivity|].
  unfold WebRtcServer.run in *. simpl. rewrite IH. apply run_op_config.
Qed.

(** *** The cap *)

Lemma create_peer_refuses rnd env s n :
  Z.of_nat (size (WebRtcServer.peers_ s)) = max_peers (webrtc (WebRtcServer.config_ s)) ->
  max_peers (webrtc (WebRtcServer.config_ s)) <= INT_MAX ->
  WebRtcServer.create_peer rnd env s n = (EmptyString, s, n).
Proof.
  intros Heq Hmax. unfold WebRtcServer.create_peer.
  rewrite to_int_small by (unfold int_range, INT_MIN, INT_MAX in *; lia).
  rewrite Heq. destruct (_ >=? _) eqn:E; [reflexivity|]. lia.
Qed.

Lemma run_op_cap w o :
  0 <= max_peers_of w <= INT_MAX ->
  Z.of_nat (size (peers_of w)) <= max_peers_of w ->
  Z.of_nat (size (peers_of (WebRtcServer.run_op w o))) <= max_peers_of w.
Proof.
  intros Hmax Hinv. destruct (is_create o) eqn:Hc.
  - destruct o as [rnd env| | | | | | | ]; try discriminate. clear Hc.
    unfold peers_of, max_peers_of in *. simpl. unfold WebRtcServer.create_peer.
    rewrite to_int_small by (unfold int_range, INT_MIN, INT_MAX in *; lia).
    destruct (_ >=? _) eqn:E; [exact Hinv|].
    destruct env as [what|ts0]; simpl; [exact Hinv|].
    rewrite map_size_insert.
    destruct (WebRtcServer.peers_ (WebRtcServer.srv w) !! _); simpl; lia.
  - destruct (run_op_keeps w o Hc) as [Hk _]. apply keeps_size in Hk. lia.
Qed.

Lemma run_cap ops : forall w,
  0 <= max_peers_of w <= INT_MAX ->
  Z.of_nat (size (peers_of w)) <= max_peers_of w ->
  Z.of_nat (size (peers_of (WebRtcServer.run ops w))) <= max_peers_of w.
Proof.
  induction ops as [|o ops IH]; intros w Hmax Hinv; [exact Hinv|].
  unfold WebRtcServer.run in *. simpl.
  assert (Hcfg : max_peers_of (WebRtcServer.run_op w o) = max_peers_of w).
  { unfold max_peers_of. by rewrite run_op_config. }
  rewrite <-Hcfg. apply IH; rewrite Hcfg; [exact Hmax|]. by apply run_op_cap.
Qed.

(** C2.  For a configured [max_peers] that is a non-negative [int]: after
    every sequence of operations on the registry, started empty, the peer map
    satisfies [|peers| <= max_peers]; and every call of [create_peer] made
    while [|peers| = max_peers] returns the empty string and leaves the peer
    map (the whole server, and the SSRC counter) unchanged. *)
Theorem peers_never_exceed_max_peers config ops :
  0 <= max_peers (webrtc config) <= INT_MAX ->
  let w := WebRtcServer.run ops (WebRtcServer.init config) in
  Z.of_nat (size (WebRtcServer.peers_ (WebRtcServer.srv w))) <= max_peers (webrtc config)
  /\ forall rnd env,
       Z.of_nat (size (WebRtcServer.peers_ (WebRtcServer.srv w))) = max_peers (webrtc config) ->
       WebRtcServer.create_peer rnd env (WebRtcServer.srv w) (WebRtcServer.next_ssrc_ w)
       = (EmptyString, WebRtcServer.srv w, WebRtcServer.next_ssrc_ w).
Proof.
  intros Hmax w. subst w. split.
  - apply (run_cap ops (WebRtcServer.init config)); unfold max_peers_of, peers_of; simpl.
    + exact Hmax.
    + rewrite map_size_empty. lia.
  - intros rnd env Heq. apply create_peer_refuses; rewrite run_config; simpl; [exact Heq|lia].
Qed.

Lemma peers_never_exceed_max_peers_witness :
  Z.of_nat (size (WebRtcServer.peers_ (WebRtcServer.srv
     (WebRtcServer.run five_viewers (WebRtcServer.init default_config))))) <= 4.
Proof.
  apply (peers_never_exceed_max_peers default_config five_viewers).
  unfold INT_MAX. simpl. lia.
Defined.

Example five_viewers_four_admitted :
  size (WebRtcServer.peers_ (WebRtcServer.srv
          (WebRtcServer.run five_viewers (WebRtcServer.init default_config)))) = 4%nat
  /\ WebRtcServer.next_ssrc_
       (WebRtcServer.run five_viewers (WebRtcServer.init default_config)) = 46.
Proof. vm_compute. split; reflexivity. Qed.

(** *** SSRCs *)

Lemma constructs_not_create w o : is_create o = false -> WebRtcServer.constructs w o = false.
Proof. destruct o; simpl; intros; try reflexivity; discriminate. Qed.

Lemma run_op_ssrc w o :
  ssrc_inv w ->
  PeerConnection.next_ssrc_init <= WebRtcServer.next_ssrc_ w ->
  WebRtcServer.next_ssrc_ w + bump (WebRtcServer.constructs w o) < two32 ->
  ssrc_inv (WebRtcServer.run_op w o)
  /\ WebRtcServer.next_ssrc_ (WebRtcServer.run_op w o)
     = WebRtcServer.next_ssrc_ w + bump (WebRtcServer.constructs w o).
Proof.
  intros [Hrange Hinj] Hlo Hhi. destruct (is_create o) eqn:Hc.
  - destruct o as [rnd env| | | | | | | ]; try discriminate. clear Hc.
    unfold ssrc_inv, peers_of in *. simpl in *. unfold WebRtcServer.create_peer.
    destruct (_ >=? _) eqn:E; simpl in *.
    { split; [split; assumption|unfold bump; lia]. }
    unfold PeerConnection.next_ssrc_init, bump in *.
    assert (Hn : to_uint32 (WebRtcServer.next_ssrc_ w + 1) = WebRtcServer.next_ssrc_ w + 1).
    { apply to_uint32_small. lia. }
    destruct env as [what|ts0]; simpl; rewrite Hn.
    + split; [|reflexivity]. split; [|exact Hinj].
      intros k p Hk. specialize (Hrange k p Hk). lia.
    + split; [|reflexivity]. split.
      * intros k p Hk. apply lookup_insert_Some in Hk as [[_ <-]|[_ Hk]]; simpl.
        -- lia.
        -- specialize (Hrange k p Hk). lia.
      * intros k1 k2 p1 p2 H1 H2 Hne.
        apply lookup_insert_Some in H1 as [[E1 <-]|[N1 H1]];
          apply lookup_insert_Some in H2 as [[E2 <-]|[N2 H2]]; simpl.
        -- congruence.
        -- specialize (Hrange k2 p2 H2). lia.
        -- specialize (Hrange k1 p1 H1). lia.
        -- eauto.
  - destruct (run_op_keeps w o Hc) as [Hk Hn].
    rewrite (constructs_not_create w o Hc). unfold bump. rewrite Hn. split; [|lia].
    split.
    + intros k p' Hp'. destruct (Hk _ _ Hp') as [p [Hp Hs]]. rewrite Hn, Hs. eauto.
    + intros k1 k2 p1 p2 H1 H2 Hne.
      destruct (Hk _ _ H1) as [q1 [Hq1 ->]]. destruct (Hk _ _ H2) as [q2 [Hq2 ->]]. eauto.
Qed.

Lemma run_ssrc ops : forall w,
  ssrc_inv w ->
  PeerConnection.next_ssrc_init <= WebRtcServer.next_ssrc_ w ->
  WebRtcServer.next_ssrc_ w + Z.of_nat (WebRtcServer.constructions ops w) < two32 ->
  ssrc_inv (WebRtcServer.run ops w)
  /\ WebRtcServer.next_ssrc_ (WebRtcServer.run ops w)
     = WebRtcServer.next_ssrc_ w + Z.of_nat (WebRtcServer.constructions ops w).
Proof.
  induction ops as [|o ops IH]; intros w Hinv Hlo Hhi.
  - simpl. split; [exact Hinv|lia].
  - unfold WebRtcServer.run in *. simpl in *.
    assert (Hb : Z.of_nat (if WebRtcServer.constructs w o then 1 else 0)%nat
                 = bump (WebRtcServer.constructs w o)).
    { destruct (WebRtcServer.constructs w o); reflexivity. }
    rewrite Nat2Z.inj_add, Hb in *.
    assert (0 <= bump (WebRtcServer.constructs w o)).
    { unfold bump. destruct (WebRtcServer.constructs w o); lia. }
    destruct (run_op_ssrc w o Hinv Hlo) as [Hinv' Hn']; [lia|].
    destruct (IH (WebRtcServer.run_op w o) Hinv') as [Hinv'' Hn'']; [lia|lia|].
    split; [exact Hinv''|]. lia.
Qed.

Lemma init_ssrc_inv config : ssrc_inv (WebRtcServer.init config).
Proof.
  split; unfold peers_of; simpl.
  - intros k p H. rewrite lookup_empty in H. discriminate.
  - intros k1 k2 p1 p2 H. rewrite lookup_empty in H. discriminate.
Qed.

(** One construction takes the current value of the counter and stores the
    next one modulo 2^32. *)
Lemma new_ssrc pid ts0 n :
  PeerConnection.new pid (PeerConnection.SetupOk ts0) n
  = (inr {| PeerConnection.peer_id_ := pid; PeerConnection.ssrc_ := n;
            PeerConnection.video_track_ := Some {| PeerConnection.isOpen := false |};
            PeerConnection.rtp_timestamp := to_uint32 ts0;
            PeerConnection.needs_keyframe_ := true;
            PeerConnection.connected_ := false; PeerConnection.closed_ := false;
            PeerConnection.stats_ := {| PeerConnection.rtp_packets_sent := 0;
                                        PeerConnection.bytes_sent := 0;
                                        PeerConnection.state := "new" |} |},
     to_uint32 (n + 1)).
Proof. reflexivity. Qed.

(** C6, as the code has it.  The process-wide SSRC counter starts at 42;
    each construction takes its current value and stores the next one modulo
    2^32.  In every run with fewer than 2^32 - 42 constructions the counter
    has grown by one with each of them, and any two peers that live in the
    registry under different ids have different SSRCs. *)
Theorem ssrc_distinct_before_wrap config ops :
  Z.of_nat (WebRtcServer.constructions ops (WebRtcServer.init config)) < two32 - 42 ->
  let w := WebRtcServer.run ops (WebRtcServer.init config) in
  WebRtcServer.next_ssrc_ (WebRtcServer.init config) = 42
  /\ WebRtcServer.next_ssrc_ w
     = 42 + Z.of_nat (WebRtcServer.constructions ops (WebRtcServer.init config))
  /\ (forall pid env,
        snd (PeerConnection.new pid env (WebRtcServer.next_ssrc_ w))
        = (WebRtcServer.next_ssrc_ w + 1) mod two32)
  /\ (forall a b pa pb,
        WebRtcServer.peers_ (WebRtcServer.srv w) !! a = Some pa ->
        WebRtcServer.peers_ (WebRtcServer.srv w) !! b = Some pb ->
        a <> b -> PeerConnection.ssrc_ pa <> PeerConnection.ssrc_ pb).
Proof.
  intros Hlt w. subst w.
  destruct (run_ssrc ops (WebRtcServer.init config) (init_ssrc_inv config)) as [[_ Hinj] Hn].
  - simpl. unfold PeerConnection.next_ssrc_init. lia.
  - simpl. unfold PeerConnection.next_ssrc_init. lia.
  - split; [reflexivity|]. split; [exact Hn|]. split.
    + intros pid env. destruct env; reflexivity.
    + exact Hinj.
Qed.

Lemma ssrc_distinct_before_wrap_witness :
  WebRtcServer.next_ssrc_ (WebRtcServer.run five_viewers (WebRtcServer.init default_config))
  = 42 + Z.of_nat (WebRtcServer.constructions five_viewers (WebRtcServer.init default_config)).
Proof.
  apply (ssrc_distinct_before_wrap default_config five_viewers).
  vm_compute. reflexivity.
Defined.

(** *** The wrap *)

Lemma churn_fixed rnd w :
  peers_of w !! WebRtcServer.generate_peer_id rnd = None ->
  to_int (Z.of_nat (size (peers_of w))) < max_peers_of w ->
  WebRtcServer.churn rnd w
  = {| WebRtcServer.srv := WebRtcServer.srv w;
       WebRtcServer.next_ssrc_ := to_uint32 (WebRtcServer.next_ssrc_ w + 1) |}.
Proof.
  intros Hfree Hroom. unfold WebRtcServer.churn, peers_of, max_peers_of in *.
  simpl. unfold WebRtcServer.create_peer.
  destruct (_ >=? _) eqn:E; [lia|]. simpl.
  unfold WebRtcServer.remove_peer. simpl. rewrite lookup_insert_eq. simpl.
  rewrite delete_insert_eq, delete_id by exact Hfree.
  destruct w as [[c m r] n]. reflexivity.
Qed.

Lemma churn_iter rnd n : forall w,
  peers_of w !! WebRtcServer.generate_peer_id rnd = None ->
  to_int (Z.of_nat (size (peers_of w))) < max_peers_of w ->
  N.iter n (WebRtcServer.churn rnd) w
  = {| WebRtcServer.srv := WebRtcServer.srv w;
       WebRtcServer.next_ssrc_ :=
         if (n =? 0)%N then WebRtcServer.next_ssrc_ w
         else to_uint32 (WebRtcServer.next_ssrc_ w + Z.of_N n) |}.
Proof.
  induction n as [|n IH] using N.peano_ind; intros w Hfree Hroom.
  - simpl. destruct w. reflexivity.
  - rewrite N.iter_succ. rewrite (IH w Hfree Hroom).
    rewrite churn_fixed; [|exact Hfree|exact Hroom].
    simpl. f_equal.
    destruct (N.eqb_spec (N.succ n) 0) as [E|_]; [lia|].
    destruct (N.eqb_spec n 0) as [E0|_].
    + rewrite E0. reflexivity.
    + unfold to_uint32, two32. rewrite N2Z.inj_succ.
      rewrite Zplus_mod_idemp_l. f_equal. lia.
Qed.

(** C6, as the spec words it, fails at the wrap of the 32-bit counter.  One
    viewer connects (SSRC 42) and stays; 2^32 - 1 viewers connect and leave;
    the next viewer is given SSRC 42 again, and both are in the registry.
    The construction that reads 4294967295 stores 0, which is not larger. *)
Lemma ssrc_counter_wraps_counterexample :
  (exists pa pb,
     WebRtcServer.peers_ (WebRtcServer.srv wrap_world) !! "peer-00000001"%string = Some pa
     /\ WebRtcServer.peers_ (WebRtcServer.srv wrap_world) !! "peer-00000002"%string = Some pb
     /\ "peer-00000001"%string <> "peer-00000002"%string
     /\ PeerConnection.ssrc_ pa = 42 /\ PeerConnection.ssrc_ pb = 42)
  /\ snd (PeerConnection.new "peer-00000003" setup_ok 4294967295) = 0.
Proof.
  split; [|reflexivity].
  unfold wrap_world. cbv zeta. rewrite churn_iter.
  - vm_compute. eexists. eexists. repeat split; try reflexivity. discriminate.
  - vm_compute. reflexivity.
  - vm_compute. reflexivity.
Qed.

Lemma generate_peer_id_nonempty rnd : WebRtcServer.generate_peer_id rnd <> EmptyString.
Proof. unfold WebRtcServer.generate_peer_id. simpl. discriminate. Qed.

(** C10.  When the constructor of the peer throws, [create_peer] catches the
    exception, returns the empty string and leaves the server, hence the peer
    map, as it was.  That is the very value returned on admission refusal, and
    [on_client_connected] treats both alike, whatever the socket does: the
    warning, the "Server full" error, and then the close unless sending the
    error threw.  The caller cannot tell a failed construction from a full
    map. *)
Theorem create_peer_constructor_failure_looks_like_refusal rnd what s n :
  let r := WebRtcServer.create_peer rnd (PeerConnection.SetupThrows what) s n in
  fst (fst r) = EmptyString
  /\ snd (fst r) = s
  /\ (forall send_throws w,
        fst (SignalingServer.on_client_connected rnd (PeerConnection.SetupThrows what)
               send_throws w)
        = SignalingServer.LogWarnRejected
            :: SignalingServer.WsSend SignalingServer.reject_message
            :: (if send_throws then [] else [SignalingServer.WsClose]))
  /\ (forall env send_throws full,
        Z.of_nat (size (WebRtcServer.peers_ (WebRtcServer.srv full)))
        = max_peers (webrtc (WebRtcServer.config_ (WebRtcServer.srv full))) ->
        max_peers (webrtc (WebRtcServer.config_ (WebRtcServer.srv full))) <= INT_MAX ->
        fst (fst (WebRtcServer.create_peer rnd env (WebRtcServer.srv full)
                    (WebRtcServer.next_ssrc_ full))) = fst (fst r)
        /\ snd (fst (WebRtcServer.create_peer rnd env (WebRtcServer.srv full)
                       (WebRtcServer.next_ssrc_ full))) = WebRtcServer.srv full
        /\ fst (SignalingServer.on_client_connected rnd env send_throws full)
           = fst (SignalingServer.on_client_connected rnd (PeerConnection.SetupThrows what)
                    send_throws full)
        /\ fst (SignalingServer.on_client_connected rnd env send_throws full)
           = SignalingServer.LogWarnRejected
               :: SignalingServer.WsSend SignalingServer.reject_message
               :: (if send_throws then [] else [SignalingServer.WsClose])).
Proof.
  intros r.
  assert (Hr : fst (fst r) = EmptyString /\ snd (fst r) = s).
  { subst r. unfold WebRtcServer.create_peer. destruct (_ >=? _); split; reflexivity. }
  assert (Hthrows : forall send_throws w,
            fst (SignalingServer.on_client_connected rnd (PeerConnection.SetupThrows what)
                   send_throws w)
            = SignalingServer.LogWarnRejected
                :: SignalingServer.WsSend SignalingServer.reject_message
                :: (if send_throws then [] else [SignalingServer.WsClose])).
  { intros send_throws w. unfold SignalingServer.on_client_connected, WebRtcServer.create_peer.
    destruct (_ >=? _); reflexivity. }
  destruct Hr as [Hr1 Hr2]. split; [exact Hr1|]. split; [exact Hr2|]. split.
  - exact Hthrows.
  - intros env send_throws full Hfull Hmax. rewrite Hr1, Hthrows.
    unfold SignalingServer.on_client_connected.
    rewrite (create_peer_refuses rnd env _ _ Hfull Hmax). repeat split; reflexivity.
Qed.

(** ** RtspPipeline: the worker *)

Lemma build_pipeline_frame build o s :
  let s' := match RtspPipeline.build_pipeline build o s with inl x => x | inr x => x end in
  RtspPipeline.config_ s' = RtspPipeline.config_ s
  /\ RtspPipeline.thread_ s' = RtspPipeline.thread_ s
  /\ RtspPipeline.running_ s' = RtspPipeline.running_ s
  /\ RtspPipeline.stop_requested_ s' = RtspPipeline.stop_requested_ s
  /\ RtspPipeline.stats_ s' = RtspPipeline.stats_ s.
Proof.
  unfold RtspPipeline.build_pipeline. destruct o.
  - destruct (RtspPipeline.gst_bin_get_by_name _ _); simpl; repeat split.
  - simpl. repeat split.
Qed.

(** The cases of one worker step, for a field that no step writes. *)
Ltac worker_step_frame build i s :=
  unfold RtspPipeline.worker_step;
  destruct (RtspPipeline.thread_ s) as [[| | | | | |?|]|]; try reflexivity;
  [ destruct (RtspPipeline.stop_requested_ s) eqn:?; simpl; auto
  | pose proof (build_pipeline_frame build (RtspPipeline.parse i) s);
    destruct (RtspPipeline.build_pipeline build (RtspPipeline.parse i) s);
    simpl in *; tauto
  | destruct (RtspPipeline.play_fails i); reflexivity
  | destruct (RtspPipeline.stop_requested_ s) eqn:?; simpl; auto;
    destruct (RtspPipeline.bus i) as [m|]; [destruct (RtspPipeline.is_fault m)|];
    simpl; auto
  | destruct (RtspPipeline.stop_requested_ s) eqn:?; simpl; auto
  | destruct (RtspPipeline.stop_requested_ s) eqn:?; simpl; auto
  | destruct (_ && _); reflexivity ].

(** The stop flag is only read by the worker. *)
Lemma worker_step_stop_requested build i s :
  RtspPipeline.stop_requested_ (RtspPipeline.worker_step build i s)
  = RtspPipeline.stop_requested_ s.
Proof.
  worker_step_frame build i s.
Qed.

Lemma worker_step_config build i s :
  RtspPipeline.config_ (RtspPipeline.worker_step build i s) = RtspPipeline.config_ s.
Proof.
  worker_step_frame build i s.
Qed.

(** While no stop is requested the worker never leaves its loop, whatever
    the configuration says (in particular [reconnect_max_attempts]). *)
Lemma worker_step_keeps_going build i s p :
  RtspPipeline.stop_requested_ s = false ->
  RtspPipeline.thread_ s = Some p -> p <> RtspPipeline.Done ->
  exists p', RtspPipeline.thread_ (RtspPipeline.worker_step build i s) = Some p'
             /\ p' <> RtspPipeline.Done.
Proof.
  intros Hs Ht Hp. unfold RtspPipeline.worker_step. rewrite Ht, Hs.
  destruct p as [| | | | | |e|]; try congruence.
  - eexists; split; [reflexivity|discriminate].
  - destruct (RtspPipeline.build_pipeline _ _ _); eexists; (split; [reflexivity|discriminate]).
  - destruct (RtspPipeline.play_fails i); eexists; (split; [reflexivity|discriminate]).
  - destruct (RtspPipeline.bus i) as [m|]; [destruct (RtspPipeline.is_fault m)|];
      eexists; (split; [reflexivity|discriminate]).
  - eexists; split; [reflexivity|discriminate].
  - eexists; split; [reflexivity|discriminate].
  - destruct (_ && _); eexists; (split; [reflexivity|discriminate]).
Qed.

Lemma worker_run_keeps_going build inputs : forall s p,
  RtspPipeline.stop_requested_ s = false ->
  RtspPipeline.thread_ s = Some p -> p <> RtspPipeline.Done ->
  exists p', RtspPipeline.thread_ (RtspPipeline.worker_run build inputs s) = Some p'
             /\ p' <> RtspPipeline.Done.
Proof.
  induction inputs as [|i inputs IH]; intros s p Hs Ht Hp.
  - exists p. split; assumption.
  - unfold RtspPipeline.worker_run in *. simpl.
    destruct (worker_step_keeps_going build i s p Hs Ht Hp) as [p' [Ht' Hp']].
    apply (IH _ p'); [|assumption|assumption].
    rewrite worker_step_stop_requested. exact Hs.
Qed.

(** Once the stop flag is up, each step brings the worker closer to its
    exit, and [running_] is false whenever it is outside the bus loop. *)
Lemma worker_step_winds_down build i s p :
  RtspPipeline.stop_requested_ s = true ->
  RtspPipeline.thread_ s = Some p ->
  running_settled s ->
  exists p', RtspPipeline.thread_ (RtspPipeline.worker_step build i s) = Some p'
             /\ (steps_to_exit p' <= Nat.pred (steps_to_exit p))%nat
             /\ running_settled (RtspPipeline.worker_step build i s).
Proof.
  intros Hs Ht Hr. unfold running_settled in *. unfold RtspPipeline.worker_step.
  rewrite Ht in *. rewrite Hs.
  destruct p as [| | | | | |e|]; simpl in *.
  - eexists; split; [reflexivity|]. split; [simpl; lia|exact Hr].
  - pose proof (build_pipeline_frame build (RtspPipeline.parse i) s) as H.
    destruct (RtspPipeline.build_pipeline build (RtspPipeline.parse i) s) as [s'|s'];
      simpl in *; eexists; (split; [reflexivity|]); (split; [simpl; lia|]);
      destruct H as (_ & _ & Hrun & _); congruence.
  - destruct (RtspPipeline.play_fails i); eexists; (split; [reflexivity|]);
      (split; [simpl; lia|]); simpl; auto.
  - eexists; split; [reflexivity|]. split; [simpl; lia|]. simpl. exact I.
  - eexists; split; [reflexivity|]. split; [simpl; lia|]. reflexivity.
  - eexists; split; [reflexivity|]. split; [simpl; lia|]. exact Hr.
  - rewrite andb_false_r. eexists; split; [reflexivity|]. split; [simpl; lia|]. exact Hr.
  - exists RtspPipeline.Done. split; [exact Ht|]. split; [simpl; lia|].
    rewrite Ht. exact Hr.
Qed.

Lemma worker_finish_exits build env n : forall k s p,
  RtspPipeline.stop_requested_ s = true ->
  RtspPipeline.thread_ s = Some p ->
  running_settled s ->
  (steps_to_exit p <= n)%nat ->
  let s' := RtspPipeline.worker_finish build env k n s in
  RtspPipeline.thread_ s' = Some RtspPipeline.Done
  /\ RtspPipeline.running_ s' = false
  /\ RtspPipeline.stop_requested_ s' = true
  /\ RtspPipeline.config_ s' = RtspPipeline.config_ s.
Proof.
  induction n as [|n IH]; intros k s p Hs Ht Hr Hn; simpl.
  - destruct p; simpl in Hn; try lia.
    unfold running_settled in Hr. rewrite Ht in Hr. repeat split; assumption.
  - destruct (worker_step_winds_down build (env k) s p Hs Ht Hr) as [p' [Ht' [Hd Hr']]].
    destruct (IH (S k) (RtspPipeline.worker_step build (env k) s) p')
      as (H1 & H2 & H3 & H4); try assumption.
    + rewrite worker_step_stop_requested. exact Hs.
    + lia.
    + rewrite worker_step_config in H4. repeat split; assumption.
Qed.

Lemma steps_to_exit_bound p : (steps_to_exit p <= RtspPipeline.join_steps)%nat.
Proof. destruct p; unfold RtspPipeline.join_steps; simpl; lia. Qed.

(** ** RtspPipeline: stop *)

Lemma join_joins build env s :
  RtspPipeline.stop_requested_ s = true ->
  RtspPipeline.running_ s = false ->
  let s' := RtspPipeline.join build env s in
  RtspPipeline.thread_ s' = None
  /\ RtspPipeline.running_ s' = false
  /\ RtspPipeline.stop_requested_ s' = true.
Proof.
  intros Hs Hr. unfold RtspPipeline.join.
  destruct (RtspPipeline.thread_ s) as [p|] eqn:Ht; simpl.
  - destruct (worker_finish_exits build env RtspPipeline.join_steps 0%nat s p)
      as (_ & H2 & H3 & _); try assumption.
    + unfold running_settled. rewrite Ht. destruct p; auto.
    + apply steps_to_exit_bound.
    + repeat split; assumption.
  - repeat split; assumption.
Qed.

Lemma stop_stopped build env s : stopped (RtspPipeline.stop build env s).
Proof.
  unfold RtspPipeline.stop.
  destruct (join_joins build env
              (RtspPipeline.set_running (RtspPipeline.set_stop_requested s true) false))
    as (H1 & H2 & H3); [reflexivity|reflexivity|].
  destruct (RtspPipeline.pipeline_ _) eqn:Hp; unfold stopped; simpl; repeat split; assumption.
Qed.

Lemma stop_of_stopped build env s : stopped s -> RtspPipeline.stop build env s = s.
Proof.
  intros (H1 & H2 & H3 & H4). destruct s; simpl in *; subst.
  reflexivity.
Qed.

(** C9.  From every pipeline state, [stop(); stop();] ends in the state that
    [stop();] ends in.  That state is terminal: the worker has returned from
    [pipeline_thread] and is joined (no joinable thread is left), the graph is
    released ([pipeline_] is null), and the pipeline is not running. *)
Theorem stop_twice_is_stop_once build env1 env2 s :
  RtspPipeline.stop build env2 (RtspPipeline.stop build env1 s)
  = RtspPipeline.stop build env1 s
  /\ RtspPipeline.thread_ (RtspPipeline.stop build env1 s) = None
  /\ RtspPipeline.pipeline_ (RtspPipeline.stop build env1 s) = None
  /\ RtspPipeline.is_running (RtspPipeline.stop build env1 s) = false
  /\ RtspPipeline.stop_requested_ (RtspPipeline.stop build env1 s) = true
  /\ (forall p, RtspPipeline.thread_ s = Some p ->
        RtspPipeline.thread_
          (RtspPipeline.worker_finish build env1 0 RtspPipeline.join_steps
             (RtspPipeline.set_running (RtspPipeline.set_stop_requested s true) false))
        = Some RtspPipeline.Done).
Proof.
  pose proof (stop_stopped build env1 s) as Hst.
  split; [apply stop_of_stopped; exact Hst|].
  destruct Hst as (H1 & H2 & H3 & H4).
  repeat (split; [assumption|]).
  intros p Hp.
  destruct (worker_finish_exits build env1 RtspPipeline.join_steps 0%nat
              (RtspPipeline.set_running (RtspPipeline.set_stop_requested s true) false) p)
    as (Hd & _); try reflexivity.
  - exact Hp.
  - unfold running_settled. simpl. rewrite Hp. destruct p; auto.
  - apply steps_to_exit_bound.
  - exact Hd.
Qed.

(** C3, at [reconnect_max_attempts = 1].  The source reaches PLAYING and ends
    (EOS) every time.  After three faults the worker has counted three
    reconnects, has not exited, and is building the graph a fourth time: the
    configured limit is not consulted. *)
Theorem supervisor_ignores_reconnect_max_attempts :
  let s := RtspPipeline.worker_run desktop (repeat source_ends 28)
             (started (camera_config false 1)) in
  reconnect_max_attempts (rtsp (RtspPipeline.config_ s)) = 1
  /\ RtspPipeline.reconnect_count (RtspPipeline.stats_ s) = 3
  /\ RtspPipeline.thread_ s = Some RtspPipeline.Building
  /\ RtspPipeline.stop_requested_ s = false.
Proof. vm_compute. repeat split; reflexivity. Qed.

(** ** RtspPipeline: set_bitrate *)

Lemma get_set_prop key v ps :
  RtspPipeline.get_prop key (RtspPipeline.set_prop key v ps) = Some v.
Proof.
  induction ps as [|[k v0] ps IH]; simpl.
  - rewrite String.eqb_refl. reflexivity.
  - destruct (String.eqb k key) eqn:E; simpl; rewrite E; [reflexivity|exact IH].
Qed.

Lemma clamp_code_spec k lo hi :
  lo <= hi -> Z.max lo (Z.min k hi) = Spec.clamp k lo hi.
Proof.
  intros H. unfold Spec.clamp.
  destruct (Z.ltb_spec k lo); [lia|]. destruct (Z.ltb_spec hi k); lia.
Qed.

Lemma clamp_range k lo hi : lo <= hi -> lo <= Spec.clamp k lo hi <= hi.
Proof.
  intros H. unfold Spec.clamp.
  destruct (Z.ltb_spec k lo); [lia|]. destruct (Z.ltb_spec hi k); lia.
Qed.

Lemma set_bitrate_not_running k s :
  RtspPipeline.running_ s = false -> RtspPipeline.set_bitrate k s = s.
Proof.
  intros H. unfold RtspPipeline.set_bitrate. rewrite H.
  destruct (RtspPipeline.encoder_ s); reflexivity.
Qed.

Lemma set_bitrate_no_encoder k s :
  RtspPipeline.encoder_ s = None -> RtspPipeline.set_bitrate k s = s.
Proof. intros H. unfold RtspPipeline.set_bitrate. rewrite H. reflexivity. Qed.

Lemma set_bitrate_running k s e g el :
  RtspPipeline.running_ s = true ->
  RtspPipeline.encoder_ s = Some e ->
  RtspPipeline.pipeline_ s = Some g ->
  g !! e = Some el ->
  RtspPipeline.encoder_bitrate (RtspPipeline.set_bitrate k s)
  = Some (let v := video (webrtc (RtspPipeline.config_ s)) in
          let clamped := Z.max (min_bitrate_kbps v) (Z.min k (max_bitrate_kbps v)) in
          if RtspPipeline.is_hw_encode_ s
          then to_uint32 (RtspPipeline.times_1000 clamped) else to_uint32 clamped).
Proof.
  intros Hr He Hp Hg. unfold RtspPipeline.set_bitrate, RtspPipeline.encoder_bitrate.
  rewrite He, Hr, Hp. simpl. rewrite He.
  rewrite list_lookup_alter_eq, Hg. simpl. apply get_set_prop.
Qed.

Lemma sink_found build c :
  exists k, RtspPipeline.gst_bin_get_by_name (RtspPipeline.pipeline_desc build c) "sink" = Some k.
Proof.
  unfold RtspPipeline.pipeline_desc.
  destruct (RtspPipeline.use_test_source build c), (passthrough (encoding c)),
    (RtspPipeline.JETSON_PLATFORM build), (hw_encode (encoding c)); simpl; eauto.
Qed.

Lemma bring_up_state build s0 :
  let s := bring_up build s0 in
  let desc := RtspPipeline.pipeline_desc build (RtspPipeline.config_ s0) in
  RtspPipeline.running_ s = true
  /\ RtspPipeline.config_ s = RtspPipeline.config_ s0
  /\ RtspPipeline.pipeline_ s = Some desc
  /\ RtspPipeline.encoder_ s = RtspPipeline.gst_bin_get_by_name desc "enc"
  /\ RtspPipeline.is_hw_encode_ s = RtspPipeline.is_hw_encode_after_desc build s0.
Proof.
  cbv zeta. destruct (sink_found build (RtspPipeline.config_ s0)) as [k Hk].
  unfold bring_up, RtspPipeline.worker_step. simpl.
  unfold RtspPipeline.build_pipeline. simpl. rewrite Hk. simpl. repeat split.
Qed.

Lemma encoder_by_mode build s0 :
  let c := RtspPipeline.config_ s0 in
  let desc := RtspPipeline.pipeline_desc build c in
  match RtspPipeline.mode build c with
  | RtspPipeline.TestSource | RtspPipeline.Passthrough =>
      RtspPipeline.gst_bin_get_by_name desc "enc" = None
  | RtspPipeline.ReencodeSW =>
      RtspPipeline.is_hw_encode_after_desc build s0 = false
      /\ exists e el, RtspPipeline.gst_bin_get_by_name desc "enc" = Some e
                      /\ desc !! e = Some el
  | RtspPipeline.ReencodeHW =>
      RtspPipeline.is_hw_encode_after_desc build s0 = true
      /\ exists e el, RtspPipeline.gst_bin_get_by_name desc "enc" = Some e
                      /\ desc !! e = Some el
  end.
Proof.
  unfold RtspPipeline.mode, RtspPipeline.pipeline_desc, RtspPipeline.is_hw_encode_after_desc.
  destruct (RtspPipeline.use_test_source build (RtspPipeline.config_ s0)),
    (passthrough (encoding (RtspPipeline.config_ s0))),
    (RtspPipeline.JETSON_PLATFORM build), (hw_encode (encoding (RtspPipeline.config_ s0)));
    simpl; eauto.
Qed.

(** C5.  For a configuration with [0 <= min <= max] and [max * 1000] within
    [int]: on the pipeline the worker has built and set PLAYING,
    [set_bitrate(k)] is a no-op in test and passthrough mode; in re-encode
    mode the encoder's bitrate becomes [clamp(k, min, max) * 1000] (bits/s)
    with the hardware encoder and [clamp(k, min, max)] (kbps) with the
    software encoder; and on any pipeline that is not running it is a no-op. *)
Theorem set_bitrate_clamps build s0 k :
  let v := video (webrtc (RtspPipeline.config_ s0)) in
  0 <= min_bitrate_kbps v <= max_bitrate_kbps v ->
  max_bitrate_kbps v * 1000 <= INT_MAX ->
  let s := bring_up build s0 in
  RtspPipeline.is_running s = true
  /\ match RtspPipeline.mode build (RtspPipeline.config_ s0) with
     | RtspPipeline.TestSource | RtspPipeline.Passthrough =>
         RtspPipeline.set_bitrate k s = s
     | RtspPipeline.ReencodeHW =>
         RtspPipeline.encoder_bitrate (RtspPipeline.set_bitrate k s)
         = Some (Spec.clamp k (min_bitrate_kbps v) (max_bitrate_kbps v) * 1000)
     | RtspPipeline.ReencodeSW =>
         RtspPipeline.encoder_bitrate (RtspPipeline.set_bitrate k s)
         = Some (Spec.clamp k (min_bitrate_kbps v) (max_bitrate_kbps v))
     end
  /\ (forall s', RtspPipeline.is_running s' = false -> RtspPipeline.set_bitrate k s' = s').
Proof.
  intros v Hmin Hmax s.
  destruct (bring_up_state build s0) as (Hrun & Hcfg & Hpipe & Henc & Hhw).
  fold s in Hrun, Hcfg, Hpipe, Henc, Hhw.
  split; [exact Hrun|]. split; [|intros s'; apply set_bitrate_not_running].
  pose proof (encoder_by_mode build s0) as Hmode. cbv zeta in Hmode.
  pose proof (clamp_range k _ _ (proj2 Hmin)) as Hcl.
  destruct (RtspPipeline.mode build (RtspPipeline.config_ s0)).
  - apply set_bitrate_no_encoder. congruence.
  - apply set_bitrate_no_encoder. congruence.
  - destruct Hmode as [Hsw (e & el & He & Hel)].
    rewrite (set_bitrate_running k s e _ el Hrun (eq_trans Henc He) Hpipe Hel).
    rewrite Hhw, Hsw, Hcfg. cbv zeta. fold v.
    rewrite clamp_code_spec by lia. rewrite to_uint32_small; [reflexivity|].
    unfold two32, INT_MAX in *. lia.
  - destruct Hmode as [Hsw (e & el & He & Hel)].
    rewrite (set_bitrate_running k s e _ el Hrun (eq_trans Henc He) Hpipe Hel).
    rewrite Hhw, Hsw, Hcfg. cbv zeta. fold v.
    rewrite clamp_code_spec by lia. unfold RtspPipeline.times_1000.
    rewrite to_int_small by (unfold int_range, INT_MIN, INT_MAX in *; lia).
    rewrite to_uint32_small; [reflexivity|]. unfold two32, INT_MAX in *. lia.
Qed.

Lemma set_bitrate_clamps_witness :
  RtspPipeline.encoder_bitrate (RtspPipeline.set_bitrate 12000 sw_pipeline) = Some 8000.
Proof.
  destruct (set_bitrate_clamps desktop (started (camera_config false 0)) 12000)
    as (_ & H & _).
  - simpl. lia.
  - simpl. unfold INT_MAX. lia.
  - exact H.
Defined.

Example bitrate_clamp_scenario :
  RtspPipeline.encoder_bitrate sw_pipeline = Some 4000
  /\ RtspPipeline.encoder_bitrate (RtspPipeline.set_bitrate 12000 sw_pipeline) = Some 8000
  /\ RtspPipeline.encoder_bitrate (RtspPipeline.set_bitrate 100 sw_pipeline) = Some 500
  /\ RtspPipeline.encoder_bitrate (RtspPipeline.set_bitrate 2000 sw_pipeline) = Some 2000
  /\ RtspPipeline.encoder_bitrate hw_pipeline = Some 4000000
  /\ RtspPipeline.encoder_bitrate (RtspPipeline.set_bitrate 12000 hw_pipeline) = Some 8000000.
Proof. vm_compute. repeat split; reflexivity. Qed.

(** No message makes the endpoint call the registered bitrate callback. *)
Lemma dispatch_never_invokes_bitrate_cb pid msg acts kbps :
  SignalingServer.dispatch pid msg = Some acts ->
  ~ In (SignalingServer.InvokeBitrateCb kbps) acts.
Proof.
  unfold SignalingServer.dispatch. intros H Hin.
  destruct (SignalingServer.value_string msg "type" EmptyString) as [type|]; [|discriminate].
  destruct (String.eqb type "answer").
  { destruct (SignalingServer.value_string msg "sdp" EmptyString) as [sdp|]; [|discriminate].
    destruct (RtspPipeline.string_empty sdp); inversion H; subst; simpl in Hin;
      intuition discriminate. }
  destruct (String.eqb type "candidate").
  { destruct (SignalingServer.value_json msg "data") as [data|]; [|discriminate].
    destruct (SignalingServer.value_string data "candidate" EmptyString) as [c|]; [|discriminate].
    destruct (SignalingServer.value_string data "sdpMid" "0") as [mid|]; [|discriminate].
    destruct (RtspPipeline.string_empty c); inversion H; subst; simpl in Hin;
      intuition discriminate. }
  destruct (String.eqb type "ping"); inversion H; subst; simpl in Hin; intuition discriminate.
Qed.

Lemma on_client_message_never_invokes_bitrate_cb pid parsed kbps :
  ~ In (SignalingServer.InvokeBitrateCb kbps) (SignalingServer.on_client_message pid parsed).
Proof.
  unfold SignalingServer.on_client_message. destruct parsed as [msg|].
  - destruct (SignalingServer.dispatch pid msg) as [acts|] eqn:E.
    + eapply dispatch_never_invokes_bitrate_cb. exact E.
    + simpl. intuition discriminate.
  - simpl. intuition discriminate.
Qed.

Lemma foldl_perform_id acts : forall p,
  (forall kbps, ~ In (SignalingServer.InvokeBitrateCb kbps) acts) ->
  foldl Main.perform p acts = p.
Proof.
  induction acts as [|a acts IH]; intros p H; [reflexivity|]. simpl.
  rewrite IH.
  - destruct a; try reflexivity. exfalso. apply (H kbps). left. reflexivity.
  - intros kbps Hin. apply (H kbps). right. exact Hin.
Qed.

(** Whatever frame arrives, the pipeline is left as it was. *)
Lemma receive_frame_leaves_pipeline pid parsed p : Main.receive_frame pid parsed p = p.
Proof.
  unfold Main.receive_frame. apply foldl_perform_id.
  intros kbps. apply on_client_message_never_invokes_bitrate_cb.
Qed.

(** C1, at the hint 12000 under [{min:500, max:8000, bitrate:4000}].  The
    frame [{"type":"bitrate","kbps":12000}] is handled as an unknown type:
    the only effect is the debug log, the registered callback is not called,
    and the encoder stays at 4000.  Had the callback been called with 12000,
    the pipeline would have set the encoder to 8000. *)
Theorem bitrate_hint_is_not_forwarded :
  SignalingServer.on_client_message "peer-0000002a" (Some (Main.bitrate_hint 12000))
  = [SignalingServer.LogDebugUnknownType "bitrate"]
  /\ RtspPipeline.encoder_bitrate sw_pipeline = Some 4000
  /\ RtspPipeline.encoder_bitrate
       (Main.receive_frame "peer-0000002a" (Some (Main.bitrate_hint 12000)) sw_pipeline)
     = Some 4000
  /\ RtspPipeline.encoder_bitrate
       (Main.perform sw_pipeline (SignalingServer.InvokeBitrateCb 12000)) = Some 8000.
Proof. vm_compute. repeat split; reflexivity. Qed.

(** ** PeerConnection: the life of one peer *)

Lemma send_h264_nal_closed p size ts throws :
  PeerConnection.closed_ (PeerConnection.send_h264_nal size ts throws p)
  = PeerConnection.closed_ p.
Proof.
  unfold PeerConnection.send_h264_nal.
  destruct (negb _ || negb _); [reflexivity|]. destruct throws; reflexivity.
Qed.

Lemma send_h264_nal_needs_keyframe p size ts throws :
  PeerConnection.needs_keyframe_ (PeerConnection.send_h264_nal size ts throws p)
  = PeerConnection.needs_keyframe_ p.
Proof.
  unfold PeerConnection.send_h264_nal.
  destruct (negb _ || negb _); [reflexivity|]. destruct throws; reflexivity.
Qed.

Lemma send_h264_nal_peer_id p size ts throws :
  PeerConnection.peer_id_ (PeerConnection.send_h264_nal size ts throws p)
  = PeerConnection.peer_id_ p.
Proof.
  unfold PeerConnection.send_h264_nal.
  destruct (negb _ || negb _); [reflexivity|]. destruct throws; reflexivity.
Qed.

Lemma apply_peer_op_closed p o :
  PeerConnection.is_closed p = true ->
  PeerConnection.is_closed (apply_peer_op p o) = true.
Proof.
  unfold PeerConnection.is_closed. intros H.
  destruct o as [[st| |]| | |size ts throws]; simpl; try assumption.
  - rewrite H. destruct (_ || _); reflexivity.
  - rewrite send_h264_nal_closed. exact H.
Qed.

(** X1. Once the state callback has reported Closed or Failed, [is_closed()]
    is true and stays true whatever follows on that peer: further state
    changes (Connected included), track callbacks, answers,
    [keyframe_sent()] and sends, successful or not.  Nothing in the class
    stores false into [closed_]. *)
Theorem closed_or_failed_is_never_undone st ops p :
  st = PeerConnection.Closed \/ st = PeerConnection.Failed ->
  PeerConnection.is_closed
    (foldl apply_peer_op (PeerConnection.on_state_change st p) ops) = true.
Proof.
  intros Hst.
  assert (H0 : PeerConnection.is_closed (PeerConnection.on_state_change st p) = true).
  { destruct Hst as [-> | ->]; reflexivity. }
  revert H0. generalize (PeerConnection.on_state_change st p).
  induction ops as [|o ops IH]; intros q Hq; simpl; [exact Hq|].
  apply IH. apply apply_peer_op_closed. exact Hq.
Qed.

Lemma closed_or_failed_is_never_undone_witness :
  PeerConnection.is_closed
    (foldl apply_peer_op
       (PeerConnection.on_state_change PeerConnection.Failed live_peer)
       [PeerCallback (WebRtcServer.StateChange PeerConnection.Connected);
        PeerSend 1200 33333 false; PeerAnswer]) = true.
Proof.
  apply (closed_or_failed_is_never_undone PeerConnection.Failed).
  right. reflexivity.
Defined.

Lemma to_uint64_add_l a b : to_uint64 (to_uint64 a + b) = to_uint64 (a + b).
Proof. unfold to_uint64, two64. apply Zplus_mod_idemp_l. Qed.

Lemma send_all_state nals : forall p,
  PeerConnection.connected_ p = true ->
  PeerConnection.track_open p = true ->
  let p' := send_all nals p in
  PeerConnection.connected_ p' = true
  /\ PeerConnection.track_open p' = true
  /\ PeerConnection.rtp_packets_sent (PeerConnection.stats_ p')
     = (if decide (nals = []) then PeerConnection.rtp_packets_sent (PeerConnection.stats_ p)
        else to_uint64 (PeerConnection.rtp_packets_sent (PeerConnection.stats_ p)
                        + Z.of_nat (length nals)))
  /\ PeerConnection.bytes_sent (PeerConnection.stats_ p')
     = (if decide (nals = []) then PeerConnection.bytes_sent (PeerConnection.stats_ p)
        else to_uint64 (PeerConnection.bytes_sent (PeerConnection.stats_ p) + sum_sizes nals)).
Proof.
  induction nals as [|[sz ts] nals IH]; intros p Hc Ho; simpl.
  - repeat split; assumption.
  - destruct (send_h264_nal_stats p sz ts Hc Ho) as [Hp Hb].
    destruct (IH (PeerConnection.send_h264_nal sz ts false p)) as (H1 & H2 & H3 & H4).
    + rewrite send_h264_nal_connected. exact Hc.
    + unfold PeerConnection.track_open in *. rewrite send_h264_nal_track. exact Ho.
    + unfold send_all in *. split; [exact H1|]. split; [exact H2|].
      rewrite H3, H4, Hp, Hb. clear H3 H4.
      destruct (decide (nals = [])) as [->|Hne]; simpl.
      * split; f_equal; lia.
      * rewrite !to_uint64_add_l. split; f_equal; lia.
Qed.

(** X2. After a non-empty run of successful sends on a connected peer with
    an open track, [get_stats()] reports the packet count grown by the
    number of sends and the byte count grown by the sum of the sizes, both
    modulo 2^64; the state string is unchanged. *)
Theorem sends_are_counted nals p :
  PeerConnection.is_connected p = true ->
  PeerConnection.track_open p = true ->
  nals <> [] ->
  let p' := send_all nals p in
  PeerConnection.rtp_packets_sent (PeerConnection.get_stats p')
  = (PeerConnection.rtp_packets_sent (PeerConnection.get_stats p)
     + Z.of_nat (length nals)) mod two64
  /\ PeerConnection.bytes_sent (PeerConnection.get_stats p')
     = (PeerConnection.bytes_sent (PeerConnection.get_stats p) + sum_sizes nals) mod two64
  /\ PeerConnection.state (PeerConnection.get_stats p')
     = PeerConnection.state (PeerConnection.get_stats p).
Proof.
  intros Hc Ho Hne p'. subst p'. unfold PeerConnection.is_connected in Hc.
  destruct (send_all_state nals p Hc Ho) as (_ & _ & H3 & H4).
  destruct (decide (nals = [])); [contradiction|].
  unfold PeerConnection.get_stats. split; [exact H3|]. split; [exact H4|].
  clear H3 H4 Hne n. revert p Hc Ho.
  induction nals as [|[sz ts] nals IH]; intros p Hc Ho; [reflexivity|].
  unfold send_all in *. simpl. rewrite IH.
  - unfold PeerConnection.send_h264_nal. rewrite Hc, Ho. reflexivity.
  - rewrite send_h264_nal_connected. exact Hc.
  - unfold PeerConnection.track_open in *. rewrite send_h264_nal_track. exact Ho.
Qed.

Lemma sends_are_counted_witness :
  PeerConnection.bytes_sent (PeerConnection.get_stats
    (send_all [(1200, 0); (800, 33333); (100, 66666)] live_peer)) = 2100.
Proof.
  destruct (sends_are_counted [(1200, 0); (800, 33333); (100, 66666)] live_peer)
    as (_ & H & _).
  - reflexivity.
  - reflexivity.
  - discriminate.
  - rewrite H. reflexivity.
Defined.

(** X3. When the track throws inside [send_h264_nal] on a connected peer
    with an open track, the exception is absorbed: the statistics are
    unchanged, the peer stays connected and is not marked closed, but the
    RTP timestamp of the packetizer has already been moved to that of the
    lost NAL. *)
Theorem failed_send_is_not_counted p size ts :
  PeerConnection.is_connected p = true ->
  PeerConnection.track_open p = true ->
  let p' := PeerConnection.send_h264_nal size ts true p in
  PeerConnection.get_stats p' = PeerConnection.get_stats p
  /\ PeerConnection.rtp_timestamp p' = PeerConnection.rtp_timestamp_of ts
  /\ PeerConnection.is_connected p' = true
  /\ PeerConnection.is_closed p' = PeerConnection.is_closed p.
Proof.
  intros Hc Ho. unfold PeerConnection.is_connected in *.
  unfold PeerConnection.send_h264_nal. rewrite Hc, Ho. simpl. repeat split. exact Hc.
Qed.

Lemma failed_send_is_not_counted_witness :
  PeerConnection.get_stats (PeerConnection.send_h264_nal 1200 33333 true live_peer)
  = PeerConnection.get_stats live_peer.
Proof.
  apply (failed_send_is_not_counted live_peer 1200 33333); reflexivity.
Defined.

(** ** WebRtcServer: the registry *)

Lemma apply_event_well_kept key e p : well_kept key p -> well_kept key (WebRtcServer.apply_event e p).
Proof.
  intros (H1 & H2 & H3). destruct e; unfold well_kept; simpl; repeat split; try assumption;
    discriminate.
Qed.

Lemma send_well_kept key size ts throws p :
  well_kept key p -> well_kept key (PeerConnection.send_h264_nal size ts throws p).
Proof.
  intros (H1 & H2 & H3). unfold well_kept.
  rewrite send_h264_nal_peer_id, send_h264_nal_track, send_h264_nal_needs_keyframe.
  repeat split; assumption.
Qed.

Lemma run_op_well_kept w o :
  (forall k p, peers_of w !! k = Some p -> well_kept k p) ->
  forall k p, peers_of (WebRtcServer.run_op w o) !! k = Some p -> well_kept k p.
Proof.
  intros Hinv k p. unfold peers_of in *.
  destruct o as [rnd env|pid|pid|size ts throws| | | |pid e];
    cbn [WebRtcServer.run_op WebRtcServer.with_srv WebRtcServer.srv].
  - unfold WebRtcServer.create_peer. destruct (_ >=? _); [apply Hinv|].
    destruct env as [what|ts0]; simpl; [apply Hinv|].
    intros Hk. apply lookup_insert_Some in Hk as [[<- <-]|[_ Hk]]; [|by apply Hinv].
    unfold well_kept. simpl. repeat split. discriminate.
  - unfold WebRtcServer.handle_answer.
    destruct (WebRtcServer.peers_ (WebRtcServer.srv w) !! pid) as [q|] eqn:E; [|apply Hinv].
    simpl. intros Hk. apply lookup_insert_Some in Hk as [[<- <-]|[_ Hk]]; [|by apply Hinv].
    destruct (Hinv _ _ E) as (H1 & H2 & H3). unfold well_kept. simpl. repeat split; assumption.
  - unfold WebRtcServer.remove_peer.
    destruct (WebRtcServer.peers_ (WebRtcServer.srv w) !! pid) as [q|] eqn:E; [|apply Hinv].
    simpl. intros Hk. apply lookup_delete_Some in Hk as [_ Hk]. by apply Hinv.
  - rewrite broadcast_nal_lookup.
    destruct (WebRtcServer.peers_ (WebRtcServer.srv w) !! k) as [q|] eqn:E; [|discriminate].
    simpl. intros Hk. inversion Hk; subst.
    destruct (PeerConnection.is_connected q); [apply send_well_kept|]; by apply Hinv.
  - simpl. intros Hk. apply map_lookup_filter_Some in Hk as [Hk _]. by apply Hinv.
  - apply Hinv.
  - simpl. intros Hk. rewrite lookup_empty in Hk. discriminate.
  - simpl. intros Hk. apply lookup_alter_Some in Hk as [[-> [q [Hq ->]]]|[_ Hk]].
    + apply apply_event_well_kept. by apply Hinv.
    + by apply Hinv.
Qed.

(** X4. In every registry reachable from the empty one by critical sections
    and peer callbacks, each peer is stored under its own [id()], has a
    video track, and still has [needs_keyframe()] true: the registry never
    calls [keyframe_sent()], the only place that clears the flag. *)
Theorem registry_peers_are_well_kept config ops key p :
  WebRtcServer.peers_ (WebRtcServer.srv (WebRtcServer.run ops (WebRtcServer.init config)))
    !! key = Some p ->
  PeerConnection.peer_id_ p = key
  /\ PeerConnection.video_track_ p <> None
  /\ PeerConnection.needs_keyframe_ p = true.
Proof.
  assert (H : forall ops w,
            (forall k q, peers_of w !! k = Some q -> well_kept k q) ->
            forall k q, peers_of (WebRtcServer.run ops w) !! k = Some q -> well_kept k q).
  { clear. induction ops as [|o ops IH]; intros w Hw; [exact Hw|].
    unfold WebRtcServer.run in *. simpl. apply IH. apply run_op_well_kept. exact Hw. }
  intros Hk. apply (H ops (WebRtcServer.init config)); [|exact Hk].
  intros k q Hq. unfold peers_of in Hq. simpl in Hq. rewrite lookup_empty in Hq. discriminate.
Qed.

Lemma registry_peers_are_well_kept_witness :
  exists p, WebRtcServer.peers_ (WebRtcServer.srv two_viewers) !! "peer-00000001"%string = Some p
            /\ PeerConnection.needs_keyframe_ p = true.
Proof.
  destruct (WebRtcServer.peers_ (WebRtcServer.srv two_viewers) !! "peer-00000001"%string)
    as [p|] eqn:E; [|vm_compute in E; discriminate].
  exists p. split; [reflexivity|].
  apply (registry_peers_are_well_kept default_config
           [WebRtcServer.CreatePeer 1 setup_ok; WebRtcServer.CreatePeer 2 setup_ok;
            WebRtcServer.PeerEvent "peer-00000001"
              (WebRtcServer.StateChange PeerConnection.Connected);
            WebRtcServer.PeerEvent "peer-00000001" WebRtcServer.TrackOpen]
           "peer-00000001"%string p).
  exact E.
Defined.

(** X5. [remove_peer(peer_id)] leaves no entry for [peer_id], leaves every
    other entry as it was, is idempotent, and changes nothing when the id is
    unknown. *)
Theorem remove_peer_removes_only_that_peer peer_id s :
  WebRtcServer.peers_ (WebRtcServer.remove_peer peer_id s) !! peer_id = None
  /\ (forall other, other <> peer_id ->
        WebRtcServer.peers_ (WebRtcServer.remove_peer peer_id s) !! other
        = WebRtcServer.peers_ s !! other)
  /\ WebRtcServer.remove_peer peer_id (WebRtcServer.remove_peer peer_id s)
     = WebRtcServer.remove_peer peer_id s
  /\ (WebRtcServer.peers_ s !! peer_id = None -> WebRtcServer.remove_peer peer_id s = s).
Proof.
  unfold WebRtcServer.remove_peer.
  destruct (WebRtcServer.peers_ s !! peer_id) as [p|] eqn:E; simpl.
  - rewrite !lookup_delete_eq. split; [reflexivity|]. split.
    + intros other Hne. by rewrite lookup_delete_ne.
    + split; [reflexivity|discriminate].
  - rewrite E. repeat split.
Qed.

(** X6. When there is room and the generated id is not in use, [create_peer]
    returns that id and grows the map by one, and [remove_peer] of the
    returned id gives back the server as it was before. *)
Theorem create_then_remove_restores_registry rnd ts0 s n :
  WebRtcServer.peers_ s !! WebRtcServer.generate_peer_id rnd = None ->
  to_int (Z.of_nat (size (WebRtcServer.peers_ s))) < max_peers (webrtc (WebRtcServer.config_ s)) ->
  let r := WebRtcServer.create_peer rnd (PeerConnection.SetupOk ts0) s n in
  fst (fst r) = WebRtcServer.generate_peer_id rnd
  /\ size (WebRtcServer.peers_ (snd (fst r))) = S (size (WebRtcServer.peers_ s))
  /\ WebRtcServer.remove_peer (fst (fst r)) (snd (fst r)) = s.
Proof.
  intros Hfree Hroom. unfold WebRtcServer.create_peer.
  destruct (_ >=? _) eqn:E; [lia|]. simpl. split; [reflexivity|]. split.
  - by apply map_size_insert_None.
  - unfold WebRtcServer.remove_peer. simpl. rewrite lookup_insert_eq. simpl.
    rewrite delete_insert_eq, delete_id by exact Hfree. destruct s. reflexivity.
Qed.

Lemma create_then_remove_restores_registry_witness :
  WebRtcServer.remove_peer (WebRtcServer.generate_peer_id 7)
    (snd (fst (WebRtcServer.create_peer 7 setup_ok (WebRtcServer.srv two_viewers) 44)))
  = WebRtcServer.srv two_viewers.
Proof.
  apply (create_then_remove_restores_registry 7 0 (WebRtcServer.srv two_viewers) 44).
  - vm_compute. reflexivity.
  - vm_compute. reflexivity.
Defined.

(** X7. When the generated id is already in use and there is room,
    [create_peer] does not refuse: it returns the id, the map keeps its
    size, and the entry now holds the new peer (new SSRC, not connected,
    statistics at zero): the viewer that held the id has lost its peer, and
    removing the id afterwards leaves one entry less than before the call. *)
Theorem create_peer_replaces_on_id_collision rnd ts0 s n old :
  WebRtcServer.peers_ s !! WebRtcServer.generate_peer_id rnd = Some old ->
  to_int (Z.of_nat (size (WebRtcServer.peers_ s))) < max_peers (webrtc (WebRtcServer.config_ s)) ->
  let r := WebRtcServer.create_peer rnd (PeerConnection.SetupOk ts0) s n in
  fst (fst r) = WebRtcServer.generate_peer_id rnd
  /\ size (WebRtcServer.peers_ (snd (fst r))) = size (WebRtcServer.peers_ s)
  /\ (exists p, WebRtcServer.peers_ (snd (fst r)) !! WebRtcServer.generate_peer_id rnd = Some p
                /\ PeerConnection.ssrc_ p = n
                /\ PeerConnection.is_connected p = false
                /\ PeerConnection.get_stats p
                   = {| PeerConnection.rtp_packets_sent := 0; PeerConnection.bytes_sent := 0;
                        PeerConnection.state := "new" |})
  /\ size (WebRtcServer.peers_ (WebRtcServer.remove_peer (fst (fst r)) (snd (fst r))))
     = Nat.pred (size (WebRtcServer.peers_ s)).
Proof.
  intros Hold Hroom. unfold WebRtcServer.create_peer.
  destruct (_ >=? _) eqn:E; [lia|]. simpl. split; [reflexivity|]. split.
  - apply map_size_insert_Some. eauto.
  - split.
    + eexists. rewrite lookup_insert_eq. split; [reflexivity|]. repeat split.
    + unfold WebRtcServer.remove_peer. simpl. rewrite lookup_insert_eq. simpl.
      rewrite delete_insert_eq. apply map_size_delete_Some. eauto.
Qed.

Lemma create_peer_replaces_on_id_collision_witness :
  size (WebRtcServer.peers_ (snd (fst
     (WebRtcServer.create_peer 1 setup_ok (WebRtcServer.srv two_viewers) 44)))) = 2%nat.
Proof.
  destruct (WebRtcServer.peers_ (WebRtcServer.srv two_viewers)
              !! WebRtcServer.generate_peer_id 1) as [old|] eqn:E;
    [|vm_compute in E; discriminate].
  destruct (create_peer_replaces_on_id_collision 1 0 (WebRtcServer.srv two_viewers) 44 old)
    as (_ & H & _).
  - exact E.
  - vm_compute. reflexivity.
  - etransitivity; [exact H|]. vm_compute. reflexivity.
Defined.

Lemma cleanup_pass_lookup s key :
  WebRtcServer.peers_ (WebRtcServer.cleanup_pass s) !! key
  = match WebRtcServer.peers_ s !! key with
    | Some p => if PeerConnection.is_closed p then None else Some p
    | None => None
    end.
Proof.
  unfold WebRtcServer.cleanup_pass. simpl.
  destruct (WebRtcServer.peers_ s !! key) as [p|] eqn:E.
  - destruct (PeerConnection.is_closed p) eqn:Hc.
    + apply map_lookup_filter_None. right. intros q Hq. simpl. congruence.
    + apply map_lookup_filter_Some. split; [exact E|exact Hc].
  - apply map_lookup_filter_None. left. exact E.
Qed.

(** X8. One pass of [cleanup_loop] keeps exactly the peers for which
    [is_closed()] is false, each unchanged, so the peer count does not grow;
    a second pass right after changes nothing. *)
Theorem cleanup_pass_removes_exactly_the_closed s :
  (forall key,
     WebRtcServer.peers_ (WebRtcServer.cleanup_pass s) !! key
     = match WebRtcServer.peers_ s !! key with
       | Some p => if PeerConnection.is_closed p then None else Some p
       | None => None
       end)
  /\ (WebRtcServer.peer_count (WebRtcServer.cleanup_pass s) <= WebRtcServer.peer_count s)%nat
  /\ WebRtcServer.cleanup_pass (WebRtcServer.cleanup_pass s) = WebRtcServer.cleanup_pass s.
Proof.
  split; [apply cleanup_pass_lookup|]. split.
  - unfold WebRtcServer.peer_count, WebRtcServer.cleanup_pass. simpl.
    apply map_subseteq_size, map_filter_subseteq.
  - unfold WebRtcServer.cleanup_pass at 1. unfold WebRtcServer.set_peers.
    replace (filter _ (WebRtcServer.peers_ (WebRtcServer.cleanup_pass s)))
      with (WebRtcServer.peers_ (WebRtcServer.cleanup_pass s)); [reflexivity|].
    apply map_eq. intros key. symmetry.
    destruct (WebRtcServer.peers_ (WebRtcServer.cleanup_pass s) !! key) as [p|] eqn:E.
    + apply map_lookup_filter_Some. split; [exact E|].
      rewrite cleanup_pass_lookup in E.
      destruct (WebRtcServer.peers_ s !! key) as [q|]; [|discriminate].
      destruct (PeerConnection.is_closed q) eqn:Hq; [discriminate|]. simpl. congruence.
    + apply map_lookup_filter_None. left. exact E.
Qed.

Lemma get_stats_fold l : forall acc,
  let r := foldl WebRtcServer.get_stats_step acc l in
  WebRtcServer.total_peers r = WebRtcServer.total_peers acc
  /\ WebRtcServer.connected_peers r
     = WebRtcServer.connected_peers acc
       + Z.of_nat (length (filter (fun kv => PeerConnection.is_connected (snd kv) = true) l)).
Proof.
  induction l as [|kv l IH]; intros acc; simpl.
  - split; [reflexivity|lia].
  - destruct (IH (WebRtcServer.get_stats_step acc kv)) as [H1 H2].
    split; [exact H1|]. rewrite H2. simpl. rewrite filter_cons.
    destruct (PeerConnection.is_connected kv.2) eqn:E; simpl.
    + simpl. lia.
    + lia.
Qed.

(** X9. [get_stats()] reports [total_peers] equal to [peer_count()] and
    [connected_peers] equal to the number of peers a [broadcast_nal] on the
    same map hands the buffer to; so 0 <= connected_peers <= total_peers. *)
Theorem get_stats_counts_what_broadcast_reaches nal_size ts throws s :
  let st := WebRtcServer.get_stats s in
  WebRtcServer.total_peers st = Z.of_nat (WebRtcServer.peer_count s)
  /\ WebRtcServer.connected_peers st
     = Z.of_nat (length (fst (WebRtcServer.broadcast_nal nal_size ts throws s)))
  /\ 0 <= WebRtcServer.connected_peers st <= WebRtcServer.total_peers st.
Proof.
  intros st. subst st. unfold WebRtcServer.get_stats.
  destruct (get_stats_fold (map_to_list (WebRtcServer.peers_ s))
              {| WebRtcServer.total_peers := Z.of_nat (size (WebRtcServer.peers_ s));
                 WebRtcServer.connected_peers := 0;
                 WebRtcServer.total_bytes_sent := 0 |}) as [H1 H2].
  simpl in H1, H2. rewrite H1, H2. split; [reflexivity|]. split.
  - rewrite broadcast_nal_calls, length_fmap. reflexivity.
  - split; [lia|].
    pose proof (length_filter (fun kv : string * PeerConnection.t =>
                                 PeerConnection.is_connected kv.2 = true)
                              (map_to_list (WebRtcServer.peers_ s))) as Hle.
    rewrite length_map_to_list in Hle. lia.
Qed.

Lemma unhex_hex_digit d : 0 <= d < 16 -> unhex_digit (WebRtcServer.hex_digit d) = d.
Proof.
  intros H.
  assert (Hc : d = 0 \/ d = 1 \/ d = 2 \/ d = 3 \/ d = 4 \/ d = 5 \/ d = 6 \/ d = 7 \/ d = 8
               \/ d = 9 \/ d = 10 \/ d = 11 \/ d = 12 \/ d = 13 \/ d = 14 \/ d = 15) by lia.
  repeat (destruct Hc as [-> | Hc]; [reflexivity|]). subst. reflexivity.
Qed.

Lemma unhex_hex8 x : 0 <= x < two32 -> unhex (WebRtcServer.hex8 x) = x.
Proof.
  intros Hx. unfold unhex, WebRtcServer.hex8. rewrite list_ascii_of_string_of_list_ascii.
  cbn [map fold_left].
  rewrite !unhex_hex_digit by (apply Z.mod_pos_bound; lia).
  unfold two32 in Hx. change (16 ^ 7) with 268435456. change (16 ^ 6) with 16777216.
  change (16 ^ 5) with 1048576. change (16 ^ 4) with 65536. change (16 ^ 3) with 4096.
  change (16 ^ 2) with 256. change (16 ^ 1) with 16. change (16 ^ 0) with 1.
  Z.to_euclidean_division_equations. lia.
Qed.

(** X10. A generated peer id has 13 characters, starts with [peer-], and its
    eight hexadecimal digits read back as the draw modulo 2^32; so two draws
    give the same id exactly when they agree modulo 2^32. *)
Theorem peer_id_names_its_draw rnd :
  String.length (WebRtcServer.generate_peer_id rnd) = 13%nat
  /\ String.substring 0 5 (WebRtcServer.generate_peer_id rnd) = "peer-"%string
  /\ draw_of_peer_id (WebRtcServer.generate_peer_id rnd) = rnd mod two32
  /\ (forall rnd', WebRtcServer.generate_peer_id rnd = WebRtcServer.generate_peer_id rnd' <->
                   rnd mod two32 = rnd' mod two32).
Proof.
  assert (Hd : forall r, draw_of_peer_id (WebRtcServer.generate_peer_id r) = r mod two32).
  { intros r. unfold draw_of_peer_id, WebRtcServer.generate_peer_id.
    assert (Hs : String.substring 5 8 (String.append "peer-" (WebRtcServer.hex8 (to_uint32 r)))
                 = WebRtcServer.hex8 (to_uint32 r)) by reflexivity.
    rewrite Hs. apply unhex_hex8. apply to_uint32_range. }
  split; [reflexivity|]. split; [reflexivity|]. split; [apply Hd|].
  intros rnd'. split.
  - intros H. rewrite <-(Hd rnd), <-(Hd rnd'), H. reflexivity.
  - intros H. unfold WebRtcServer.generate_peer_id, to_uint32. rewrite H. reflexivity.
Qed.

(** ** RtspPipeline: faults, restarts and the encoder *)

(** X11. After [start()], whatever the source does (parse failures, failures
    to reach PLAYING, errors, end of stream, any number of steps), the
    worker has not returned from [pipeline_thread], has not raised
    [stop_requested_] itself, and the configuration is the one given to the
    constructor.  The reconnect interval is at most INT_MAX - 100, so that
    the int [elapsed] of the back-off does not overflow. *)
Theorem worker_exits_only_on_stop build config inputs :
  reconnect_interval_ms (rtsp config) <= INT_MAX - 100 ->
  let s := RtspPipeline.worker_run build inputs (started config) in
  RtspPipeline.stop_requested_ s = false
  /\ RtspPipeline.config_ s = config
  /\ exists p, RtspPipeline.thread_ s = Some p /\ p <> RtspPipeline.Done.
Proof.
  intros _ s. subst s.
  assert (Hrun : forall inputs s0,
            RtspPipeline.stop_requested_ (RtspPipeline.worker_run build inputs s0)
            = RtspPipeline.stop_requested_ s0
            /\ RtspPipeline.config_ (RtspPipeline.worker_run build inputs s0)
               = RtspPipeline.config_ s0).
  { clear. induction inputs as [|i inputs IH]; intros s0; [split; reflexivity|].
    unfold RtspPipeline.worker_run in *. simpl.
    destruct (IH (RtspPipeline.worker_step build i s0)) as [H1 H2].
    rewrite H1, H2, worker_step_stop_requested, worker_step_config. split; reflexivity. }
  destruct (Hrun inputs (started config)) as [H1 H2].
  split; [rewrite H1; reflexivity|]. split; [rewrite H2; reflexivity|].
  apply (worker_run_keeps_going build inputs (started config) RtspPipeline.LoopHead);
    [reflexivity|reflexivity|discriminate].
Qed.

Lemma worker_exits_only_on_stop_witness :
  RtspPipeline.stop_requested_
    (RtspPipeline.worker_run desktop (repeat source_ends 28) (started (camera_config false 1)))
  = false.
Proof.
  destruct (worker_exits_only_on_stop desktop (camera_config false 1) (repeat source_ends 28))
    as [H _].
  - simpl. unfold INT_MAX. lia.
  - exact H.
Defined.

Lemma set_thread_set_thread s a b :
  RtspPipeline.set_thread (RtspPipeline.set_thread s a) b = RtspPipeline.set_thread s b.
Proof. reflexivity. Qed.

Lemma backoff_run build n : forall e s inputs,
  RtspPipeline.thread_ s = Some (RtspPipeline.Backoff e) ->
  RtspPipeline.stop_requested_ s = false ->
  length inputs = S n ->
  (forall j, 0 <= j < Z.of_nat n -> e + 100 * j < reconnect_interval_ms (rtsp (RtspPipeline.config_ s))) ->
  reconnect_interval_ms (rtsp (RtspPipeline.config_ s)) <= e + 100 * Z.of_nat n ->
  RtspPipeline.worker_run build inputs s = RtspPipeline.set_thread s (Some RtspPipeline.LoopHead).
Proof.
  induction n as [|n IH]; intros e s inputs Ht Hs Hlen Hlt Hge.
  - destruct inputs as [|i [|? ?]]; try discriminate.
    unfold RtspPipeline.worker_run. simpl. unfold RtspPipeline.worker_step. rewrite Ht, Hs.
    destruct (Z.ltb_spec e (reconnect_interval_ms (rtsp (RtspPipeline.config_ s)))); [lia|].
    reflexivity.
  - destruct inputs as [|i inputs]; [discriminate|].
    unfold RtspPipeline.worker_run in *. simpl.
    assert (Hstep : RtspPipeline.worker_step build i s
                    = RtspPipeline.set_thread s (Some (RtspPipeline.Backoff (e + 100)))).
    { unfold RtspPipeline.worker_step. rewrite Ht, Hs.
      destruct (Z.ltb_spec e (reconnect_interval_ms (rtsp (RtspPipeline.config_ s))));
        [reflexivity|].
      specialize (Hlt 0). lia. }
    rewrite Hstep. rewrite (IH (e + 100)); try reflexivity.
    + exact Hs.
    + simpl in Hlen. lia.
    + simpl. intros j Hj. specialize (Hlt (j + 1)). lia.
    + simpl. lia.
Qed.

(** X12. An ERROR or EOS message read in the bus loop, with no stop
    requested, costs exactly one reconnect: after the teardown,
    [attempt_reconnect] and the ceil(interval / 100) sleeps of 100 ms, the
    worker is back at the head of its loop with [running_] false, no
    pipeline, [connected] false, [reconnect_count] one higher (modulo 2^64)
    and [frames_received] untouched.  The reconnect interval is at most
    INT_MAX - 100, so that the int [elapsed] does not overflow. *)
Theorem fault_costs_one_reconnect build s m inputs :
  reconnect_interval_ms (rtsp (RtspPipeline.config_ s)) <= INT_MAX - 100 ->
  RtspPipeline.thread_ s = Some RtspPipeline.BusLoop ->
  RtspPipeline.stop_requested_ s = false ->
  RtspPipeline.is_fault m = true ->
  length inputs = (backoff_slices (reconnect_interval_ms (rtsp (RtspPipeline.config_ s))) + 3)%nat ->
  let s' := RtspPipeline.worker_run build
              ({| RtspPipeline.parse := RtspPipeline.ParseOk;
                  RtspPipeline.play_fails := false;
                  RtspPipeline.bus := Some m |} :: inputs) s in
  RtspPipeline.thread_ s' = Some RtspPipeline.LoopHead
  /\ RtspPipeline.is_running s' = false
  /\ RtspPipeline.pipeline_ s' = None
  /\ RtspPipeline.connected (RtspPipeline.get_stats s') = false
  /\ RtspPipeline.reconnect_count (RtspPipeline.get_stats s')
     = (RtspPipeline.reconnect_count (RtspPipeline.get_stats s) + 1) mod two64
  /\ RtspPipeline.frames_received (RtspPipeline.get_stats s')
     = RtspPipeline.frames_received (RtspPipeline.get_stats s).
Proof.
  intros _ Ht Hs Hm Hlen.
  destruct inputs as [|i1 [|i2 inputs]];
    [rewrite Nat.add_comm in Hlen; discriminate
    |rewrite Nat.add_comm in Hlen; discriminate|].
  unfold RtspPipeline.worker_run. cbn [foldl].
  set (s1 := RtspPipeline.worker_step build _ s).
  assert (H1 : s1 = RtspPipeline.set_thread s (Some RtspPipeline.TearDown)).
  { subst s1. unfold RtspPipeline.worker_step. rewrite Ht, Hs. simpl. rewrite Hm. reflexivity. }
  set (s2 := RtspPipeline.worker_step build i1 s1).
  assert (H2 : s2 = RtspPipeline.set_thread
                      (RtspPipeline.drop_pipeline
                         (RtspPipeline.set_connected (RtspPipeline.set_running s false) false))
                      (Some RtspPipeline.Reconnect)).
  { subst s2. rewrite H1. unfold RtspPipeline.worker_step. simpl. rewrite Hs. reflexivity. }
  set (s3 := RtspPipeline.worker_step build i2 s2).
  assert (H3 : s3 = RtspPipeline.set_thread
                      (RtspPipeline.bump_reconnect_count
                         (RtspPipeline.drop_pipeline
                            (RtspPipeline.set_connected (RtspPipeline.set_running s false) false)))
                      (Some (RtspPipeline.Backoff 0))).
  { subst s3. rewrite H2. unfold RtspPipeline.worker_step. simpl. rewrite Hs. reflexivity. }
  fold (RtspPipeline.worker_run build inputs s3).
  rewrite (backoff_run build
             (backoff_slices (reconnect_interval_ms (rtsp (RtspPipeline.config_ s))))
             0 s3 inputs).
  - rewrite H3. simpl. repeat split.
  - rewrite H3. reflexivity.
  - rewrite H3. simpl. exact Hs.
  - rewrite Nat.add_comm in Hlen. simpl in Hlen. do 2 apply Nat.succ_inj in Hlen. exact Hlen.
  - rewrite H3. simpl. unfold backoff_slices. intros j Hj.
    set (v := reconnect_interval_ms (rtsp (RtspPipeline.config_ s))) in *.
    destruct (Z_le_gt_dec v 0) as [Hv|Hv].
    + assert ((v + 99) / 100 < 1) by (apply Z.div_lt_upper_bound; lia). lia.
    + assert (0 <= (v + 99) / 100) by (apply Z.div_pos; lia).
      assert (100 * ((v + 99) / 100) <= v + 99) by (apply Z.mul_div_le; lia). lia.
  - rewrite H3. simpl. unfold backoff_slices.
    set (v := reconnect_interval_ms (rtsp (RtspPipeline.config_ s))) in *.
    destruct (Z_le_gt_dec v 0) as [Hv|Hv]; [lia|].
    assert (0 <= (v + 99) / 100) by (apply Z.div_pos; lia).
    pose proof (Z.mul_succ_div_gt (v + 99) 100). lia.
Qed.

Lemma fault_costs_one_reconnect_witness :
  RtspPipeline.reconnect_count (RtspPipeline.get_stats
    (RtspPipeline.worker_run desktop (repeat source_ends 6) sw_pipeline)) = 1.
Proof.
  destruct (fault_costs_one_reconnect desktop sw_pipeline RtspPipeline.MsgEos
              (repeat source_ends 5)) as (_ & _ & _ & _ & H & _).
  - simpl. unfold INT_MAX. lia.
  - reflexivity.
  - reflexivity.
  - reflexivity.
  - reflexivity.
  - etransitivity; [exact H|]. reflexivity.
Defined.

Lemma set_prop_set_prop key v1 v2 ps :
  RtspPipeline.set_prop key v2 (RtspPipeline.set_prop key v1 ps)
  = RtspPipeline.set_prop key v2 ps.
Proof.
  induction ps as [|[k v0] ps IH]; simpl.
  - rewrite String.eqb_refl. reflexivity.
  - destruct (String.eqb k key) eqn:E; simpl; rewrite E; [reflexivity|]. f_equal. exact IH.
Qed.

Lemma get_set_prop_other key key' v ps :
  key' <> key ->
  RtspPipeline.get_prop key' (RtspPipeline.set_prop key v ps) = RtspPipeline.get_prop key' ps.
Proof.
  intros Hne. induction ps as [|[k v0] ps IH]; simpl.
  - destruct (String.eqb_spec key key'); [congruence|reflexivity].
  - destruct (String.eqb_spec k key) as [->|Hk]; simpl.
    + destruct (String.eqb_spec key key'); [congruence|reflexivity].
    + destruct (String.eqb k key'); [reflexivity|exact IH].
Qed.

Lemma alter_alter_same {A} (f g : A -> A) i (l : list A) :
  alter f i (alter g i l) = alter (fun x => f (g x)) i l.
Proof.
  revert i. induction l as [|x l IH]; intros [|i]; simpl; try reflexivity.
  f_equal. apply IH.
Qed.

(** X13. Two calls of [set_bitrate] in a row leave the pipeline exactly as
    the second call alone would: nothing of the first hint survives. *)
Theorem set_bitrate_last_call_wins k1 k2 s :
  RtspPipeline.set_bitrate k2 (RtspPipeline.set_bitrate k1 s) = RtspPipeline.set_bitrate k2 s.
Proof.
  unfold RtspPipeline.set_bitrate.
  destruct (RtspPipeline.encoder_ s) as [e|] eqn:He; [|rewrite He; reflexivity].
  destruct (RtspPipeline.running_ s) eqn:Hr; simpl; [|rewrite He, Hr; reflexivity].
  rewrite He, Hr. simpl. unfold RtspPipeline.set_pipeline. simpl. f_equal.
  destruct (RtspPipeline.pipeline_ s) as [g|]; [|reflexivity]. simpl. f_equal.
  rewrite alter_alter_same. apply list_alter_ext; [|reflexivity].
  intros el _. unfold RtspPipeline.g_object_set. simpl. f_equal. apply set_prop_set_prop.
Qed.

Lemma set_bitrate_members k s :
  RtspPipeline.config_ (RtspPipeline.set_bitrate k s) = RtspPipeline.config_ s
  /\ RtspPipeline.encoder_ (RtspPipeline.set_bitrate k s) = RtspPipeline.encoder_ s
  /\ RtspPipeline.is_hw_encode_ (RtspPipeline.set_bitrate k s) = RtspPipeline.is_hw_encode_ s
  /\ RtspPipeline.thread_ (RtspPipeline.set_bitrate k s) = RtspPipeline.thread_ s
  /\ RtspPipeline.running_ (RtspPipeline.set_bitrate k s) = RtspPipeline.running_ s
  /\ (forall g, RtspPipeline.pipeline_ s = Some g ->
        exists g', RtspPipeline.pipeline_ (RtspPipeline.set_bitrate k s) = Some g'
                   /\ length g' = length g).
Proof.
  unfold RtspPipeline.set_bitrate.
  destruct (RtspPipeline.encoder_ s) as [e|] eqn:He.
  2:{ rewrite He. do 5 (split; [reflexivity|]). intros g Hg. exists g.
      split; [exact Hg|reflexivity]. }
  destruct (RtspPipeline.running_ s) eqn:Hr; simpl.
  2:{ rewrite He, Hr. do 5 (split; [reflexivity|]). intros g Hg. exists g.
      split; [exact Hg|reflexivity]. }
  rewrite He, Hr. do 5 (split; [reflexivity|]).
  intros g Hg. rewrite Hg. simpl. eexists. split; [reflexivity|apply length_alter].
Qed.

(** X14. [set_bitrate] changes nothing but the [bitrate] property of the
    encoder element: configuration, handles, flags, worker, statistics, the
    number of elements, every other element and every other property of the
    encoder are as before. *)
Theorem set_bitrate_touches_only_the_bitrate_property k s :
  let s' := RtspPipeline.set_bitrate k s in
  RtspPipeline.config_ s' = RtspPipeline.config_ s
  /\ RtspPipeline.appsink_ s' = RtspPipeline.appsink_ s
  /\ RtspPipeline.encoder_ s' = RtspPipeline.encoder_ s
  /\ RtspPipeline.is_hw_encode_ s' = RtspPipeline.is_hw_encode_ s
  /\ RtspPipeline.thread_ s' = RtspPipeline.thread_ s
  /\ RtspPipeline.is_running s' = RtspPipeline.is_running s
  /\ RtspPipeline.stop_requested_ s' = RtspPipeline.stop_requested_ s
  /\ RtspPipeline.get_stats s' = RtspPipeline.get_stats s
  /\ (forall g, RtspPipeline.pipeline_ s = Some g ->
        exists g', RtspPipeline.pipeline_ s' = Some g'
          /\ length g' = length g
          /\ forall i el, g !! i = Some el ->
               exists el', g' !! i = Some el'
                 /\ RtspPipeline.factory el' = RtspPipeline.factory el
                 /\ RtspPipeline.elem_name el' = RtspPipeline.elem_name el
                 /\ (RtspPipeline.encoder_ s <> Some i -> el' = el)
                 /\ forall key, key <> "bitrate"%string ->
                      RtspPipeline.get_prop key (RtspPipeline.props el')
                      = RtspPipeline.get_prop key (RtspPipeline.props el))
  /\ (RtspPipeline.pipeline_ s = None -> RtspPipeline.pipeline_ s' = None).
Proof.
  unfold RtspPipeline.set_bitrate.
  destruct (RtspPipeline.encoder_ s) as [e|] eqn:He.
  2:{ cbv zeta. rewrite He. repeat (split; [reflexivity|]). split; [|auto].
      intros g Hg. exists g. repeat split; try assumption.
      intros i el Hel. exists el. repeat split; assumption. }
  destruct (RtspPipeline.running_ s) eqn:Hr; cbv zeta; simpl.
  2:{ rewrite He. repeat (split; [reflexivity|]). split; [|auto].
      intros g Hg. exists g. repeat split; try assumption.
      intros i el Hel. exists el. repeat split; assumption. }
  rewrite He. repeat (split; [reflexivity|]). split.
  - intros g Hg. rewrite Hg. simpl. eexists. split; [reflexivity|]. split; [apply length_alter|].
    intros i el Hel. destruct (decide (e = i)) as [->|Hne].
    + rewrite list_lookup_alter_eq, Hel. simpl. eexists. split; [reflexivity|].
      repeat split.
      * intros Hc. congruence.
      * intros key Hkey. apply get_set_prop_other. exact Hkey.
    + rewrite list_lookup_alter_ne by exact Hne. exists el. repeat split. exact Hel.
  - intros Hn. rewrite Hn. reflexivity.
Qed.


(** X15. [start()] after [stop()] always succeeds, from any state: it
    returns true with a fresh worker at the head of its loop, the stop
    request cleared, no pipeline yet, and the configuration and statistics
    that [stop()] left. *)
Theorem restart_after_stop build env s :
  exists s', RtspPipeline.start (RtspPipeline.stop build env s) = Some s'
             /\ RtspPipeline.thread_ s' = Some RtspPipeline.LoopHead
             /\ RtspPipeline.stop_requested_ s' = false
             /\ RtspPipeline.is_running s' = false
             /\ RtspPipeline.pipeline_ s' = None
             /\ RtspPipeline.config_ s' = RtspPipeline.config_ (RtspPipeline.stop build env s)
             /\ RtspPipeline.get_stats s' = RtspPipeline.get_stats (RtspPipeline.stop build env s).
Proof.
  destruct (stop_stopped build env s) as (H1 & H2 & H3 & H4).
  unfold RtspPipeline.start. rewrite H3, H1. eexists. split; [reflexivity|].
  simpl. repeat split; assumption.
Qed.

(** X16. A second [start()] on a started pipeline returns true without any
    effect only while [running_] is true; while the worker is building,
    waiting for PLAYING, or between reconnects, [running_] is false and
    [start()] assigns a new thread to the still joinable [thread_], which
    terminates the process.  (Reconnect interval at most INT_MAX - 100, as
    for the other runs of the worker.) *)
Theorem second_start_terminates_unless_running build config inputs :
  reconnect_interval_ms (rtsp config) <= INT_MAX - 100 ->
  let s := RtspPipeline.worker_run build inputs (started config) in
  (RtspPipeline.is_running s = true -> RtspPipeline.start s = Some s)
  /\ (RtspPipeline.is_running s = false -> RtspPipeline.start s = None).
Proof.
  intros _ s.
  destruct (worker_run_keeps_going build inputs (started config) RtspPipeline.LoopHead)
    as [p [Hp _]]; [reflexivity|reflexivity|discriminate|].
  fold s in Hp. unfold RtspPipeline.start, RtspPipeline.is_running. split; intros Hr; rewrite Hr.
  - reflexivity.
  - rewrite Hp. reflexivity.
Qed.

Lemma second_start_terminates_unless_running_witness :
  RtspPipeline.start (started (camera_config false 0)) = None.
Proof.
  destruct (second_start_terminates_unless_running desktop (camera_config false 0) [])
    as [_ H].
  - simpl. unfold INT_MAX. lia.
  - apply H. reflexivity.
Defined.

Lemma gst_bin_get_by_name_lt g nm : forall e,
  RtspPipeline.gst_bin_get_by_name g nm = Some e -> (e < length g)%nat.
Proof.
  induction g as [|el g IH]; intros e; simpl; [discriminate|].
  destruct (RtspPipeline.elem_name el) as [n|].
  - destruct (String.eqb n nm).
    + intros H. inversion H. lia.
    + destruct (RtspPipeline.gst_bin_get_by_name g nm) as [e'|]; simpl; [|discriminate].
      intros H. inversion H. specialize (IH e' eq_refl). lia.
  - destruct (RtspPipeline.gst_bin_get_by_name g nm) as [e'|]; simpl; [|discriminate].
    intros H. inversion H. specialize (IH e' eq_refl). lia.
Qed.

Lemma build_pipeline_graph_ok build o s s' :
  RtspPipeline.build_pipeline build o s = inr s' -> graph_ok build s'.
Proof.
  unfold RtspPipeline.build_pipeline. destruct o; [|discriminate].
  destruct (RtspPipeline.gst_bin_get_by_name _ "sink") as [k|]; [|discriminate].
  intros H. inversion H; subst. clear H. unfold graph_ok. simpl.
  split; [eexists; split; reflexivity|]. split; [reflexivity|].
  intros Ht Hp. unfold RtspPipeline.is_hw_encode_after_desc. rewrite Ht, Hp. reflexivity.
Qed.

Lemma graph_ok_set_thread build s th : graph_ok build s -> graph_ok build (RtspPipeline.set_thread s th).
Proof. intros H. exact H. Qed.

Lemma set_bitrate_graph_ok build s k :
  graph_ok build s -> graph_ok build (RtspPipeline.set_bitrate k s).
Proof.
  intros ([g [Hg Hl]] & He & Hhw).
  destruct (set_bitrate_members k s) as (Hc & He' & Hhw' & _ & _ & Hp).
  unfold graph_ok. rewrite Hc, He', Hhw'.
  destruct (Hp g Hg) as [g' [Hg' Hl']].
  split; [exists g'; split; [exact Hg'|lia]|]. split; assumption.
Qed.

Lemma on_new_sample_graph_inv build s bytes :
  graph_inv build s -> graph_inv build (RtspPipeline.on_new_sample bytes s).
Proof. intros H. exact H. Qed.

Lemma set_bitrate_graph_inv build s k :
  graph_inv build s -> graph_inv build (RtspPipeline.set_bitrate k s).
Proof.
  intros H. unfold graph_inv in *.
  destruct (set_bitrate_members k s) as (_ & _ & _ & Ht & Hr & _).
  rewrite Ht, Hr.
  destruct (RtspPipeline.thread_ s) as [[| | | | | |e|]|]; try exact H.
  - destruct H as [H1 H2]. split; [apply set_bitrate_graph_ok; exact H1|exact H2].
  - apply set_bitrate_graph_ok; exact H.
  - apply set_bitrate_graph_ok; exact H.
Qed.

Lemma worker_step_graph_inv build i s :
  graph_inv build s -> graph_inv build (RtspPipeline.worker_step build i s).
Proof.
  intros H. unfold graph_inv in H. unfold RtspPipeline.worker_step.
  destruct (RtspPipeline.thread_ s) as [[| | | | | |e|]|] eqn:Ht.
  - destruct (RtspPipeline.stop_requested_ s); unfold graph_inv; simpl; exact H.
  - pose proof (build_pipeline_frame build (RtspPipeline.parse i) s) as Hf.
    pose proof (build_pipeline_graph_ok build (RtspPipeline.parse i) s) as Hg.
    destruct (RtspPipeline.build_pipeline build (RtspPipeline.parse i) s) as [s'|s'];
      unfold graph_inv; simpl in *; destruct Hf as (_ & _ & Hr & _).
    + congruence.
    + split; [apply (Hg s' eq_refl)|congruence].
  - destruct H as [Hg Hr]. destruct (RtspPipeline.play_fails i); unfold graph_inv; simpl.
    + exact Hr.
    + exact Hg.
  - destruct (RtspPipeline.stop_requested_ s); [exact H|].
    destruct (RtspPipeline.bus i) as [m|]; [destruct (RtspPipeline.is_fault m)|]; exact H.
  - destruct (RtspPipeline.stop_requested_ s); unfold graph_inv; reflexivity.
  - destruct (RtspPipeline.stop_requested_ s); unfold graph_inv; simpl; exact H.
  - destruct (_ && _); unfold graph_inv; simpl; exact H.
  - unfold graph_inv. rewrite Ht. exact H.
  - unfold graph_inv. rewrite Ht. exact H.
Qed.

Lemma run_events_graph_inv build evs : forall s,
  graph_inv build s -> graph_inv build (run_events build evs s).
Proof.
  induction evs as [|ev evs IH]; intros s H; [exact H|].
  unfold run_events in *. simpl. apply IH. destruct ev; simpl.
  - apply worker_step_graph_inv; exact H.
  - apply set_bitrate_graph_inv; exact H.
  - apply on_new_sample_graph_inv; exact H.
Qed.

Lemma run_events_config build evs : forall s,
  RtspPipeline.config_ (run_events build evs s) = RtspPipeline.config_ s.
Proof.
  induction evs as [|ev evs IH]; intros s; [reflexivity|].
  unfold run_events in *. simpl. rewrite IH. destruct ev; simpl.
  - apply worker_step_config.
  - destruct (set_bitrate_members kbps s) as [H _]. exact H.
  - reflexivity.
Qed.

(** X17. For a configuration with 0 <= min <= max, max * 1000 within int and
    a reconnect interval of at most INT_MAX - 100, in every state a started
    pipeline reaches through worker steps, bitrate hints and samples in any
    order, while [running_] is true [set_bitrate(k)] sets the encoder to
    clamp(k, min, max), in kbit/s for x264enc and in bit/s for
    nvv4l2h264enc, and is the identity in test and passthrough modes. *)
Theorem set_bitrate_clamps_whenever_running build config evs k :
  let v := video (webrtc config) in
  0 <= min_bitrate_kbps v <= max_bitrate_kbps v ->
  max_bitrate_kbps v * 1000 <= INT_MAX ->
  reconnect_interval_ms (rtsp config) <= INT_MAX - 100 ->
  let s := run_events build evs (started config) in
  RtspPipeline.is_running s = true ->
  match RtspPipeline.mode build config with
  | RtspPipeline.TestSource | RtspPipeline.Passthrough =>
      RtspPipeline.set_bitrate k s = s
  | RtspPipeline.ReencodeHW =>
      RtspPipeline.encoder_bitrate (RtspPipeline.set_bitrate k s)
      = Some (Spec.clamp k (min_bitrate_kbps v) (max_bitrate_kbps v) * 1000)
  | RtspPipeline.ReencodeSW =>
      RtspPipeline.encoder_bitrate (RtspPipeline.set_bitrate k s)
      = Some (Spec.clamp k (min_bitrate_kbps v) (max_bitrate_kbps v))
  end.
Proof.
  intros v Hmin Hmax _ s Hrun.
  assert (Hcfg : RtspPipeline.config_ s = config).
  { subst s. rewrite run_events_config. reflexivity. }
  assert (Hinv : graph_inv build s).
  { subst s. apply run_events_graph_inv. unfold graph_inv. reflexivity. }
  unfold RtspPipeline.is_running in Hrun.
  assert (Hok : graph_ok build s).
  { unfold graph_inv in Hinv.
    destruct (RtspPipeline.thread_ s) as [[| | | | | |e|]|]; try congruence; try exact Hinv.
    destruct Hinv; congruence. }
  destruct Hok as ([g [Hg Hl]] & He & Hhw). rewrite Hcfg in *.
  pose proof (encoder_by_mode build s) as Hmode. cbv zeta in Hmode. rewrite Hcfg in Hmode.
  pose proof (clamp_range k _ _ (proj2 Hmin)) as Hcl. fold v in Hcl.
  assert (Hbr : forall hw, RtspPipeline.is_hw_encode_ s = hw ->
            (exists e el, RtspPipeline.gst_bin_get_by_name
                            (RtspPipeline.pipeline_desc build config) "enc" = Some e
                          /\ RtspPipeline.pipeline_desc build config !! e = Some el) ->
            RtspPipeline.encoder_bitrate (RtspPipeline.set_bitrate k s)
            = Some (if hw then to_uint32 (RtspPipeline.times_1000
                                            (Spec.clamp k (min_bitrate_kbps v) (max_bitrate_kbps v)))
                    else to_uint32 (Spec.clamp k (min_bitrate_kbps v) (max_bitrate_kbps v)))).
  { intros hw Hhw' (e & el & Hfind & _).
    assert (Hlt : (e < length g)%nat).
    { rewrite Hl. eapply gst_bin_get_by_name_lt. exact Hfind. }
    destruct (lookup_lt_is_Some_2 g e Hlt) as [el' Hel'].
    rewrite (set_bitrate_running k s e g el' Hrun (eq_trans He Hfind) Hg Hel').
    rewrite Hhw', Hcfg. cbv zeta. fold v. rewrite clamp_code_spec by lia. reflexivity. }
  unfold RtspPipeline.mode in *. unfold RtspPipeline.is_hw_encode_after_desc in Hmode.
  destruct (RtspPipeline.use_test_source build config) eqn:Ht.
  { apply set_bitrate_no_encoder. congruence. }
  destruct (passthrough (encoding config)) eqn:Hp.
  { apply set_bitrate_no_encoder. congruence. }
  specialize (Hhw eq_refl eq_refl).
  destruct (RtspPipeline.JETSON_PLATFORM build && hw_encode (encoding config)) eqn:Hj.
  - destruct Hmode as [_ Hex]. rewrite (Hbr true Hhw Hex). f_equal.
    unfold RtspPipeline.times_1000.
    rewrite to_int_small by (unfold int_range, INT_MIN, INT_MAX in *; lia).
    apply to_uint32_small. unfold two32, INT_MAX in *. lia.
  - destruct Hmode as [_ Hex]. rewrite (Hbr false Hhw Hex). f_equal.
    apply to_uint32_small. unfold two32, INT_MAX in *. lia.
Qed.

Lemma set_bitrate_clamps_whenever_running_witness :
  RtspPipeline.encoder_bitrate
    (RtspPipeline.set_bitrate 100
       (run_events jetson
          [WorkerStep source_up; WorkerStep source_up; WorkerStep source_up;
           NewSample 1200; SetBitrate 6000; WorkerStep source_up]
          (started (camera_config true 0)))) = Some 500000.
Proof.
  pose proof (set_bitrate_clamps_whenever_running jetson (camera_config true 0)
                [WorkerStep source_up; WorkerStep source_up; WorkerStep source_up;
                 NewSample 1200; SetBitrate 6000; WorkerStep source_up] 100) as H.
  cbv zeta in H. apply H.
  - simpl. lia.
  - simpl. unfold INT_MAX. lia.
  - simpl. unfold INT_MAX. lia.
  - reflexivity.
Defined.

(** ** SignalingServer: frames and admissions *)

Lemma dispatch_own pid msg acts :
  SignalingServer.dispatch pid msg = Some acts ->
  (length acts <= 1)%nat /\ Forall (own_action pid) acts.
Proof.
  unfold SignalingServer.dispatch. intros H.
  destruct (SignalingServer.value_string msg "type" EmptyString) as [type|]; [|discriminate].
  destruct (String.eqb type "answer").
  { destruct (SignalingServer.value_string msg "sdp" EmptyString) as [sdp|]; [|discriminate].
    destruct (RtspPipeline.string_empty sdp); inversion H; subst; simpl; split;
      try lia; repeat constructor. }
  destruct (String.eqb type "candidate").
  { destruct (SignalingServer.value_json msg "data") as [data|]; [|discriminate].
    destruct (SignalingServer.value_string data "candidate" EmptyString) as [c|]; [|discriminate].
    destruct (SignalingServer.value_string data "sdpMid" "0") as [mid|]; [|discriminate].
    destruct (RtspPipeline.string_empty c); inversion H; subst; simpl; split;
      try lia; repeat constructor. }
  destruct (String.eqb type "ping"); inversion H; subst; simpl; split; try lia;
    repeat constructor.
Qed.

(** X18. A text frame from a viewer causes at most one action, and that
    action is a reply on the viewer's own socket, a log line, or a call of
    [handle_answer] or [handle_candidate] on the viewer's own peer id: never
    another peer, never an offer, a close or the bitrate callback. *)
Theorem frame_acts_at_most_once_on_own_peer peer_id parsed :
  let acts := SignalingServer.on_client_message peer_id parsed in
  (length acts <= 1)%nat /\ Forall (own_action peer_id) acts.
Proof.
  unfold SignalingServer.on_client_message. destruct parsed as [msg|].
  - destruct (SignalingServer.dispatch peer_id msg) as [acts|] eqn:E.
    + apply (dispatch_own peer_id msg acts E).
    + simpl. split; [lia|]. repeat constructor.
  - simpl. split; [lia|]. repeat constructor.
Qed.

(** X19. A frame of type [candidate] whose [data] object carries a non-empty
    string [candidate] is passed to [handle_candidate] of the viewer's own
    peer with [sdpMid], or with [0] when [sdpMid] is absent; when [sdpMid]
    is present but not a string the frame is dropped with the invalid-JSON
    warning. *)
Theorem candidate_frame_defaults_the_mid peer_id fields data candidate :
  SignalingServer.find_key "type" fields = Some (SignalingServer.JStr "candidate") ->
  SignalingServer.find_key "data" fields = Some (SignalingServer.JObj data) ->
  SignalingServer.find_key "candidate" data = Some (SignalingServer.JStr candidate) ->
  candidate <> EmptyString ->
  SignalingServer.on_client_message peer_id (Some (SignalingServer.JObj fields))
  = match SignalingServer.find_key "sdpMid" data with
    | None => [SignalingServer.HandleCandidate peer_id candidate "0"]
    | Some (SignalingServer.JStr mid) => [SignalingServer.HandleCandidate peer_id candidate mid]
    | Some _ => [SignalingServer.LogWarnInvalidJson]
    end.
Proof.
  intros Ht Hd Hc Hne.
  unfold SignalingServer.on_client_message, SignalingServer.dispatch. simpl.
  rewrite Ht, Hd. simpl. rewrite Hc.
  assert (He : RtspPipeline.string_empty candidate = false).
  { destruct candidate; [contradiction|reflexivity]. }
  destruct (SignalingServer.find_key "sdpMid" data) as [[| | |mid| |]|]; simpl;
    try rewrite He; reflexivity.
Qed.

Lemma candidate_frame_defaults_the_mid_witness :
  SignalingServer.on_client_message "peer-0000002a"
    (Some (SignalingServer.JObj
       [("type", SignalingServer.JStr "candidate");
        ("data", SignalingServer.JObj
           [("candidate", SignalingServer.JStr "candidate:1 1 UDP 2122260223 192.0.2.1 60000 typ host");
            ("sdpMLineIndex", SignalingServer.JNum 0)])]))
  = [SignalingServer.HandleCandidate "peer-0000002a"
       "candidate:1 1 UDP 2122260223 192.0.2.1 60000 typ host" "0"].
Proof.
  apply (candidate_frame_defaults_the_mid "peer-0000002a"
           [("type", SignalingServer.JStr "candidate");
            ("data", SignalingServer.JObj
               [("candidate", SignalingServer.JStr "candidate:1 1 UDP 2122260223 192.0.2.1 60000 typ host");
                ("sdpMLineIndex", SignalingServer.JNum 0)])]
           [("candidate", SignalingServer.JStr "candidate:1 1 UDP 2122260223 192.0.2.1 60000 typ host");
            ("sdpMLineIndex", SignalingServer.JNum 0)]
           "candidate:1 1 UDP 2122260223 192.0.2.1 60000 typ host").
  - reflexivity.
  - reflexivity.
  - reflexivity.
  - discriminate.
Defined.

(** X20. When there is room and the peer constructor succeeds,
    [on_client_connected] sends the welcome message with the new peer id and
    the ICE servers, and then starts the offer for that id, in this order
    and nothing else, whether or not sending the welcome throws; the
    registry holds the new peer under that id with the current SSRC, not yet
    connected, and the SSRC counter has advanced by one modulo 2^32. *)
Theorem admitted_viewer_is_welcomed_then_offered rnd ts0 send_throws w :
  to_int (Z.of_nat (size (WebRtcServer.peers_ (WebRtcServer.srv w))))
  < max_peers (webrtc (WebRtcServer.config_ (WebRtcServer.srv w))) ->
  let peer_id := WebRtcServer.generate_peer_id rnd in
  let r := SignalingServer.on_client_connected rnd (PeerConnection.SetupOk ts0)
             send_throws w in
  fst r = [SignalingServer.WsSend
             (SignalingServer.welcome_message
                (webrtc (WebRtcServer.config_ (WebRtcServer.srv w))) peer_id);
           SignalingServer.StartOffer peer_id]
  /\ (exists p, WebRtcServer.peers_ (WebRtcServer.srv (snd r)) !! peer_id = Some p
                /\ PeerConnection.ssrc_ p = WebRtcServer.next_ssrc_ w
                /\ PeerConnection.needs_keyframe_ p = true
                /\ PeerConnection.is_connected p = false)
  /\ WebRtcServer.next_ssrc_ (snd r) = (WebRtcServer.next_ssrc_ w + 1) mod two32.
Proof.
  intros Hroom peer_id r. subst r peer_id.
  unfold SignalingServer.on_client_connected, WebRtcServer.create_peer.
  destruct (_ >=? _) eqn:E; [lia|]. simpl.
  split; [reflexivity|]. split; [|reflexivity].
  eexists. rewrite lookup_insert_eq. split; [reflexivity|]. repeat split.
Qed.

Lemma admitted_viewer_is_welcomed_then_offered_witness :
  fst (SignalingServer.on_client_connected 3 setup_ok false two_viewers)
  = [SignalingServer.WsSend
       (SignalingServer.welcome_message (webrtc default_config) "peer-00000003");
     SignalingServer.StartOffer "peer-00000003"].
Proof.
  apply (admitted_viewer_is_welcomed_then_offered 3 0 false two_viewers).
  vm_compute. reflexivity.
Defined.

(** X21. When the graph has been built and set to PLAYING, in the re-encode
    modes its one encoder is the element named [enc] that [encoder_] points
    to, with [bitrate] at the configured [bitrate_kbps] for x264enc and at
    [bitrate_kbps * 1000] (as an int) for nvv4l2h264enc.  In passthrough
    mode the graph holds no encoder.  In test mode the graph does hold an
    encoder at the configured bitrate (nvv4l2h264enc on a Jetson build with
    [hw_encode], x264enc otherwise), but it carries no name: [encoder_] is
    null and [set_bitrate] changes nothing.  A build without JETSON_PLATFORM
    never uses nvv4l2h264enc, whatever [hw_encode] says. *)
Theorem bring_up_encoder_bitrate build s0 :
  let c := RtspPipeline.config_ s0 in
  let s := bring_up build s0 in
  RtspPipeline.encoder_bitrate s
  = match RtspPipeline.mode build c with
    | RtspPipeline.TestSource | RtspPipeline.Passthrough => None
    | RtspPipeline.ReencodeSW => Some (bitrate_kbps (video (webrtc c)))
    | RtspPipeline.ReencodeHW => Some (RtspPipeline.times_1000 (bitrate_kbps (video (webrtc c))))
    end
  /\ (exists g, RtspPipeline.pipeline_ s = Some g
       /\ match RtspPipeline.mode build c with
          | RtspPipeline.TestSource =>
              RtspPipeline.encoder_ s = None
              /\ encoders g
                 = [if RtspPipeline.JETSON_PLATFORM build && hw_encode (encoding c)
                    then RtspPipeline.nvv4l2h264enc_test c
                    else RtspPipeline.x264enc_test c]
              /\ (forall k, RtspPipeline.set_bitrate k s = s)
          | RtspPipeline.Passthrough =>
              RtspPipeline.encoder_ s = None
              /\ encoders g = []
              /\ (forall k, RtspPipeline.set_bitrate k s = s)
          | RtspPipeline.ReencodeSW =>
              exists e, RtspPipeline.encoder_ s = Some e
                        /\ g !! e = Some (RtspPipeline.x264enc c)
                        /\ encoders g = [RtspPipeline.x264enc c]
          | RtspPipeline.ReencodeHW =>
              exists e, RtspPipeline.encoder_ s = Some e
                        /\ g !! e = Some (RtspPipeline.nvv4l2h264enc c)
                        /\ encoders g = [RtspPipeline.nvv4l2h264enc c]
          end)
  /\ (RtspPipeline.JETSON_PLATFORM build = false ->
      forall g, RtspPipeline.pipeline_ s = Some g ->
      Forall (fun el => RtspPipeline.factory el <> "nvv4l2h264enc"%string) g).
Proof.
  intros c s. subst c s.
  destruct (bring_up_state build s0) as (_ & _ & Hpipe & Henc & _).
  assert (Hset : RtspPipeline.encoder_ (bring_up build s0) = None ->
                 forall k, RtspPipeline.set_bitrate k (bring_up build s0) = bring_up build s0).
  { intros Hn k. apply set_bitrate_no_encoder. exact Hn. }
  rewrite Henc in Hset.
  unfold RtspPipeline.encoder_bitrate. rewrite Hpipe, Henc.
  split; [|split].
  - unfold RtspPipeline.mode, RtspPipeline.pipeline_desc.
    destruct (RtspPipeline.use_test_source build (RtspPipeline.config_ s0)),
      (passthrough (encoding (RtspPipeline.config_ s0))),
      (RtspPipeline.JETSON_PLATFORM build), (hw_encode (encoding (RtspPipeline.config_ s0)));
      reflexivity.
  - eexists. split; [reflexivity|].
    revert Hset. unfold RtspPipeline.mode, RtspPipeline.pipeline_desc, encoders.
    destruct (RtspPipeline.use_test_source build (RtspPipeline.config_ s0)),
      (passthrough (encoding (RtspPipeline.config_ s0))),
      (RtspPipeline.JETSON_PLATFORM build), (hw_encode (encoding (RtspPipeline.config_ s0)));
      simpl; intros Hset;
      first [ split; [reflexivity|]; split; [reflexivity|]; apply Hset; reflexivity
            | eexists; split; [reflexivity|]; split; reflexivity ].
  - intros Hj g Hg. inversion Hg; subst g. clear Hg Hset.
    unfold RtspPipeline.pipeline_desc. rewrite Hj.
    destruct (RtspPipeline.use_test_source build (RtspPipeline.config_ s0)),
      (passthrough (encoding (RtspPipeline.config_ s0)));
      simpl; repeat constructor; discriminate.
Qed.

(** ** HttpServer *)

(** ** HttpServer: strings *)

Lemma substring_0_prefix a : forall c,
  String.substring 0 (String.length a) c = a <-> exists rest, c = String.append a rest.
Proof.
  induction a as [|x a IH]; intros c; simpl.
  - split; [intros _; exists c; reflexivity|].
    intros _. destruct c; reflexivity.
  - destruct c as [|y c]; simpl.
    + split; [discriminate|]. intros [rest H]. discriminate.
    + split.
      * intros H. inversion H as [[Hxy Hs]]. rewrite Hs. apply IH in Hs as [rest ->].
        exists rest. reflexivity.
      * intros [rest H]. inversion H; subst. f_equal. apply IH. eauto.
Qed.

Lemma substring_0_substring_0 r : forall k n,
  String.substring 0 k (String.substring 0 n r) = String.substring 0 (Nat.min k n) r.
Proof.
  induction r as [|x r IH]; intros [|k] [|n]; simpl; try reflexivity.
  f_equal. apply IH.
Qed.

Lemma length_substring_0 r : forall n, (String.length (String.substring 0 n r) <= n)%nat.
Proof.
  induction r as [|x r IH]; intros [|n]; simpl; try lia. specialize (IH n). lia.
Qed.

Lemma substring_0_length s : String.substring 0 (String.length s) s = s.
Proof. induction s as [|x s IH]; simpl; [reflexivity|]. f_equal. exact IH. Qed.

Lemma prefix_empty s : String.prefix EmptyString s = true.
Proof. destruct s; reflexivity. Qed.

Lemma substr_0 n s : HttpServer.substr 0 (Some n) s = Some (String.substring 0 n s).
Proof. reflexivity. Qed.

Lemma after_last_append c a : forall b,
  HttpServer.after_last c b = None ->
  HttpServer.after_last c (String.append a (String c b)) = Some b.
Proof.
  induction a as [|x a IH]; intros b Hb; simpl.
  - rewrite Hb, Ascii.eqb_refl. reflexivity.
  - rewrite (IH b Hb). reflexivity.
Qed.

Lemma after_last_append_none c e : forall p,
  HttpServer.after_last c e = None ->
  HttpServer.after_last c (String.append p e)
  = option_map (fun r => String.append r e) (HttpServer.after_last c p).
Proof.
  induction p as [|x p IH]; intros He; simpl.
  - exact He.
  - rewrite (IH He). destruct (HttpServer.after_last c p) as [r|]; simpl; [reflexivity|].
    destruct (Ascii.eqb x c); reflexivity.
Qed.

Lemma filename_append p e :
  HttpServer.after_last "/" e = None ->
  HttpServer.filename (String.append p e) = String.append (HttpServer.filename p) e.
Proof.
  intros He. unfold HttpServer.filename. rewrite (after_last_append_none "/" e p He).
  destruct (HttpServer.after_last "/" p); reflexivity.
Qed.

(** The extension of a path that ends in a period and a suffix without
    period or slash, when something of the file name stands before them. *)
Lemma extension_append p e :
  HttpServer.after_last "." e = None ->
  HttpServer.after_last "/" e = None ->
  e <> EmptyString ->
  HttpServer.filename p <> EmptyString ->
  HttpServer.extension (String.append p (String "." e)) = String "." e.
Proof.
  intros Hdot Hslash He Hf. unfold HttpServer.extension.
  rewrite filename_append by (simpl; rewrite Hslash; reflexivity).
  destruct (HttpServer.filename p) as [|x f]; [contradiction|]. clear Hf.
  assert (Hx : forall y g, HttpServer.after_last "." (String y (String.append g (String "." e)))
                           = Some e).
  { intros y g. apply (after_last_append "." (String y g) e Hdot). }
  assert (Hne1 : String.eqb (String.append (String x f) (String "." e)) "." = false).
  { simpl. destruct (Ascii.eqb x "."); [|reflexivity]. destruct f; reflexivity. }
  assert (Hne2 : String.eqb (String.append (String x f) (String "." e)) ".." = false).
  { simpl. destruct (Ascii.eqb x "."); [|reflexivity].
    destruct f as [|y f]; simpl.
    - destruct e; [contradiction|reflexivity].
    - destruct (Ascii.eqb y "."); [|reflexivity]. destruct f; reflexivity. }
  rewrite Hne1, Hne2. cbn [orb].
  destruct (Ascii.eqb_spec x ".") as [->|Hxd].
  - destruct f as [|y g].
    + simpl. rewrite Hdot. reflexivity.
    + change (String.append (String "." (String y g)) (String "." e))
        with (String "." (String y (String.append g (String "." e)))).
      cbv iota beta. rewrite (Hx y g). reflexivity.
  - change (String.append (String x f) (String "." e))
      with (String x (String.append f (String "." e))).
    rewrite (Hx x f).
    destruct x as [[] [] [] [] [] [] [] []]; try reflexivity. congruence.
Qed.

Section ServedFiles.

Variable web_root_ : string.
Variable path_append : string -> string -> string.
Variable canonical : string -> option string.
Variable is_regular_file : string -> option bool.
Variable read_file : string -> option string.

Lemma resolve_canonical_served full c :
  HttpServer.resolve_canonical web_root_ canonical is_regular_file full = c ->
  c <> EmptyString ->
  canonical full = Some c
  /\ exists root_str rest, canonical web_root_ = Some root_str
                           /\ c = String.append root_str rest
                           /\ is_regular_file c = Some true.
Proof.
  unfold HttpServer.resolve_canonical. intros H Hne.
  destruct (canonical full) as [c'|]; [|congruence].
  destruct (canonical web_root_) as [root_str|]; [|congruence].
  destruct (String.eqb_spec (String.substring 0 (String.length root_str) c') root_str)
    as [Hp|Hp]; simpl in H; [|congruence].
  destruct (is_regular_file c') as [[|]|] eqn:Hr; try congruence.
  subst c'. split; [reflexivity|]. apply substring_0_prefix in Hp as [rest Hrest].
  exists root_str, rest. repeat split; assumption.
Qed.

Lemma handle_request_line_file first_line content_type body :
  HttpServer.handle_request_line web_root_ path_append canonical is_regular_file read_file
    first_line = HttpServer.Sent (HttpServer.FileResponse content_type body) ->
  String.substring 0 4 first_line = "GET "%string
  /\ exists full root_str rest,
       canonical full = Some (String.append root_str rest)
       /\ canonical web_root_ = Some root_str
       /\ is_regular_file (String.append root_str rest) = Some true
       /\ read_file (String.append root_str rest) = Some body
       /\ content_type = HttpServer.get_mime_type (String.append root_str rest).
Proof.
  unfold HttpServer.handle_request_line. rewrite substr_0.
  destruct (String.eqb_spec (String.substring 0 4 first_line) "GET ") as [Hget|Hget];
    simpl; [|discriminate].
  destruct (HttpServer.substr _ _ first_line) as [uri0|]; [|discriminate].
  match goal with |- context [HttpServer.resolve_path _ _ _ _ ?u] => generalize u end.
  intros uri. unfold HttpServer.resolve_path.
  destruct (HttpServer.substr 1 None _) as [rel|]; [|discriminate].
  destruct (HttpServer.resolve_canonical web_root_ canonical is_regular_file
              (path_append web_root_ rel)) as [|x c] eqn:Hres; [discriminate|].
  unfold HttpServer.send_file.
  destruct (read_file (String x c)) as [b|] eqn:Hread; [|discriminate].
  intros H. inversion H; subst. split; [exact Hget|].
  destruct (resolve_canonical_served _ _ Hres) as (Hc & root_str & rest & Hroot & Hrest & Hreg);
    [discriminate|].
  exists (path_append web_root_ rel), root_str, rest. rewrite <-Hrest.
  repeat split; assumption.
Qed.

(** X22. Whenever [handle_client] answers with a file, the request began
    with [GET ], the body is the content of a regular file whose canonical
    path string begins with the canonical string of the web root, and the
    content type is [get_mime_type] of that canonical path. *)
Theorem served_file_is_a_regular_file_under_the_root_string received content_type body :
  HttpServer.handle_client web_root_ path_append canonical is_regular_file read_file received
  = HttpServer.Sent (HttpServer.FileResponse content_type body) ->
  String.substring 0 4 (HttpServer.c_str received) = "GET "%string
  /\ exists full root_str rest,
       canonical full = Some (String.append root_str rest)
       /\ canonical web_root_ = Some root_str
       /\ is_regular_file (String.append root_str rest) = Some true
       /\ read_file (String.append root_str rest) = Some body
       /\ content_type = HttpServer.get_mime_type (String.append root_str rest).
Proof.
  unfold HttpServer.handle_client. destruct received as [|x r]; [discriminate|].
  destruct (String.index 0 HttpServer.crlf (HttpServer.c_str (String x r))) as [n|];
    [|discriminate].
  rewrite substr_0. intros H. apply handle_request_line_file in H as [Hget Hex].
  split; [|exact Hex].
  rewrite substring_0_substring_0 in Hget.
  assert (Hn : (4 <= Nat.min 4 n)%nat).
  { pose proof (length_substring_0 (HttpServer.c_str (String x r)) (Nat.min 4 n)) as Hl.
    rewrite Hget in Hl. simpl in Hl. exact Hl. }
  replace (Nat.min 4 n) with 4%nat in Hget by lia. exact Hget.
Qed.

End ServedFiles.

Lemma served_file_is_a_regular_file_under_the_root_string_witness :
  String.substring 0 4 (HttpServer.c_str (WebRoot.request "GET / HTTP/1.1")) = "GET "%string.
Proof.
  apply (served_file_is_a_regular_file_under_the_root_string
           WebRoot.web_root WebRoot.path_append WebRoot.canonical WebRoot.is_regular_file
           WebRoot.read_file (WebRoot.request "GET / HTTP/1.1") "text/html" "<html></html>").
  vm_compute. reflexivity.
Defined.

Section Requests.

Variable web_root_ : string.
Variable path_append : string -> string -> string.
Variable canonical : string -> option string.
Variable is_regular_file : string -> option bool.
Variable read_file : string -> option string.

(** X23. [resolve_path] accepts every regular file whose canonical path has
    the canonical web root as a prefix of its characters.  The comparison is
    on strings, not on path components: a sibling directory whose name
    extends that of the web root passes. *)
Theorem resolve_path_compares_strings first rel root_str rest :
  String first rel <> "/"%string ->
  canonical (path_append web_root_ rel) = Some (String.append root_str rest) ->
  canonical web_root_ = Some root_str ->
  is_regular_file (String.append root_str rest) = Some true ->
  HttpServer.resolve_path web_root_ path_append canonical is_regular_file (String first rel)
  = Some (String.append root_str rest).
Proof.
  intros Hne Hc Hroot Hreg. unfold HttpServer.resolve_path.
  destruct (String.eqb_spec (String first rel) "/") as [E|_]; [contradiction|].
  unfold HttpServer.substr. simpl. rewrite Nat.sub_0_r, substring_0_length.
  unfold HttpServer.resolve_canonical. rewrite Hc, Hroot.
  assert (Hp : String.substring 0 (String.length root_str) (String.append root_str rest)
               = root_str).
  { apply substring_0_prefix. eauto. }
  rewrite Hp, String.eqb_refl. simpl. rewrite Hreg. reflexivity.
Qed.

(** X24. A request line whose URI is empty ([GET ] followed by a question
    mark, by a second space, or by nothing) makes [path.substr(1)] throw
    [std::out_of_range] outside the try block of [resolve_path]; nothing in
    [handle_client] catches it, whatever the file system holds. *)
Theorem empty_uri_throws_out_of_range tail :
  HttpServer.handle_request_line web_root_ path_append canonical is_regular_file read_file
    (String.append "GET ?" tail) = HttpServer.ThrowsOutOfRange
  /\ HttpServer.handle_request_line web_root_ path_append canonical is_regular_file read_file
       (String.append "GET  " tail) = HttpServer.ThrowsOutOfRange
  /\ HttpServer.handle_request_line web_root_ path_append canonical is_regular_file read_file
       "GET " = HttpServer.ThrowsOutOfRange
  /\ (String.index 0 HttpServer.crlf (HttpServer.c_str tail) <> None ->
      HttpServer.handle_client web_root_ path_append canonical is_regular_file read_file
        (String.append "GET ?" tail) = HttpServer.ThrowsOutOfRange).
Proof.
  assert (H1 : forall t,
            HttpServer.handle_request_line web_root_ path_append canonical is_regular_file
              read_file (String.append "GET ?" t) = HttpServer.ThrowsOutOfRange).
  { intros t. cbv [String.append].
    unfold HttpServer.handle_request_line, HttpServer.substr. simpl.
    destruct (String.index 0 " " t) as [k|]; simpl.
    - rewrite prefix_empty. reflexivity.
    - rewrite prefix_empty. reflexivity. }
  split; [apply H1|]. split; [|split].
  - cbv [String.append].
    unfold HttpServer.handle_request_line, HttpServer.substr. simpl.
    rewrite !prefix_empty. reflexivity.
  - reflexivity.
  - intros Hcr. specialize (H1 (String.substring 0
        (match String.index 0 HttpServer.crlf (HttpServer.c_str tail) with
         | Some n => n | None => 0%nat end) (HttpServer.c_str tail))).
    cbv [String.append] in H1 |- *.
    unfold HttpServer.handle_client. simpl.
    destruct (String.index 0 HttpServer.crlf (HttpServer.c_str tail)) as [n|] eqn:E;
      [|contradiction].
    exact H1.
Qed.

(** X25. A request for [/] is answered exactly as a request for
    [/index.html], whatever follows the URI on the request line. *)
Theorem root_uri_serves_index_html tail :
  HttpServer.handle_request_line web_root_ path_append canonical is_regular_file read_file
    (String.append "GET / " tail)
  = HttpServer.handle_request_line web_root_ path_append canonical is_regular_file read_file
      (String.append "GET /index.html " tail).
Proof.
  cbv [String.append]. unfold HttpServer.handle_request_line, HttpServer.substr. simpl.
  rewrite !prefix_empty. reflexivity.
Qed.

End Requests.

Lemma resolve_path_compares_strings_witness :
  HttpServer.resolve_path WebRoot.web_root WebRoot.path_append WebRoot.canonical
    WebRoot.is_regular_file "/../web-old/notes.txt"
  = Some "/srv/web-old/notes.txt"%string.
Proof.
  apply (resolve_path_compares_strings WebRoot.web_root WebRoot.path_append WebRoot.canonical
           WebRoot.is_regular_file "/" "../web-old/notes.txt" "/srv/web" "-old/notes.txt").
  - discriminate.
  - reflexivity.
  - reflexivity.
  - reflexivity.
Defined.

Example http_scenarios :
  WebRoot.handle_client (WebRoot.request "GET / HTTP/1.1")
  = HttpServer.Sent (HttpServer.FileResponse "text/html" "<html></html>")
  /\ WebRoot.handle_client (WebRoot.request "GET /../web-old/notes.txt HTTP/1.1")
     = HttpServer.Sent (HttpServer.FileResponse "application/octet-stream" "notes")
  /\ WebRoot.handle_client (WebRoot.request "GET /../../etc/passwd HTTP/1.1")
     = HttpServer.Sent (HttpServer.Response 404 "Not Found" "text/html"
                          "<html><body><h1>404 Not Found</h1></body></html>")
  /\ WebRoot.handle_client (WebRoot.request "POST / HTTP/1.1")
     = HttpServer.Sent (HttpServer.Response 405 "Method Not Allowed" "text/plain"
                          "Only GET supported")
  /\ WebRoot.handle_client (WebRoot.request "GET //srv/web/index.html HTTP/1.1")
     = HttpServer.Sent (HttpServer.FileResponse "text/html" "<html></html>")
  /\ WebRoot.handle_client (WebRoot.request "GET //srv/web-old/notes.txt HTTP/1.1")
     = HttpServer.Sent (HttpServer.FileResponse "application/octet-stream" "notes")
  /\ WebRoot.handle_client (WebRoot.request "GET //etc/passwd HTTP/1.1")
     = HttpServer.Sent (HttpServer.Response 404 "Not Found" "text/html"
                          "<html><body><h1>404 Not Found</h1></body></html>")
  /\ WebRoot.handle_client (WebRoot.request "GET ?x=1 HTTP/1.1") = HttpServer.ThrowsOutOfRange
  /\ WebRoot.handle_client "GET / HTTP/1.1" = HttpServer.Silent.
Proof. vm_compute. repeat split; reflexivity. Qed.

(** X26. For a path ending in a period and a non-empty extension without
    period or slash, [get_mime_type] looks the lower-cased extension up in
    the table and falls back to application/octet-stream; when the period
    starts the file name (a dot file) there is no extension and the answer
    is always application/octet-stream. *)
Theorem mime_type_follows_the_lowercased_extension p e :
  HttpServer.after_last "." e = None ->
  HttpServer.after_last "/" e = None ->
  e <> EmptyString ->
  (HttpServer.filename p <> EmptyString ->
   HttpServer.get_mime_type (String.append p (String "." e))
   = match HttpServer.find_mime (HttpServer.tolower_string (String "." e))
             HttpServer.mime_types_ with
     | Some m => m
     | None => "application/octet-stream"%string
     end)
  /\ (HttpServer.filename p = EmptyString ->
      HttpServer.get_mime_type (String.append p (String "." e))
      = "application/octet-stream"%string).
Proof.
  intros Hdot Hslash He. split; intros Hf.
  - unfold HttpServer.get_mime_type. rewrite extension_append by assumption. reflexivity.
  - unfold HttpServer.get_mime_type, HttpServer.extension.
    rewrite filename_append by (simpl; rewrite Hslash; reflexivity).
    rewrite Hf. cbv [String.append].
    assert (H1 : String.eqb (String "." e) "." = false).
    { destruct e; [contradiction|reflexivity]. }
    assert (H2 : String.eqb (String "." e) ".." = false).
    { destruct e as [|x e]; [contradiction|]. simpl.
      destruct (Ascii.eqb_spec x ".") as [->|_]; [|reflexivity].
      simpl in Hdot. destruct (HttpServer.after_last "." e); discriminate. }
    rewrite H1, H2. simpl. rewrite Hdot. reflexivity.
Qed.

Lemma mime_type_follows_the_lowercased_extension_witness :
  HttpServer.get_mime_type "/srv/web/Viewer.HTML" = "text/html"%string
  /\ HttpServer.get_mime_type "/srv/web/.html" = "application/octet-stream"%string.
Proof.
  destruct (mime_type_follows_the_lowercased_extension "/srv/web/Viewer" "HTML")
    as [H1 _]; [reflexivity|reflexivity|discriminate|].
  destruct (mime_type_follows_the_lowercased_extension "/srv/web/" "html")
    as [_ H2]; [reflexivity|reflexivity|discriminate|].
  split.
  - apply H1. discriminate.
  - apply H2. reflexivity.
Defined.

(** ** load_config *)

Section Loading.

Context {node : Type} `{Config.Yaml node}.
Variable getenv : string -> option string.
Variable stoi : string -> option Z.

Lemma apply_env_inr cfg0 cfg :
  Config.apply_env getenv stoi cfg0 = inr cfg ->
  exists port bitrate max_bitrate,
    Config.env_int_or getenv stoi "SIGNALING_PORT" (Config.signaling_port (Config.server cfg0))
      = inr port
    /\ Config.env_int_or getenv stoi "VIDEO_BITRATE_KBPS"
         (bitrate_kbps (video (webrtc (Config.app cfg0)))) = inr bitrate
    /\ Config.env_int_or getenv stoi "VIDEO_MAX_BITRATE_KBPS"
         (max_bitrate_kbps (video (webrtc (Config.app cfg0)))) = inr max_bitrate
    /\ Config.signaling_port (Config.server cfg) = Config.to_uint16 port
    /\ Config.http_port (Config.server cfg) = Config.http_port (Config.server cfg0)
    /\ bitrate_kbps (video (webrtc (Config.app cfg))) = bitrate
    /\ max_bitrate_kbps (video (webrtc (Config.app cfg))) = max_bitrate
    /\ url (rtsp (Config.app cfg))
       = Config.env_or getenv "RTSP_URL" (url (rtsp (Config.app cfg0)))
    /\ stun_server (webrtc (Config.app cfg))
       = Config.env_or getenv "STUN_SERVER" (stun_server (webrtc (Config.app cfg0)))
    /\ turn_server (webrtc (Config.app cfg))
       = Config.env_or getenv "TURN_SERVER" (turn_server (webrtc (Config.app cfg0)))
    /\ turn_username (webrtc (Config.app cfg))
       = Config.env_or getenv "TURN_USERNAME" (turn_username (webrtc (Config.app cfg0)))
    /\ turn_credential (webrtc (Config.app cfg))
       = Config.env_or getenv "TURN_CREDENTIAL" (turn_credential (webrtc (Config.app cfg0)))
    /\ Config.level (Config.logging cfg)
       = Config.env_or getenv "LOG_LEVEL" (Config.level (Config.logging cfg0)).
Proof.
  unfold Config.apply_env. intros Hl.
  destruct (Config.env_int_or getenv stoi "SIGNALING_PORT" _) as [e|port]; [discriminate|].
  destruct (Config.env_int_or getenv stoi "VIDEO_BITRATE_KBPS" _) as [e|b]; [discriminate|].
  destruct (Config.env_int_or getenv stoi "VIDEO_MAX_BITRATE_KBPS" _) as [e|m]; [discriminate|].
  inversion Hl; subst; clear Hl. exists port, b, m. simpl. repeat split.
Qed.

Lemma env_int_or_set name fallback v n r :
  Config.env_int_or getenv stoi name fallback = inr r ->
  getenv name = Some v -> stoi v = Some n -> r = n.
Proof. unfold Config.env_int_or. intros H1 H2 H3. rewrite H2, H3 in H1. congruence. Qed.

Lemma env_or_set name fallback v :
  getenv name = Some v -> Config.env_or getenv name fallback = v.
Proof. unfold Config.env_or. intros ->. reflexivity. Qed.

Lemma read_server_http_port (doc : node) c c' :
  Config.read_server doc c = inr c' -> Config.http_port c' = Config.http_port c.
Proof.
  unfold Config.read_server, Config.bind. intros Hr.
  destruct (Config.sub doc "server") as [err|s]; [discriminate|].
  destruct (Config.y_defined s); [|congruence].
  destruct (Config.sub s "signaling_port") as [err|port]; [discriminate|].
  destruct (Config.sub s "web_root") as [err|dir]; [discriminate|].
  inversion Hr. reflexivity.
Qed.

Lemma read_yaml_http_port (doc : node) cfg :
  Config.read_yaml doc = inr cfg -> Config.http_port (Config.server cfg) = 8081.
Proof.
  unfold Config.read_yaml, Config.bind. intros Hr.
  destruct (Config.read_server doc _) as [err|s] eqn:Hs; [discriminate|].
  destruct (Config.read_rtsp doc _) as [err|r]; [discriminate|].
  destruct (Config.read_webrtc doc _) as [err|w]; [discriminate|].
  destruct (Config.read_encoding doc _) as [err|e]; [discriminate|].
  destruct (Config.read_logging doc _) as [err|l]; [discriminate|].
  inversion Hr. simpl. apply read_server_http_port in Hs. exact Hs.
Qed.

(** X27. When [load_config] returns, each of the nine environment variables
    that is set has replaced the value of the file: the six strings as they
    are, the two bitrates as [std::stoi] reads them, and the signaling port
    as [std::stoi] reads it, reduced modulo 65536 by the cast to uint16_t. *)
Theorem environment_overrides_the_file doc cfg :
  Config.load_config getenv stoi (Some doc) = inr cfg ->
  (forall v, getenv "RTSP_URL" = Some v -> url (rtsp (Config.app cfg)) = v)
  /\ (forall v, getenv "STUN_SERVER" = Some v -> stun_server (webrtc (Config.app cfg)) = v)
  /\ (forall v, getenv "TURN_SERVER" = Some v -> turn_server (webrtc (Config.app cfg)) = v)
  /\ (forall v, getenv "TURN_USERNAME" = Some v ->
        turn_username (webrtc (Config.app cfg)) = v)
  /\ (forall v, getenv "TURN_CREDENTIAL" = Some v ->
        turn_credential (webrtc (Config.app cfg)) = v)
  /\ (forall v, getenv "LOG_LEVEL" = Some v -> Config.level (Config.logging cfg) = v)
  /\ (forall v n, getenv "VIDEO_BITRATE_KBPS" = Some v -> stoi v = Some n ->
        bitrate_kbps (video (webrtc (Config.app cfg))) = n)
  /\ (forall v n, getenv "VIDEO_MAX_BITRATE_KBPS" = Some v -> stoi v = Some n ->
        max_bitrate_kbps (video (webrtc (Config.app cfg))) = n)
  /\ (forall v n, getenv "SIGNALING_PORT" = Some v -> stoi v = Some n ->
        Config.signaling_port (Config.server cfg) = n mod 65536).
Proof.
  unfold Config.load_config, Config.bind. intros Hl.
  destruct (Config.read_yaml doc) as [err|cfg0]; [discriminate|].
  destruct (apply_env_inr _ _ Hl)
    as (port & b & m & Hp & Hb & Hm & E1 & _ & E3 & E4 & E5 & E6 & E7 & E8 & E9 & E10).
  repeat split.
  - intros v Hv. rewrite E5. apply env_or_set. exact Hv.
  - intros v Hv. rewrite E6. apply env_or_set. exact Hv.
  - intros v Hv. rewrite E7. apply env_or_set. exact Hv.
  - intros v Hv. rewrite E8. apply env_or_set. exact Hv.
  - intros v Hv. rewrite E9. apply env_or_set. exact Hv.
  - intros v Hv. rewrite E10. apply env_or_set. exact Hv.
  - intros v n Hv Hn. rewrite E3. eapply env_int_or_set; eassumption.
  - intros v n Hv Hn. rewrite E4. eapply env_int_or_set; eassumption.
  - intros v n Hv Hn. rewrite E1. unfold Config.to_uint16. f_equal.
    eapply env_int_or_set; eassumption.
Qed.

(** X28. Whatever the file and the environment hold, a configuration
    returned by [load_config] has [http_port] 8081: neither a key nor a
    variable is read for it.  The signaling port is within 0..65535. *)
Theorem http_port_is_not_read doc cfg :
  Config.load_config getenv stoi (Some doc) = inr cfg ->
  Config.http_port (Config.server cfg) = 8081
  /\ 0 <= Config.signaling_port (Config.server cfg) < 65536.
Proof.
  unfold Config.load_config, Config.bind. intros Hl.
  destruct (Config.read_yaml doc) as [err|cfg0] eqn:Hy; [discriminate|].
  destruct (apply_env_inr _ _ Hl) as (port & b & m & _ & _ & _ & E1 & E2 & _).
  split.
  - rewrite E2. eapply read_yaml_http_port. exact Hy.
  - rewrite E1. unfold Config.to_uint16. apply Z.mod_pos_bound. lia.
Qed.

(** X29. When one of SIGNALING_PORT, VIDEO_BITRATE_KBPS and
    VIDEO_MAX_BITRATE_KBPS is set to a value that [std::stoi] rejects,
    [load_config] throws for every document: no configuration is returned
    and no fallback is used. *)
Theorem load_config_throws_on_a_bad_integer_variable doc name v :
  name = "SIGNALING_PORT"%string \/ name = "VIDEO_BITRATE_KBPS"%string
  \/ name = "VIDEO_MAX_BITRATE_KBPS"%string ->
  getenv name = Some v ->
  stoi v = None ->
  exists err, Config.load_config getenv stoi (Some doc) = inl err.
Proof.
  intros Hname Hv Hs. unfold Config.load_config, Config.bind.
  destruct (Config.read_yaml doc) as [err|cfg0]; [eauto|].
  destruct (Config.apply_env getenv stoi cfg0) as [err|cfg] eqn:Ha; [eauto|].
  exfalso.
  destruct (apply_env_inr _ _ Ha) as (port & b & m & Hp & Hb & Hm & _).
  assert (Hbad : forall fallback,
            Config.env_int_or getenv stoi name fallback = inl (Config.StoiThrows name)).
  { intros fallback. unfold Config.env_int_or. rewrite Hv, Hs. reflexivity. }
  destruct Hname as [-> | [-> | ->]]; rewrite Hbad in *; discriminate.
Qed.

End Loading.

Section NoSections.

Context {node : Type} `{Config.Yaml node}.

(** X30. For a document in which none of the sections is defined and an
    empty environment, [load_config] returns the defaults of config.hpp. *)
Theorem document_without_sections_gives_the_defaults (doc : node) stoi :
  (forall key, exists n, Config.y_get doc key = Some n /\ Config.y_defined n = false) ->
  Config.load_config (fun _ => None) stoi (Some doc) = inr Config.defaults.
Proof.
  intros Hempty.
  assert (Hsub : forall key, exists n,
             Config.sub doc key = inr n /\ Config.y_defined n = false).
  { intros key. destruct (Hempty key) as (n & Hn & Hd). exists n.
    unfold Config.sub. rewrite Hn. auto. }
  unfold Config.load_config, Config.read_yaml, Config.read_server, Config.read_rtsp,
    Config.read_webrtc, Config.read_encoding, Config.read_logging.
  destruct (Hsub "server"%string) as (n1 & -> & E1).
  destruct (Hsub "rtsp"%string) as (n2 & -> & E2).
  destruct (Hsub "webrtc"%string) as (n3 & -> & E3).
  destruct (Hsub "encoding"%string) as (n4 & -> & E4).
  destruct (Hsub "logging"%string) as (n5 & -> & E5).
  cbn [Config.bind]. rewrite E1, E2, E3, E4, E5. reflexivity.
Qed.

End NoSections.

Example robot_configuration :
  match Config.load_config ExampleYaml.robot_env ExampleYaml.example_stoi
          (Some ExampleYaml.robot_yaml) with
  | inr cfg =>
      url (rtsp (Config.app cfg)) = "rtsp://10.0.0.5/cam"%string
      /\ bitrate_kbps (video (webrtc (Config.app cfg))) = 2500
      /\ max_peers (webrtc (Config.app cfg)) = 2
      /\ Config.signaling_port (Config.server cfg) = 4464
      /\ Config.http_port (Config.server cfg) = 8081
  | inl _ => False
  end.
Proof. vm_compute. repeat split; reflexivity. Qed.

Lemma robot_loaded_is_loaded :
  Config.load_config ExampleYaml.robot_env ExampleYaml.example_stoi
    (Some ExampleYaml.robot_yaml) = inr ExampleYaml.robot_loaded.
Proof. vm_compute. reflexivity. Qed.

Lemma environment_overrides_the_file_witness :
  url (rtsp (Config.app ExampleYaml.robot_loaded)) = "rtsp://10.0.0.5/cam"%string
  /\ bitrate_kbps (video (webrtc (Config.app ExampleYaml.robot_loaded))) = 2500
  /\ Config.signaling_port (Config.server ExampleYaml.robot_loaded) = 70000 mod 65536.
Proof.
  destruct (environment_overrides_the_file ExampleYaml.robot_env ExampleYaml.example_stoi
              ExampleYaml.robot_yaml ExampleYaml.robot_loaded robot_loaded_is_loaded)
    as (Hurl & _ & _ & _ & _ & _ & Hbitrate & _ & Hport).
  split; [|split].
  - apply Hurl. reflexivity.
  - apply (Hbitrate "2500"%string); reflexivity.
  - apply (Hport "70000"%string); reflexivity.
Defined.

Lemma load_config_throws_on_a_bad_integer_variable_witness :
  exists err,
    Config.load_config
      (fun name => if String.eqb name "VIDEO_BITRATE_KBPS" then Some "fast"%string else None)
      ExampleYaml.example_stoi (Some ExampleYaml.robot_yaml) = inl err.
Proof.
  apply (load_config_throws_on_a_bad_integer_variable _ _ ExampleYaml.robot_yaml
           "VIDEO_BITRATE_KBPS" "fast").
  - right. left. reflexivity.
  - reflexivity.
  - reflexivity.
Defined.

Lemma http_port_is_not_read_witness :
  Config.http_port (Config.server ExampleYaml.robot_loaded) = 8081
  /\ 0 <= Config.signaling_port (Config.server ExampleYaml.robot_loaded) < 65536.
Proof.
  exact (http_port_is_not_read ExampleYaml.robot_env ExampleYaml.example_stoi
           ExampleYaml.robot_yaml ExampleYaml.robot_loaded robot_loaded_is_loaded).
Defined.

Lemma document_without_sections_gives_the_defaults_witness :
  Config.load_config (fun _ => None) ExampleYaml.example_stoi
    (Some (ExampleYaml.Map [])) = inr Config.defaults.
Proof.
  apply document_without_sections_gives_the_defaults.
  intros key. exists ExampleYaml.Undefined. split; reflexivity.
Defined.
